(** * The EFI disk layer of GRUB legacy (efi/efidisk.c), embedded in Rocq

    The development follows the C file top-down: device paths as raw byte
    buffers and the macros that read them, the three path functions
    ([duplicate_device_path], [find_last_device_path],
    [compare_device_paths]), the enumeration and naming of devices, the
    drive abstraction ([get_diskinfo], [biosdisk]) and the mapping from a
    firmware handle back to a (drive, partition) pair.  The definitions come
    first; the properties follow, function by function, and then the
    properties of the functions together: initialisation as a whole, the
    resolution of handles after it, and the way from a partition to a drive
    and back.

    Target: x86-64 EFI, where [int] is 32 bits wide and [unsigned long],
    [grub_size_t], [grub_disk_addr_t] and [grub_efi_uint64_t] are 64 bits
    wide. *)

From Stdlib Require Import ZArith Lia List Bool Sorting.Sorted.
From Stdlib Require Import Strings.Byte.
From stdpp Require Import base option list gmap.

Local Open Scope Z_scope.

(** ** Bytes and buffers *)

(** A buffer is the memory that starts at a pointer and runs to the end of the
    object the pointer points into.  Reading past it is an access outside the
    object: the model has no value for it and the read yields [None]. *)
Abbreviation buffer := (list byte).

(** The value of a [grub_efi_uint8_t]. *)
Definition u8 (b : byte) : Z := Z.of_N (Byte.to_N b).

Definition load8 (p : buffer) (i : nat) : option Z := u8 <$> p !! i.

(** ** The device path macros of grub/efi/api.h *)

Module Api.

(** Modelled from the spec: the header grub/efi/api.h is not part of the
    sources at hand.  The spec's data model gives a node the fields type,
    subtype and length (the total record size, header included) and names
    the categories hardware, ACPI, messaging, media and end; the numeric
    values are those the UEFI specification assigns.  A node header is
    [type; subtype; length[0]; length[1]], the length little-endian.  The
    type is read with its top bit masked off and the end type is
    [0xff & 0x7f], as in GRUB's header of that name: the firmware of the time
    writes the end type as 0x7f or as 0xff. *)
Definition GRUB_EFI_HARDWARE_DEVICE_PATH_TYPE : Z := 1.
Definition GRUB_EFI_ACPI_DEVICE_PATH_TYPE : Z := 2.
Definition GRUB_EFI_MESSAGING_DEVICE_PATH_TYPE : Z := 3.
Definition GRUB_EFI_MEDIA_DEVICE_PATH_TYPE : Z := 4.
Definition GRUB_EFI_END_DEVICE_PATH_TYPE : Z := Z.land 0xff 0x7f.
Definition GRUB_EFI_END_ENTIRE_DEVICE_PATH_SUBTYPE : Z := 0xff.
Definition GRUB_EFI_HARD_DRIVE_DEVICE_PATH_SUBTYPE : Z := 1.
Definition GRUB_EFI_CDROM_DEVICE_PATH_SUBTYPE : Z := 2.

Definition GRUB_EFI_SUCCESS : Z := 0.

(** [sizeof (grub_efi_device_path_t)]. *)
Definition sizeof_device_path : nat := 4.

Definition GRUB_EFI_DEVICE_PATH_TYPE (dp : buffer) : option Z :=
  t ← load8 dp 0; Some (Z.land t 0x7f).

Definition GRUB_EFI_DEVICE_PATH_SUBTYPE (dp : buffer) : option Z :=
  load8 dp 1.

Definition GRUB_EFI_DEVICE_PATH_LENGTH (dp : buffer) : option Z :=
  l0 ← load8 dp 2; l1 ← load8 dp 3; Some (Z.lor l0 (Z.shiftl l1 8)).

(** The conjunction is C's [&&]: the subtype is read only when the type is
    the end type. *)
Definition GRUB_EFI_END_ENTIRE_DEVICE_PATH (dp : buffer) : option bool :=
  t ← GRUB_EFI_DEVICE_PATH_TYPE dp;
  if t =? GRUB_EFI_END_DEVICE_PATH_TYPE
  then s ← GRUB_EFI_DEVICE_PATH_SUBTYPE dp;
       Some (s =? GRUB_EFI_END_ENTIRE_DEVICE_PATH_SUBTYPE)
  else Some false.

(** Pointer arithmetic only: the node after [dp] starts [length] bytes on. *)
Definition GRUB_EFI_NEXT_DEVICE_PATH (dp : buffer) : option buffer :=
  len ← GRUB_EFI_DEVICE_PATH_LENGTH dp; Some (drop (Z.to_nat len) dp).

End Api.
Export Api.

(** Modelled from the spec: [grub_memcmp] is declared in a header and defined
    elsewhere in GRUB.  The spec calls it a byte-wise comparison of the
    payload; it is taken as the comparison of the first [n] bytes as
    unsigned values, deciding at the first pair that differs.  The callers
    below use only whether the result is zero, negative or positive. *)
Fixpoint grub_memcmp (s1 s2 : buffer) (n : nat) {struct n} : option Z :=
  match n with
  | O => Some 0
  | S n' =>
    match s1, s2 with
    | a :: s1', b :: s2' =>
      if u8 a <? u8 b then Some (-1)
      else if u8 b <? u8 a then Some 1
      else grub_memcmp s1' s2' n'
    | _, _ => None
    end
  end.

(** ** Memory, pointers and the records of the module *)

(** The device paths the firmware hands out live in firmware memory, one
    block per object; a pointer is a block and an offset into it.  The module
    keeps such pointers in its device records, so a store through one pointer
    is seen through every other pointer into the same block. *)
Record ptr := Ptr { p_block : N; p_off : nat }.

Abbreviation memory := (gmap N buffer).

Definition deref (m : memory) (p : ptr) : buffer :=
  drop (p_off p) (default [] (m !! p_block p)).

Definition ptr_add (p : ptr) (k : nat) : ptr := Ptr (p_block p) (p_off p + k).

(** Modelled from the spec: the block-I/O media parameters of grub/efi/api.h
    that the module reads (media identifier, read-only flag, block size and
    the index of the last block). *)
Record grub_efi_block_io_media := {
  media_id : Z;
  read_only : bool;
  block_size : Z;
  last_block : Z;
}.

Record grub_efi_block_io := { media : grub_efi_block_io_media }.

(** [struct grub_efidisk_data]; the [next] field is the tail of the Rocq list
    a record sits in.  [None] is the null pointer. *)
Record grub_efidisk_data := {
  handle : N;
  device_path : option ptr;
  last_device_path : option ptr;
  block_io : grub_efi_block_io;
  disk_io : N;
}.

(** One call of a disk-I/O service through [Call_Service_5]. *)
Inductive service := dio_read | dio_write.

Record transfer := {
  t_service : service;
  t_this : N;
  t_media_id : Z;
  t_offset : Z;
  t_size : Z;
  t_buffer : Z;
}.

(** One result of the partition walker. *)
Record partition_entry := {
  pe_part : Z;
  pe_type : Z;
  pe_start : Z;
  pe_len : Z;
}.

(** Modelled from the spec: the external collaborators of section 6.  The
    handles that implement disk I/O ([None] when the firmware returns no
    array), the device path of a handle, the two protocols of a handle, the
    status a transfer returns, and for a drive the partitions that
    [next_partition] yields in turn until it returns 0. *)
Record firmware := {
  grub_efi_locate_handle : option (list N);
  grub_efi_get_device_path : N → option ptr;
  open_block_io : N → option grub_efi_block_io;
  open_disk_io : N → option N;
  Call_Service_5 : transfer → Z;
  next_partition : Z → list partition_entry;
}.

(** Modelled from the spec: the constants of shared.h and the global
    [cdrom_drive], none of them part of the sources at hand.  The sector size
    is the conventional 512 bytes of the spec; the others are parameters.
    [NETWORK_DRIVE] is [None] in a build without SUPPORT_NETBOOT. *)
Record shared_h := {
  GRUB_INVALID_DRIVE : Z;
  NETWORK_DRIVE : option Z;
  cdrom_drive : Z;
  BIOSDISK_READ : Z;
  BIOSDISK_WRITE : Z;
  BIOSDISK_FLAG_LBA_EXTENSION : Z;
}.

Definition SECTOR_SIZE : Z := 0x200.

(** Modelled from the spec: [struct geometry] of shared.h, with the fields
    that [get_diskinfo] stores; on the target each is a 64-bit unsigned
    object. *)
Record geometry := {
  cylinders : Z;
  heads : Z;
  sectors : Z;
  total_sectors : Z;
  sector_size : Z;
  flags : Z;
}.

(** ** The state of the module and its monad *)

(** The firmware memory, the outcomes of the [grub_malloc] calls still to
    come (an empty list: every further call succeeds), the three static
    lists, and the transfers issued so far, the latest first. *)
Record world := World {
  mem : memory;
  heap : list bool;
  fd_devices : list grub_efidisk_data;
  hd_devices : list grub_efidisk_data;
  cd_devices : list grub_efidisk_data;
  io_log : list transfer;
}.

Definition set_mem (m : memory) (w : world) : world :=
  World m (heap w) (fd_devices w) (hd_devices w) (cd_devices w) (io_log w).
Definition set_heap (h : list bool) (w : world) : world :=
  World (mem w) h (fd_devices w) (hd_devices w) (cd_devices w) (io_log w).
Definition set_fd_devices (l : list grub_efidisk_data) (w : world) : world :=
  World (mem w) (heap w) l (hd_devices w) (cd_devices w) (io_log w).
Definition set_hd_devices (l : list grub_efidisk_data) (w : world) : world :=
  World (mem w) (heap w) (fd_devices w) l (cd_devices w) (io_log w).
Definition set_cd_devices (l : list grub_efidisk_data) (w : world) : world :=
  World (mem w) (heap w) (fd_devices w) (hd_devices w) l (io_log w).
Definition set_io_log (l : list transfer) (w : world) : world :=
  World (mem w) (heap w) (fd_devices w) (hd_devices w) (cd_devices w) l.

(** A run of C code from a state: [None] when the run leaves the modelled
    memory, dereferences a null pointer or does not end. *)
Definition M (A : Type) : Type := world → option (A * world).

#[global] Instance M_ret : MRet M := λ A a w, Some (a, w).
#[global] Instance M_bind : MBind M := λ A B f c w,
  match c w with Some (a, w') => f a w' | None => None end.

Definition fault {A} : M A := λ _, None.
Definition lift {A} (o : option A) : M A :=
  λ w, match o with Some a => Some (a, w) | None => None end.
Definition gets {A} (f : world → A) : M A := λ w, Some (f w, w).
Definition modify (f : world → world) : M unit := λ w, Some (tt, f w).

(** Modelled from the spec: [grub_malloc] either returns memory or fails
    (the spec's allocation failure); the result here is whether it
    succeeded. *)
Definition grub_malloc : M bool :=
  λ w, match heap w with
       | [] => Some (true, w)
       | ok :: h => Some (ok, set_heap h w)
       end.

(** The object a pointer points to; a null pointer has none. *)
Definition load (p : option ptr) : M buffer :=
  match p with
  | Some p => gets (λ w, deref (mem w) p)
  | None => fault
  end.

(** A store of one byte at offset [i]. *)
Definition store8 (p : buffer) (i : nat) (v : byte) : option buffer :=
  if decide (i < length p)%nat then Some (<[i := v]> p) else None.

(** ** Duplicate a device path *)

(** The [for] loop of [duplicate_device_path]: the sum of the node lengths up
    to and including the end node.  Each turn of the loop costs one unit of
    fuel; [None] is an access outside the buffer or a walk that never reaches
    an end node. *)
Fixpoint total_size_loop (fuel : nat) (p : buffer) (total_size : Z) : option Z :=
  match fuel with
  | O => None
  | S fuel' =>
    len ← GRUB_EFI_DEVICE_PATH_LENGTH p;
    e ← GRUB_EFI_END_ENTIRE_DEVICE_PATH p;
    if (e : bool) then Some (total_size + len)
    else p' ← GRUB_EFI_NEXT_DEVICE_PATH p; total_size_loop fuel' p' (total_size + len)
  end.

(** A walk that advances at all consumes a byte of the buffer at each node, so
    [length p + 1] turns are enough for every walk that ends. *)
Definition walk_fuel (p : buffer) : nat := S (length p).

(** [grub_memcpy (p, dp, n)] reads [n] bytes of [dp]. *)
Definition grub_memcpy_from (dp : buffer) (n : nat) : option buffer :=
  if decide (n ≤ length dp)%nat then Some (take n dp) else None.

(** [duplicate_device_path dp]: the copy, or [None] for the null pointer
    returned when [grub_malloc] fails.  The copy is a fresh object of its own,
    so it is a value here and not a pointer into firmware memory. *)
Definition duplicate_device_path (dp : buffer) : M (option buffer) :=
  total_size ← lift (total_size_loop (walk_fuel dp) dp 0);
  ok ← grub_malloc;
  if (ok : bool)
  then p ← lift (grub_memcpy_from dp (Z.to_nat total_size)); mret (Some p)
  else mret None.

(** ** The node right before the end node *)

(** The [for] loop of [find_last_device_path], on offsets from [dp]: [p] and
    [next] are the offsets of the two cursor pointers. *)
Fixpoint find_last_loop (fuel : nat) (dp : buffer) (p next : nat) : option nat :=
  match fuel with
  | O => None
  | S fuel' =>
    e ← GRUB_EFI_END_ENTIRE_DEVICE_PATH (drop next dp);
    if (e : bool) then Some p
    else len ← GRUB_EFI_DEVICE_PATH_LENGTH (drop next dp);
         find_last_loop fuel' dp next (next + Z.to_nat len)
  end.

(** [find_last_device_path dp] as an offset into [dp]; the inner [None] is
    the null pointer returned for an empty path. *)
Definition find_last_device_path (dp : buffer) : option (option nat) :=
  e ← GRUB_EFI_END_ENTIRE_DEVICE_PATH dp;
  if (e : bool) then Some None
  else len ← GRUB_EFI_DEVICE_PATH_LENGTH dp;
       r ← find_last_loop (walk_fuel dp) dp 0 (Z.to_nat len);
       Some (Some r).

(** [find_last_device_path] on a pointer into the memory [m]; there is no
    result for the null pointer, which the function dereferences. *)
Definition find_last_at (m : memory) (dp : option ptr) : option (option ptr) :=
  p ← dp;
  r ← find_last_device_path (deref m p);
  Some (k ← r; Some (ptr_add p k)).

(** ** Compare device paths *)

(** The [while (1)] loop of [compare_device_paths]. *)
Fixpoint compare_loop (fuel : nat) (dp1 dp2 : buffer) : option Z :=
  match fuel with
  | O => None
  | S fuel' =>
    type1 ← GRUB_EFI_DEVICE_PATH_TYPE dp1;
    type2 ← GRUB_EFI_DEVICE_PATH_TYPE dp2;
    if negb (type1 =? type2) then Some (type2 - type1) else
    subtype1 ← GRUB_EFI_DEVICE_PATH_SUBTYPE dp1;
    subtype2 ← GRUB_EFI_DEVICE_PATH_SUBTYPE dp2;
    if negb (subtype1 =? subtype2) then Some (subtype1 - subtype2) else
    len1 ← GRUB_EFI_DEVICE_PATH_LENGTH dp1;
    len2 ← GRUB_EFI_DEVICE_PATH_LENGTH dp2;
    if negb (len1 =? len2) then Some (len1 - len2) else
    ret ← grub_memcmp dp1 dp2 (Z.to_nat len1);
    if negb (ret =? 0) then Some ret else
    e ← GRUB_EFI_END_ENTIRE_DEVICE_PATH dp1;
    if (e : bool) then Some 0
    else compare_loop fuel' (drop (Z.to_nat len1) dp1) (drop (Z.to_nat len2) dp2)
  end.

(** [compare_device_paths dp1 dp2]; a null pointer is [None]. *)
Definition compare_device_paths (dp1 dp2 : option buffer) : option Z :=
  match dp1, dp2 with
  | Some b1, Some b2 => compare_loop (walk_fuel b1) b1 b2
  | _, _ => Some 1
  end.

(** [compare_device_paths] on pointers into the memory [m]. *)
Definition compare_at (m : memory) (dp1 dp2 : option ptr) : option Z :=
  compare_device_paths (deref m <$> dp1) (deref m <$> dp2).

(** The end-entire node the module writes over a node header:
    the end type, the end-entire subtype, and the size of a header as the
    length. *)
Definition write_end_node (dp : buffer) (off : nat) : option buffer :=
  dp ← store8 dp off x7f;
  dp ← store8 dp (off + 1) xff;
  dp ← store8 dp (off + 2) x04;
  store8 dp (off + 3) x00.

Section Efidisk.

Variable fw : firmware.
Variable sh : shared_h.

(** ** Enumeration *)

(** The [for] loop of [make_devices] over the handle array; the result is
    the list built so far, or the null pointer (the empty list) when an
    allocation fails. *)
Fixpoint make_devices_loop (handles : list N)
    (devices : list grub_efidisk_data) : M (list grub_efidisk_data) :=
  match handles with
  | [] => mret devices
  | handle :: handles' =>
    let dp := grub_efi_get_device_path fw handle in
    match dp with
    | None => make_devices_loop handles' devices
    | Some _ =>
      m ← gets mem;
      ldp ← lift (find_last_at m dp);
      match ldp with
      | None => make_devices_loop handles' devices
      | Some _ =>
        match open_block_io fw handle, open_disk_io fw handle with
        | Some bio, Some dio =>
          d ← grub_malloc;
          if (d : bool)
          then make_devices_loop handles'
                 ({| handle := handle; device_path := dp;
                     last_device_path := ldp;
                     block_io := bio; disk_io := dio |} :: devices)
          else mret []
        | _, _ => make_devices_loop handles' devices
        end
      end
    end
  end.

Definition make_devices : M (list grub_efidisk_data) :=
  match grub_efi_locate_handle fw with
  | None => mret []
  | Some handles => make_devices_loop handles []
  end.

(** [iterate_child_devices devices d hook].  The hook is a nested function of
    its caller in the C source and writes to the caller's locals; here it
    takes the state [s] of those locals and returns it updated, next to its
    result. *)
Fixpoint iterate_child_devices {St : Type} (devices : list grub_efidisk_data)
    (d : grub_efidisk_data)
    (hook : grub_efidisk_data → St → M (bool * St)) (s : St) : M (bool * St) :=
  match devices with
  | [] => mret (false, s)
  | p :: devices' =>
    b ← load (device_path p);
    dp ← duplicate_device_path b;
    match dp with
    | None => mret (false, s)
    | Some dp =>
      ldp ← lift (find_last_device_path dp);
      off ← lift ldp;
      dp ← lift (write_end_node dp off);
      m ← gets mem;
      ret ← lift (compare_device_paths (Some dp) (deref m <$> device_path d));
      if ret =? 0
      then '(r, s') ← hook p s;
           if (r : bool) then mret (true, s')
           else iterate_child_devices devices' d hook s'
      else iterate_child_devices devices' d hook s
    end
  end.

(** ** Naming *)

(** The tail of [add_device]: allocate the node and link it in front of
    [tail], the rest of the list at the insertion point. *)
Definition add_device_link (tail : list grub_efidisk_data)
    (d : grub_efidisk_data) : M (list grub_efidisk_data) :=
  n ← grub_malloc;
  if (n : bool) then mret (d :: tail) else mret tail.

(** The value of [ret] that the loop of [add_device] computes for the list
    entry [p] and the new device [d]: the comparison from the last nodes on
    and, when that is 0, the comparison of the whole paths. *)
Definition add_device_order (m : memory) (p d : grub_efidisk_data) : option Z :=
  l1 ← find_last_at m (device_path p);
  l2 ← find_last_at m (device_path d);
  ret ← compare_at m l1 l2;
  if ret =? 0 then compare_at m (device_path p) (device_path d) else Some ret.

(** [add_device devices d]: the list after the call. *)
Fixpoint add_device (devices : list grub_efidisk_data)
    (d : grub_efidisk_data) : M (list grub_efidisk_data) :=
  match devices with
  | [] => add_device_link [] d
  | p :: devices' =>
    m ← gets mem;
    ret ← lift (add_device_order m p d);
    if ret =? 0 then mret (p :: devices')
    else if ret >? 0 then add_device_link (p :: devices') d
    else l ← add_device devices' d; mret (p :: l)
  end.

(** The body of the loop of [name_devices]. *)
Definition name_device (d : grub_efidisk_data) : M unit :=
  match last_device_path d with
  | None => mret tt
  | Some dp =>
    let m := media (block_io d) in
    b ← load (Some dp);
    type ← lift (GRUB_EFI_DEVICE_PATH_TYPE b);
    (if type =? GRUB_EFI_MESSAGING_DEVICE_PATH_TYPE
     then if read_only m && (block_size m >? SECTOR_SIZE)
          then l ← gets cd_devices; l ← add_device l d; modify (set_cd_devices l)
          else l ← gets hd_devices; l ← add_device l d; modify (set_hd_devices l)
     else mret tt);;
    if type =? GRUB_EFI_ACPI_DEVICE_PATH_TYPE
    then l ← gets fd_devices; l ← add_device l d; modify (set_fd_devices l)
    else mret tt
  end.

Fixpoint name_devices (devices : list grub_efidisk_data) : M unit :=
  match devices with
  | [] => mret tt
  | d :: devices' => name_device d;; name_devices devices'
  end.

(** [free_devices] releases list nodes; the model keeps no record of them. *)
Definition free_devices (devices : list grub_efidisk_data) : M unit := mret tt.

Definition enumerate_disks : M unit :=
  devices ← make_devices;
  match devices with
  | [] => mret tt
  | _ => name_devices devices;; free_devices devices
  end.

Definition grub_efidisk_init : M unit := enumerate_disks.

Definition grub_efidisk_fini : M unit :=
  l ← gets fd_devices; free_devices l;;
  l ← gets hd_devices; free_devices l;;
  l ← gets cd_devices; free_devices l.

(** ** Drives *)

Fixpoint get_device (devices : list grub_efidisk_data) (num : Z)
  : option grub_efidisk_data :=
  match devices with
  | [] => None
  | d :: devices' => if num =? 0 then Some d else get_device devices' (num - 1)
  end.

Definition get_device_from_drive (drive : Z) : M (option grub_efidisk_data) :=
  if bool_decide (NETWORK_DRIVE sh = Some drive) then mret None
  else if drive =? GRUB_INVALID_DRIVE sh then mret None
  else if drive =? cdrom_drive sh
       then l ← gets cd_devices; mret (get_device l 0)
  else if negb (Z.land drive 0x80 =? 0)
       then l ← gets hd_devices; mret (get_device l (drive - 0x80))
  else l ← gets fd_devices; mret (get_device l drive).

(** A value stored in a 64-bit unsigned object. *)
Definition u64 (z : Z) : Z := z mod 2 ^ 64.

(** A disk-I/O service called through [Call_Service_5]. *)
Definition call_service (t : transfer) : M Z :=
  modify (λ w, set_io_log (t :: io_log w) w);;
  mret (Call_Service_5 fw t).

Definition grub_efidisk_read (d : grub_efidisk_data) (sector size buf : Z) : M Z :=
  let dio := disk_io d in
  let bio := block_io d in
  let sector_size := block_size (media (block_io d)) in
  status ← call_service
    {| t_service := dio_read; t_this := dio; t_media_id := media_id (media bio);
       t_offset := u64 (sector * sector_size);
       t_size := u64 (size * sector_size);
       t_buffer := buf |};
  if negb (status =? GRUB_EFI_SUCCESS) then mret (-1) else mret 0.

Definition grub_efidisk_write (d : grub_efidisk_data) (sector size buf : Z) : M Z :=
  let dio := disk_io d in
  let bio := block_io d in
  let sector_size := block_size (media (block_io d)) in
  status ← call_service
    {| t_service := dio_write; t_this := dio; t_media_id := media_id (media bio);
       t_offset := u64 (sector * sector_size);
       t_size := u64 (size * sector_size);
       t_buffer := buf |};
  if negb (status =? GRUB_EFI_SUCCESS) then mret (-1) else mret 0.

(** [get_diskinfo drive geometry]: the value returned and the geometry
    object after the call. *)
Definition get_diskinfo (drive : Z) (g : geometry) : M (Z * geometry) :=
  d ← get_device_from_drive drive;
  match d with
  | None => mret (-1, g)
  | Some d =>
    let total_sectors := u64 (last_block (media (block_io d)) + 1) in
    let sector_size := block_size (media (block_io d)) in
    let flags := BIOSDISK_FLAG_LBA_EXTENSION sh in
    let sectors := 63 in
    let heads := if total_sectors / 63 <? 255 then 1 else 255 in
    let cylinders := total_sectors / 63 / heads in
    mret (0, {| cylinders := cylinders; heads := heads; sectors := sectors;
                total_sectors := total_sectors; sector_size := sector_size;
                flags := flags |})
  end.

(** [biosdisk]; the [geometry] argument is not used by the function.  The
    [int] arguments [sector] and [nsec] are converted to the 64-bit unsigned
    parameter types of the callee, [segment] to [unsigned long]. *)
Definition biosdisk (subfunc drive : Z) (g : option geometry)
    (sector nsec segment : Z) : M Z :=
  d ← get_device_from_drive drive;
  match d with
  | None => mret (-1)
  | Some d =>
    let buf := u64 (Z.shiftl (u64 segment) 4) in
    if subfunc =? BIOSDISK_READ sh
    then ret ← grub_efidisk_read d (u64 sector) (u64 nsec) buf; mret 0
    else if subfunc =? BIOSDISK_WRITE sh
    then ret ← grub_efidisk_write d (u64 sector) (u64 nsec) buf; mret 0
    else mret (-1)
  end.

(** ** From a firmware handle to a drive and a partition *)

(** Modelled from the spec: the two fields of
    [grub_efi_hard_drive_device_path_t] that the module reads, the start and
    the size of the partition, both 64-bit little-endian, at offsets 8 and 16
    of a 42-byte node (the layout of the UEFI hard-drive media node). *)
Record grub_efi_hard_drive_device_path := {
  partition_start : Z;
  partition_size : Z;
}.

Definition sizeof_hard_drive_device_path : nat := 42.

Definition le_bytes (bs : buffer) : Z := foldr (λ b acc, u8 b + 256 * acc) 0 bs.

(** [grub_memcpy (&hd, p, sizeof (hd))]. *)
Definition read_hard_drive (p : buffer) : option grub_efi_hard_drive_device_path :=
  raw ← grub_memcpy_from p sizeof_hard_drive_device_path;
  Some {| partition_start := le_bytes (take 8 (drop 8 raw));
          partition_size := le_bytes (take 8 (drop 16 raw)) |}.

(** The [while (1)] loop at the head of
    [grub_get_drive_partition_from_bdev_handle]: a CD-ROM media node is
    overwritten, in place, with an end-entire node.  The result is the object
    after the loop. *)
Fixpoint cut_at_cdrom (fuel : nat) (dp1 : buffer) : option buffer :=
  match fuel with
  | O => None
  | S fuel' =>
    type ← GRUB_EFI_DEVICE_PATH_TYPE dp1;
    subtype ← GRUB_EFI_DEVICE_PATH_SUBTYPE dp1;
    dp1 ← (if (type =? GRUB_EFI_MEDIA_DEVICE_PATH_TYPE)
              && (subtype =? GRUB_EFI_CDROM_DEVICE_PATH_SUBTYPE)
           then write_end_node dp1 0 else Some dp1);
    e ← GRUB_EFI_END_ENTIRE_DEVICE_PATH dp1;
    if (e : bool) then Some dp1
    else len ← GRUB_EFI_DEVICE_PATH_LENGTH dp1;
         rest ← cut_at_cdrom fuel' (drop (Z.to_nat len) dp1);
         Some (take (Z.to_nat len) dp1 ++ rest)
  end.

(** The loop run on the object [dp] points into, in firmware memory. *)
Definition cut_at_cdrom_at (dp : ptr) : M unit :=
  b ← load (Some dp);
  b' ← lift (cut_at_cdrom (walk_fuel b) b);
  modify (λ w, set_mem
    (<[p_block dp := take (p_off dp) (default [] (mem w !! p_block dp)) ++ b']>
       (mem w)) w).

(** The two [for] loops over [fd_devices] and [hd_devices] that look for a
    device with the path [dp]: the drive number of the first one. *)
Fixpoint find_whole_disk (m : memory) (devices : list grub_efidisk_data)
    (drv : Z) (dp : option ptr) : option (option Z) :=
  match devices with
  | [] => Some None
  | d :: devices' =>
    ret ← compare_at m (device_path d) dp;
    if ret =? 0 then Some (Some drv)
    else find_whole_disk m devices' (drv + 1) dp
  end.

(** The nested function [find_bdev]; the locals it writes are [found] and
    [hd], here [Some hd] once found. *)
Definition find_bdev (dp : option ptr) (c : grub_efidisk_data)
    (s : option grub_efi_hard_drive_device_path)
  : M (bool * option grub_efi_hard_drive_device_path) :=
  m ← gets mem;
  ret ← lift (compare_at m (device_path c) dp);
  if ret =? 0
  then b ← load (last_device_path c);
       hd ← lift (read_hard_drive b);
       mret (true, Some hd)
  else mret (false, s).

(** The [for] loop over [hd_devices] that looks for the disk [dp] is a child
    of: the drive number of that disk and the node of the child. *)
Fixpoint find_parent_disk (devices hds : list grub_efidisk_data) (drv : Z)
    (dp : option ptr) : M (option (Z * grub_efi_hard_drive_device_path)) :=
  match hds with
  | [] => mret None
  | d :: hds' =>
    '(_, found) ← iterate_child_devices devices d (find_bdev dp) None;
    match found with
    | Some hd => mret (Some (drv, hd))
    | None => find_parent_disk devices hds' (drv + 1) dp
    end
  end.

(** The [while] loop over the partitions of the drive. *)
Fixpoint find_partition_entry (entries : list partition_entry)
    (hd : grub_efi_hard_drive_device_path) : option Z :=
  match entries with
  | [] => None
  | e :: entries' =>
    if negb (pe_type e =? 0) && (pe_start e =? partition_start hd)
       && (pe_len e =? partition_size hd)
    then Some (pe_part e)
    else find_partition_entry entries' hd
  end.

(** The second half of [grub_get_drive_partition_from_bdev_handle], from the
    call of [make_devices] on: [dp] is taken for a partition of a hard disk,
    the disk is looked for and then the partition in the disk's table. *)
Definition find_partition_of_disk (dp : option ptr) : M (option (Z * Z)) :=
  devices ← make_devices;
  hds ← gets hd_devices;
  r ← find_parent_disk devices hds 0x80 dp;
  free_devices devices;;
  match r with
  | None => mret None
  | Some (drv, hd) =>
    match find_partition_entry (next_partition fw drv) hd with
    | Some part => mret (Some (u64 drv, part))
    | None => mret None
    end
  end.

(** [grub_get_drive_partition_from_bdev_handle handle]: [Some (drive,
    partition)] when the function returns 1, with the two values it stores,
    and [None] when it returns 0.  The counter [drv] is an [int]; it stays
    far below the range of an [int] on every list that fits in memory, and
    it is stored into an [unsigned long]. *)
Definition grub_get_drive_partition_from_bdev_handle (handle : N)
  : M (option (Z * Z)) :=
  let dp := grub_efi_get_device_path fw handle in
  match dp with
  | None => mret None
  | Some dp1 =>
    cut_at_cdrom_at dp1;;
    m ← gets mem;
    fd ← gets fd_devices;
    r ← lift (find_whole_disk m fd 0 dp);
    match r with
    | Some drv => mret (Some (u64 drv, 0xFFFFFF))
    | None =>
      cd ← gets cd_devices;
      ret ← match cd with
            | [] => mret 1
            | d :: _ => lift (compare_at m (device_path d) dp)
            end;
      if negb (bool_decide (cd = [])) && (ret =? 0)
      then mret (Some (u64 (cdrom_drive sh), 0xFFFFFF))
      else
        hds ← gets hd_devices;
        r ← lift (find_whole_disk m hds 0x80 dp);
        match r with
        | Some drv => mret (Some (u64 drv, 0xFFFFFF))
        | None => find_partition_of_disk dp
        end
    end
  end.

(** ** From the current drive and partition to a firmware handle *)

(** The nested function [find_partition]; the local it writes is [handle],
    here [Some handle] once written.  [part_start] and [part_length] are the
    globals of that name. *)
Definition find_partition (part_start part_length : Z) (c : grub_efidisk_data)
    (s : option N) : M (bool * option N) :=
  b ← load (last_device_path c);
  hd ← lift (read_hard_drive b);
  type ← lift (GRUB_EFI_DEVICE_PATH_TYPE b);
  if negb (type =? GRUB_EFI_MEDIA_DEVICE_PATH_TYPE) then mret (false, s) else
  subtype ← lift (GRUB_EFI_DEVICE_PATH_SUBTYPE b);
  if (subtype =? GRUB_EFI_HARD_DRIVE_DEVICE_PATH_SUBTYPE)
     && (part_start =? partition_start hd)
     && (part_length =? partition_size hd)
  then mret (true, Some (handle c))
  else mret (false, s).

(** [grub_efidisk_get_current_bdev_handle], with the globals it reads
    ([current_drive], [current_partition], [part_start], [part_length]) as
    arguments; [None] is the null handle. *)
Definition grub_efidisk_get_current_bdev_handle
    (current_drive current_partition part_start part_length : Z)
  : M (option N) :=
  d ← get_device_from_drive current_drive;
  match d with
  | None => mret None
  | Some d =>
    if current_drive =? GRUB_INVALID_DRIVE sh then mret None
    else if current_drive =? cdrom_drive sh then mret (Some (handle d))
    else if Z.land current_drive 0x80 =? 0 then mret (Some (handle d))
    else if current_partition =? 0xFFFFFF then mret (Some (handle d))
    else
      devices ← make_devices;
      '(_, handle) ← iterate_child_devices devices d
                       (find_partition part_start part_length) None;
      free_devices devices;;
      mret handle
  end.

End Efidisk.

(** * The vocabulary of the specification *)

(** ** The node structure of a buffer

    The specification side of the path functions: a buffer that holds a
    well-formed device path splits into its nodes, every node at least a
    header long and as long as its length field says, the last one (and only
    the last one) an end-entire node.  Bytes after the end node are not part
    of the path. *)

Definition node_type (n : buffer) : Z := default 0 (GRUB_EFI_DEVICE_PATH_TYPE n).
Definition node_subtype (n : buffer) : Z := default 0 (GRUB_EFI_DEVICE_PATH_SUBTYPE n).
Definition node_length (n : buffer) : Z := default 0 (GRUB_EFI_DEVICE_PATH_LENGTH n).
Definition node_is_end (n : buffer) : bool :=
  default false (GRUB_EFI_END_ENTIRE_DEVICE_PATH n).

(** A node: the bytes of one record, header included. *)
Definition is_node (n : buffer) : Prop :=
  (sizeof_device_path ≤ length n)%nat ∧
  GRUB_EFI_DEVICE_PATH_LENGTH n = Some (Z.of_nat (length n)).

Definition inner_node (n : buffer) : Prop := is_node n ∧ node_is_end n = false.
Definition end_node (n : buffer) : Prop := is_node n ∧ node_is_end n = true.

(** [ns] are the nodes before the end node [t]. *)
Definition wf_nodes (ns : list buffer) (t : buffer) : Prop :=
  Forall inner_node ns ∧ end_node t.

(** The bytes of a path, from its first node through its end node. *)
Definition path_bytes (ns : list buffer) (t : buffer) : buffer := concat ns ++ t.

(** Splitting a buffer into nodes, one node per unit of fuel. *)
Fixpoint split_nodes (fuel : nat) (dp : buffer) : option (list buffer * buffer) :=
  match fuel with
  | O => None
  | S fuel' =>
    len ← GRUB_EFI_DEVICE_PATH_LENGTH dp;
    if decide (Z.of_nat sizeof_device_path ≤ len ≤ Z.of_nat (length dp)) then
      e ← GRUB_EFI_END_ENTIRE_DEVICE_PATH dp;
      if (e : bool) then Some ([], take (Z.to_nat len) dp)
      else '(ns, t) ← split_nodes fuel' (drop (Z.to_nat len) dp);
           Some (take (Z.to_nat len) dp :: ns, t)
    else None
  end.

(** [path_nodes dp = Some (ns, t)]: [dp] holds a well-formed path with the
    nodes [ns] and the end node [t]. *)
Definition path_nodes (dp : buffer) : option (list buffer * buffer) :=
  split_nodes (walk_fuel dp) dp.

(** The end node as [write_end_node] writes it. *)
Definition END_ENTIRE_NODE : buffer := [x7f; xff; x04; x00].

(** The order on byte strings of equal length that [grub_memcmp] decides. *)
Fixpoint bytes_cmp (s1 s2 : buffer) : Z :=
  match s1, s2 with
  | a :: s1', b :: s2' =>
    if u8 a <? u8 b then -1 else if u8 b <? u8 a then 1 else bytes_cmp s1' s2'
  | _, _ => 0
  end.

(** What one turn of the comparison loop decides about a pair of nodes. *)
Definition node_cmp (n m : buffer) : Z :=
  if negb (node_type n =? node_type m) then node_type m - node_type n
  else if negb (node_subtype n =? node_subtype m) then node_subtype n - node_subtype m
  else if negb (node_length n =? node_length m) then node_length n - node_length m
  else bytes_cmp n m.

(** The comparison of two node sequences, end nodes included. *)
Fixpoint nodes_cmp (l1 l2 : list buffer) : Z :=
  match l1, l2 with
  | n :: l1', m :: l2' =>
    if negb (node_cmp n m =? 0) then node_cmp n m
    else if node_is_end n then 0 else nodes_cmp l1' l2'
  | _, _ => 0
  end.

(** ** Devices in memory *)

(** The nodes of the path of a device, when the path is well formed. *)
Definition dev_nodes (m : memory) (d : grub_efidisk_data)
  : option (list buffer * buffer) :=
  p ← device_path d; path_nodes (deref m p).

(** A device with a well-formed path that has a last node, as every device
    that [make_devices] builds has. *)
Definition wf_device (m : memory) (d : grub_efidisk_data) : Prop :=
  ∃ ns t, dev_nodes m d = Some (ns, t) ∧ ns ≠ [].

(** [a] comes before [b] in the order of [add_device]. *)
Definition list_lt (m : memory) (a b : grub_efidisk_data) : Prop :=
  ∃ ret, add_device_order m a b = Some ret ∧ ret < 0.

(** [a] and [b] have equal device paths. *)
Definition same_path (m : memory) (a b : grub_efidisk_data) : Prop :=
  compare_at m (device_path a) (device_path b) = Some 0.

(** The lists that insertions build from the empty list, whatever the
    allocator does, in a memory [m] that stays as it is. *)
Inductive inserted (m : memory) : list grub_efidisk_data → Prop :=
| inserted_nil : inserted m []
| inserted_add l d w l' w' :
    inserted m l → wf_device m d → mem w = m →
    add_device l d w = Some (l', w') → inserted m l'.

(** What the comparison of [add_device] computes, on the nodes of two paths
    with the last nodes [la] and [lb]. *)
Definition order_cmp (nsa : list buffer) (la ta : buffer)
    (nsb : list buffer) (lb tb : buffer) : Z :=
  let ret := nodes_cmp [la; ta] [lb; tb] in
  if ret =? 0 then nodes_cmp ((nsa ++ [la]) ++ [ta]) ((nsb ++ [lb]) ++ [tb])
  else ret.

(** [d] has the path with the nodes [ns], the last node [leaf] and the end
    node [t]. *)
Definition has_key (m : memory) (d : grub_efidisk_data) (ns : list buffer)
    (leaf t : buffer) : Prop :=
  ∃ p r, device_path d = Some p ∧
         deref m p = path_bytes (ns ++ [leaf]) t ++ r ∧
         wf_nodes (ns ++ [leaf]) t.

(** A device as [make_devices] builds it: the path is well formed and
    [last_device_path] points to its last node. *)
Definition enumerated (m : memory) (d : grub_efidisk_data) : Prop :=
  ∃ p ns leaf t r,
    device_path d = Some p ∧
    last_device_path d = Some (ptr_add p (length (concat ns))) ∧
    deref m p = path_bytes (ns ++ [leaf]) t ++ r ∧
    wf_nodes (ns ++ [leaf]) t.

(** The firmware hands out well-formed device paths only. *)
Definition wf_firmware (fw : firmware) (m : memory) : Prop :=
  ∀ h p, grub_efi_get_device_path fw h = Some p →
         ∃ ns t, path_nodes (deref m p) = Some (ns, t).

(** The three lists are built by insertions. *)
Definition lists_inserted (m : memory) (w : world) : Prop :=
  inserted m (fd_devices w) ∧ inserted m (hd_devices w) ∧
  inserted m (cd_devices w).

(** A CD-ROM media node. *)
Definition cdrom_node (n : buffer) : Prop :=
  node_type n = GRUB_EFI_MEDIA_DEVICE_PATH_TYPE ∧
  node_subtype n = GRUB_EFI_CDROM_DEVICE_PATH_SUBTYPE.

(** The entry [e] of a list has the path that [dp] points to. *)
Definition has_path (m : memory) (dp : ptr) (e : grub_efidisk_data) : Prop :=
  compare_at m (device_path e) (Some dp) = Some 0.

#[global] Instance has_path_dec m dp e : Decision (has_path m dp e).
Proof. unfold has_path. apply _. Defined.

(** ** Enumerated devices, categories and children *)

#[global] Instance byte_eq_decision : EqDecision byte := Byte.byte_eq_dec.

(** The record that the loop of [make_devices] builds for the handle [h]
    of a firmware with well-formed device paths: none for a handle without
    a device path, with a path that is the end node alone, or without one of
    the two protocols. *)
Definition device_of_handle (fw : firmware) (m : memory) (h : N)
  : option grub_efidisk_data :=
  dp ← grub_efi_get_device_path fw h;
  ldp ← find_last_at m (Some dp);
  q ← ldp;
  bio ← open_block_io fw h;
  dio ← open_disk_io fw h;
  Some {| handle := h; device_path := Some dp; last_device_path := Some q;
          block_io := bio; disk_io := dio |}.

(** The records for the handles of an array, in the order of the array. *)
Definition devices_of_handles (fw : firmware) (m : memory) (handles : list N)
  : list grub_efidisk_data :=
  omap (device_of_handle fw m) handles.

(** The three static lists. *)
Inductive category := floppy | hard_disk | optical.

#[global] Instance category_eq_decision : EqDecision category.
Proof. solve_decision. Defined.

(** The list of a category in a state, and the state with that list
    replaced. *)
Definition category_list (c : category) (w : world) : list grub_efidisk_data :=
  match c with
  | floppy => fd_devices w
  | hard_disk => hd_devices w
  | optical => cd_devices w
  end.

Definition set_category_list (c : category) (l : list grub_efidisk_data)
    (w : world) : world :=
  match c with
  | floppy => set_fd_devices l w
  | hard_disk => set_hd_devices l w
  | optical => set_cd_devices l w
  end.

(** The list that [name_devices] sends a device to, by the type of its last
    node and its media. *)
Definition category_of (m : memory) (d : grub_efidisk_data) : option category :=
  q ← last_device_path d;
  type ← GRUB_EFI_DEVICE_PATH_TYPE (deref m q);
  if type =? GRUB_EFI_MESSAGING_DEVICE_PATH_TYPE
  then Some (if read_only (media (block_io d))
                && (block_size (media (block_io d)) >? SECTOR_SIZE)
             then optical else hard_disk)
  else if type =? GRUB_EFI_ACPI_DEVICE_PATH_TYPE then Some floppy
  else None.

(** [p] is a child of [d]: the nodes of its path are those of [d] and one
    more, and the path of [d] ends in the end node that the child test
    writes. *)
Definition child_of (m : memory) (d p : grub_efidisk_data) : bool :=
  match dev_nodes m p, dev_nodes m d with
  | Some (nsc, _), Some (nsp, tp) =>
    bool_decide (nsc ≠ [] ∧ removelast nsc = nsp ∧ tp = END_ENTIRE_NODE)
  | _, _ => false
  end.

(** The path of [e] lies in another object than the one [dp] points into
    and has the nodes [ns] and the end node [t]. *)
Definition path_elsewhere (m : memory) (dp : ptr) (e : grub_efidisk_data)
    (ns : list buffer) (t : buffer) : Prop :=
  ∃ pe, device_path e = Some pe ∧ p_block pe ≠ p_block dp ∧
        path_nodes (deref m pe) = Some (ns, t).

(** The partition that a hard-drive media node describes. *)
Definition hard_drive_of (leaf : buffer) : grub_efi_hard_drive_device_path :=
  {| partition_start := le_bytes (take 8 (drop 8 leaf));
     partition_size := le_bytes (take 8 (drop 16 leaf)) |}.

(** A hard-drive media node that describes the partition of [len] sectors
    at [start]. *)
Definition partition_node (start len : Z) (leaf : buffer) : bool :=
  (node_type leaf =? GRUB_EFI_MEDIA_DEVICE_PATH_TYPE)
  && (node_subtype leaf =? GRUB_EFI_HARD_DRIVE_DEVICE_PATH_SUBTYPE)
  && (start =? partition_start (hard_drive_of leaf))
  && (len =? partition_size (hard_drive_of leaf)).

(** The last node of the path of a device. *)
Definition device_leaf (m : memory) (d : grub_efidisk_data) : option buffer :=
  '(ns, _) ← dev_nodes m d; last ns.

(** The last node of the path of [c] describes the partition of [len]
    sectors at [start]. *)
Definition is_partition (m : memory) (start len : Z) (c : grub_efidisk_data)
  : bool :=
  match device_leaf m c with
  | Some leaf => partition_node start len leaf
  | None => false
  end.

(** The drive number of entry [i] of the list of a category. *)
Definition drive_number (sh : shared_h) (c : category) (i : nat) : Z :=
  match c with
  | floppy => Z.of_nat i
  | hard_disk => 0x80 + Z.of_nat i
  | optical => cdrom_drive sh
  end.

(** The CHS capacity of a geometry, in sectors. *)
Definition chs_capacity (g : geometry) : Z := cylinders g * heads g * sectors g.

(** * Sample machines *)

Module Examples.

(** The nodes of some device paths, in bytes. *)
Definition PciRoot : buffer :=
  [x02; x01; x0c; x00; xd0; x41; x03; x0a; x00; x00; x00; x00].
Definition Pci (dev fn : byte) : buffer := [x01; x01; x06; x00; fn; dev].
Definition Sata (port : byte) : buffer :=
  [x03; x12; x0a; x00; port; x00; xff; xff; x00; x00].
Definition Floppy : buffer :=
  [x02; x01; x0c; x00; xd0; x41; x04; x06; x00; x00; x00; x00].
(** Partition 1 of a disk with an MBR: 2048 sectors in, 204800 sectors long. *)
Definition HD1 : buffer :=
  [x04; x01; x2a; x00; x01; x00; x00; x00;
   x00; x08; x00; x00; x00; x00; x00; x00;
   x00; x20; x03; x00; x00; x00; x00; x00;
   x78; x56; x34; x12; x00; x00; x00; x00;
   x00; x00; x00; x00; x00; x00; x00; x00; x01; x01].
Definition EndEntire : buffer := END_ENTIRE_NODE.
(** The end node in the older encoding of the end type, 0xff. *)
Definition EndEntire_ff : buffer := [xff; xff; x04; x00].
(** An end node of 8 bytes, 4 of them after the header. *)
Definition EndEntire_8 : buffer := [x7f; xff; x08; x00; x00; x00; x00; x00].

Definition disk_a : buffer := PciRoot ++ Pci x1f x02 ++ Sata x01 ++ EndEntire.
Definition disk_b : buffer := PciRoot ++ Pci x1f x05 ++ Sata x00 ++ EndEntire.
Definition part_a1 : buffer := PciRoot ++ Pci x1f x02 ++ Sata x01 ++ HD1 ++ EndEntire.
Definition disk_c : buffer := PciRoot ++ Pci x1f x02 ++ Sata x00 ++ EndEntire_ff.
Definition part_c1 : buffer := PciRoot ++ Pci x1f x02 ++ Sata x00 ++ HD1 ++ EndEntire_ff.
Definition disk_d : buffer := PciRoot ++ Pci x1f x02 ++ Sata x00 ++ EndEntire_8.
Definition part_d1 : buffer :=
  PciRoot ++ Pci x1f x02 ++ Sata x00 ++ HD1 ++ EndEntire_8.
Definition floppy_a : buffer := PciRoot ++ Pci x1f x00 ++ Floppy ++ EndEntire.

Definition hard_disk_media : grub_efi_block_io :=
  {| media := {| media_id := 7; read_only := false; block_size := 512;
                 last_block := 999999 |} |}.
Definition optical_media : grub_efi_block_io :=
  {| media := {| media_id := 3; read_only := true; block_size := 2048;
                 last_block := 332799 |} |}.

Definition sh0 : shared_h :=
  {| GRUB_INVALID_DRIVE := 0xff; NETWORK_DRIVE := Some 0x20;
     cdrom_drive := 0x100; BIOSDISK_READ := 0; BIOSDISK_WRITE := 1;
     BIOSDISK_FLAG_LBA_EXTENSION := 1 |}.

(** Firmware memory: the path of handle [h] is block [h]. *)
Definition mem0 : memory :=
  <[1%N := disk_a]> (<[2%N := disk_b]> (<[3%N := part_a1]>
  (<[4%N := disk_c]> (<[5%N := part_c1]> (<[6%N := floppy_a]>
  (<[7%N := disk_d]> (<[8%N := part_d1]> ∅))))))).

Definition world0 (m : memory) (h : list bool) : world :=
  {| mem := m; heap := h; fd_devices := []; hd_devices := [];
     cd_devices := []; io_log := [] |}.

(** A machine whose disk-I/O handles are [hs], each with the media [bio] and
    a disk-I/O service that answers every transfer with [status]. *)
Definition machine (hs : list N) (bio : grub_efi_block_io) (status : Z)
  : firmware :=
  {| grub_efi_locate_handle := Some hs;
     grub_efi_get_device_path := λ h, Some (Ptr h 0);
     open_block_io := λ _, Some bio;
     open_disk_io := λ h, Some h;
     Call_Service_5 := λ _, status;
     next_partition := λ _, [] |}.

(** The same machine with a partition table on drive 0x80: an empty slot,
    then partition 1 as [HD1] describes it.  The partition number is in the
    bits 16 to 23 of the value the walker reports. *)
Definition machine_with_table (hs : list N) (bio : grub_efi_block_io)
  : firmware :=
  {| grub_efi_locate_handle := Some hs;
     grub_efi_get_device_path := λ h, Some (Ptr h 0);
     open_block_io := λ _, Some bio;
     open_disk_io := λ h, Some h;
     Call_Service_5 := λ _, 0;
     next_partition := λ drv,
       if drv =? 0x80
       then [{| pe_part := 0x00FFFF; pe_type := 0; pe_start := 0; pe_len := 0 |};
             {| pe_part := 0x01FFFF; pe_type := 0x83; pe_start := 2048;
                pe_len := 204800 |}]
       else [] |}.

Definition device (h : N) (leaf : nat) (bio : grub_efi_block_io)
  : grub_efidisk_data :=
  {| handle := h; device_path := Some (Ptr h 0);
     last_device_path := Some (Ptr h leaf); block_io := bio; disk_io := h |}.

Definition dev_a : grub_efidisk_data := device 1 18 hard_disk_media.
Definition dev_b : grub_efidisk_data := device 2 18 hard_disk_media.

(** [EFI_DEVICE_ERROR]. *)
Definition EFI_DEVICE_ERROR : Z := 0x8000000000000007.

(** The boot image of an optical disc: a CD-ROM media node, boot entry 1,
    27 blocks in and 2880 blocks long. *)
Definition CDROM : buffer :=
  [x04; x02; x18; x00; x01; x00; x00; x00;
   x1b; x00; x00; x00; x00; x00; x00; x00;
   x40; x0b; x00; x00; x00; x00; x00; x00].

Definition cd_boot : buffer :=
  PciRoot ++ Pci x1f x02 ++ Sata x01 ++ CDROM ++ EndEntire.

(** The memory [mem0] with the path of the boot image in block 9. *)
Definition mem1 : memory := <[9%N := cd_boot]> mem0.

(** A machine whose firmware has a device path for the handles [known] and
    for no other, finds the handles [hs] for the disk-I/O protocol, and reads
    the partition table [table]. *)
Definition machine_of (known hs : list N) (bio : grub_efi_block_io)
    (table : Z → list partition_entry) : firmware :=
  {| grub_efi_locate_handle := Some hs;
     grub_efi_get_device_path :=
       λ h, if decide (h ∈ known) then Some (Ptr h 0) else None;
     open_block_io := λ _, Some bio;
     open_disk_io := λ h, Some h;
     Call_Service_5 := λ _, 0;
     next_partition := table |}.

(** The partition table of [machine_with_table]. *)
Definition table_a (drv : Z) : list partition_entry :=
  if drv =? 0x80
  then [{| pe_part := 0x00FFFF; pe_type := 0; pe_start := 0; pe_len := 0 |};
        {| pe_part := 0x01FFFF; pe_type := 0x83; pe_start := 2048;
           pe_len := 204800 |}]
  else [].

End Examples.

(** * Properties of the path functions *)

Section Monad.

Lemma bind_eq {A B} (c : M A) (f : A → M B) w :
  (c ≫= f) w = match c w with Some (a, w') => f a w' | None => None end.
Proof. reflexivity. Qed.

End Monad.

Section Bytes.

Lemma u8_range b : 0 ≤ u8 b < 256.
Proof.
  unfold u8. pose proof (Byte.to_N_bounded b). lia.
Qed.

Lemma u8_inj a b : u8 a = u8 b → a = b.
Proof.
  unfold u8. intros H. apply N2Z.inj in H.
  pose proof (Byte.of_to_N a) as Ha. rewrite H, Byte.of_to_N in Ha.
  congruence.
Qed.

Lemma bytes_cmp_refl s : bytes_cmp s s = 0.
Proof.
  induction s as [|a s IH]; simpl; [done|].
  rewrite Z.ltb_irrefl. done.
Qed.

Lemma bytes_cmp_eq s1 s2 :
  length s1 = length s2 → bytes_cmp s1 s2 = 0 → s1 = s2.
Proof.
  revert s2. induction s1 as [|a s1 IH]; intros [|b s2]; simpl; try done.
  intros Hl.
  destruct (u8 a <? u8 b) eqn:E1; [done|].
  destruct (u8 b <? u8 a) eqn:E2; [done|].
  intros H. f_equal; [apply u8_inj; lia | apply IH; [lia|done]].
Qed.

Lemma bytes_cmp_antisym s1 s2 : bytes_cmp s2 s1 = - bytes_cmp s1 s2.
Proof.
  revert s2. induction s1 as [|a s1 IH]; intros [|b s2]; simpl; try done.
  destruct (u8 a <? u8 b) eqn:E1; destruct (u8 b <? u8 a) eqn:E2; try done; lia.
Qed.

Lemma bytes_cmp_trans s1 s2 s3 :
  length s1 = length s2 → length s2 = length s3 →
  bytes_cmp s1 s2 < 0 → bytes_cmp s2 s3 < 0 → bytes_cmp s1 s3 < 0.
Proof.
  revert s2 s3.
  induction s1 as [|a s1 IH]; intros [|b s2] [|c s3]; simpl; try done; try lia.
  intros Hl1 Hl2.
  destruct (u8 a <? u8 b) eqn:E1; destruct (u8 b <? u8 a) eqn:E2;
  destruct (u8 b <? u8 c) eqn:E3; destruct (u8 c <? u8 b) eqn:E4;
  destruct (u8 a <? u8 c) eqn:E5; destruct (u8 c <? u8 a) eqn:E6;
    try lia.
  apply IH; lia.
Qed.

Lemma grub_memcmp_nodes n m r1 r2 :
  length n = length m →
  grub_memcmp (n ++ r1) (m ++ r2) (length n) = Some (bytes_cmp n m).
Proof.
  revert m. induction n as [|a n IH]; intros [|b m]; simpl; try done.
  intros Hl.
  destruct (u8 a <? u8 b); [done|]. destruct (u8 b <? u8 a); [done|].
  apply IH. lia.
Qed.

End Bytes.

Section Headers.

Lemma header_reads n :
  (sizeof_device_path ≤ length n)%nat →
  GRUB_EFI_DEVICE_PATH_TYPE n = Some (node_type n) ∧
  GRUB_EFI_DEVICE_PATH_SUBTYPE n = Some (node_subtype n) ∧
  GRUB_EFI_DEVICE_PATH_LENGTH n = Some (node_length n) ∧
  GRUB_EFI_END_ENTIRE_DEVICE_PATH n = Some (node_is_end n).
Proof.
  unfold sizeof_device_path.
  destruct n as [|a [|b [|c [|d n]]]]; simpl; try lia. intros _.
  unfold node_type, node_subtype, node_length, node_is_end.
  unfold GRUB_EFI_END_ENTIRE_DEVICE_PATH, GRUB_EFI_DEVICE_PATH_TYPE,
    GRUB_EFI_DEVICE_PATH_SUBTYPE, GRUB_EFI_DEVICE_PATH_LENGTH, load8. simpl.
  repeat split; try done.
  destruct (Z.land (u8 a) 127 =? GRUB_EFI_END_DEVICE_PATH_TYPE); done.
Qed.

Lemma header_app n r :
  (sizeof_device_path ≤ length n)%nat →
  GRUB_EFI_DEVICE_PATH_TYPE (n ++ r) = Some (node_type n) ∧
  GRUB_EFI_DEVICE_PATH_SUBTYPE (n ++ r) = Some (node_subtype n) ∧
  GRUB_EFI_DEVICE_PATH_LENGTH (n ++ r) = Some (node_length n) ∧
  GRUB_EFI_END_ENTIRE_DEVICE_PATH (n ++ r) = Some (node_is_end n).
Proof.
  unfold sizeof_device_path.
  destruct n as [|a [|b [|c [|d n]]]]; simpl; try lia. intros _.
  unfold node_type, node_subtype, node_length, node_is_end.
  unfold GRUB_EFI_END_ENTIRE_DEVICE_PATH, GRUB_EFI_DEVICE_PATH_TYPE,
    GRUB_EFI_DEVICE_PATH_SUBTYPE, GRUB_EFI_DEVICE_PATH_LENGTH, load8. simpl.
  repeat split; try done.
  destruct (Z.land (u8 a) 127 =? GRUB_EFI_END_DEVICE_PATH_TYPE); done.
Qed.

Lemma is_node_length n : is_node n → node_length n = Z.of_nat (length n).
Proof. intros [_ H]. unfold node_length. by rewrite H. Qed.

Lemma is_node_size n : is_node n → (sizeof_device_path ≤ length n)%nat.
Proof. by intros [H _]. Qed.

End Headers.

Section Layout.

Lemma take_node dp len :
  GRUB_EFI_DEVICE_PATH_LENGTH dp = Some len →
  Z.of_nat sizeof_device_path ≤ len ≤ Z.of_nat (length dp) →
  is_node (take (Z.to_nat len) dp) ∧
  GRUB_EFI_END_ENTIRE_DEVICE_PATH dp
    = Some (node_is_end (take (Z.to_nat len) dp)).
Proof.
  intros Hlen Hr.
  set (n := take (Z.to_nat len) dp).
  assert (Hl : length n = Z.to_nat len) by (subst n; rewrite length_take; lia).
  assert (Hs : (sizeof_device_path ≤ length n)%nat) by lia.
  assert (Hdp : dp = n ++ drop (Z.to_nat len) dp) by (subst n; by rewrite take_drop).
  destruct (header_app n (drop (Z.to_nat len) dp) Hs) as (_ & _ & HL & HE).
  destruct (header_reads n Hs) as (_ & _ & HL' & _).
  rewrite <- Hdp in HL, HE. split; [|done].
  split; [done|]. rewrite HL'. rewrite Hlen in HL.
  f_equal. injection HL as <-. lia.
Qed.

Lemma split_nodes_sound fuel dp ns t :
  split_nodes fuel dp = Some (ns, t) →
  wf_nodes ns t ∧ ∃ r, dp = path_bytes ns t ++ r.
Proof.
  revert dp ns. induction fuel as [|fuel IH]; intros dp ns; simpl; [done|].
  destruct (GRUB_EFI_DEVICE_PATH_LENGTH dp) as [len|] eqn:Hlen; simpl; [|done].
  case_decide as Hr; [|done].
  destruct (take_node dp len Hlen Hr) as [Hn He]. rewrite He. simpl.
  destruct (node_is_end (take (Z.to_nat len) dp)) eqn:Hend.
  - intros [= <- <-]. split; [split; [constructor | done]|].
    exists (drop (Z.to_nat len) dp). unfold path_bytes. simpl.
    by rewrite take_drop.
  - destruct (split_nodes fuel (drop (Z.to_nat len) dp)) as [[ns' t']|] eqn:Hrec;
      simpl; [|done].
    intros [= <- <-]. apply IH in Hrec as [[Hns Ht] [r Hr']].
    split; [split; [constructor; [done|done] | done]|].
    exists r. unfold path_bytes in *. simpl.
    rewrite <- !app_assoc. rewrite <- app_assoc in Hr'. rewrite <- Hr'.
    by rewrite take_drop.
Qed.

Lemma path_nodes_sound dp ns t :
  path_nodes dp = Some (ns, t) →
  wf_nodes ns t ∧ ∃ r, dp = path_bytes ns t ++ r.
Proof. apply split_nodes_sound. Qed.

Lemma node_app_reads n r :
  is_node n →
  GRUB_EFI_DEVICE_PATH_TYPE (n ++ r) = Some (node_type n) ∧
  GRUB_EFI_DEVICE_PATH_SUBTYPE (n ++ r) = Some (node_subtype n) ∧
  GRUB_EFI_DEVICE_PATH_LENGTH (n ++ r) = Some (Z.of_nat (length n)) ∧
  GRUB_EFI_END_ENTIRE_DEVICE_PATH (n ++ r) = Some (node_is_end n) ∧
  drop (Z.to_nat (Z.of_nat (length n))) (n ++ r) = r.
Proof.
  intros Hn. destruct (header_app n r (is_node_size n Hn)) as (? & ? & ? & ?).
  rewrite <- (is_node_length n Hn). repeat split; try done.
  rewrite (is_node_length n Hn), Nat2Z.id. by rewrite drop_app_length.
Qed.

Lemma split_nodes_complete ns t r fuel :
  wf_nodes ns t → (length ns < fuel)%nat →
  split_nodes fuel (path_bytes ns t ++ r) = Some (ns, t).
Proof.
  intros [Hns Ht]. revert fuel.
  induction Hns as [|n ns [Hn Hne] Hns IH]; intros fuel Hf;
    (destruct fuel as [|fuel]; [simpl in Hf; lia|]); unfold path_bytes; simpl.
  - destruct Ht as [Ht Hte].
    destruct (node_app_reads t r Ht) as (_ & _ & HL & HE & HD).
    rewrite HL. simpl.
    pose proof (is_node_size t Ht). rewrite length_app.
    case_decide; [|lia]. rewrite HE, Hte. simpl.
    rewrite Nat2Z.id. by rewrite take_app_length.
  - rewrite <- !app_assoc.
    destruct (node_app_reads n (concat ns ++ t ++ r) Hn) as (_ & _ & HL & HE & HD).
    rewrite HL. simpl. pose proof (is_node_size n Hn). rewrite length_app.
    case_decide; [|lia]. rewrite HE, Hne. simpl. rewrite HD.
    unfold path_bytes in IH. rewrite <- app_assoc in IH.
    rewrite IH by (simpl in Hf; lia). simpl.
    rewrite Nat2Z.id. by rewrite take_app_length.
Qed.

Lemma length_path_bytes_nodes ns t :
  wf_nodes ns t → (length ns < length (path_bytes ns t))%nat.
Proof.
  intros [Hns [Ht _]]. unfold path_bytes. rewrite length_app.
  pose proof (is_node_size t Ht). unfold sizeof_device_path in *.
  induction Hns as [|n ns [Hn _] Hns IH]; simpl; [lia|].
  rewrite length_app. pose proof (is_node_size n Hn).
  unfold sizeof_device_path in *. lia.
Qed.

Lemma walk_fuel_enough ns t r :
  wf_nodes ns t → (length ns < walk_fuel (path_bytes ns t ++ r))%nat.
Proof.
  intros H. apply length_path_bytes_nodes in H.
  unfold walk_fuel. rewrite length_app. lia.
Qed.

Lemma path_nodes_complete ns t r :
  wf_nodes ns t → path_nodes (path_bytes ns t ++ r) = Some (ns, t).
Proof.
  intros H. apply split_nodes_complete; [done|]. by apply walk_fuel_enough.
Qed.

End Layout.

Section Walks.

Lemma total_size_loop_spec ns t r fuel acc :
  wf_nodes ns t → (length ns < fuel)%nat →
  total_size_loop fuel (path_bytes ns t ++ r) acc
    = Some (acc + Z.of_nat (length (path_bytes ns t))).
Proof.
  intros [Hns [Ht Hte]]. revert fuel acc.
  induction Hns as [|n ns [Hn Hne] Hns IH]; intros fuel acc Hf;
    (destruct fuel as [|fuel]; [simpl in Hf; lia|]); unfold path_bytes; simpl.
  - destruct (node_app_reads t r Ht) as (_ & _ & HL & HE & HD).
    rewrite HL, HE, Hte. done.
  - rewrite <- !app_assoc.
    destruct (node_app_reads n (concat ns ++ t ++ r) Hn) as (_ & _ & HL & HE & HD).
    unfold GRUB_EFI_NEXT_DEVICE_PATH. rewrite HL, HE, Hne. simpl. rewrite HD.
    unfold path_bytes in IH. rewrite <- app_assoc in IH.
    rewrite IH by (simpl in Hf; lia). f_equal. rewrite !length_app. lia.
Qed.

Lemma duplicate_device_path_spec ns t r w ok w' :
  wf_nodes ns t → grub_malloc w = Some (ok, w') →
  duplicate_device_path (path_bytes ns t ++ r) w
    = Some (if (ok : bool) then Some (path_bytes ns t) else None, w').
Proof.
  intros H Hm. unfold duplicate_device_path. rewrite bind_eq.
  rewrite total_size_loop_spec by (done || by apply walk_fuel_enough).
  cbn [lift]. rewrite bind_eq, Hm. destruct ok; [|done].
  rewrite bind_eq. unfold grub_memcpy_from.
  rewrite Z.add_0_l, Nat2Z.id, length_app.
  case_decide; [|lia]. cbn [lift]. by rewrite take_app_length.
Qed.

(** The loop of [find_last_device_path], started with [p] on a node that
    [pre] bytes precede and [next] on the node after it. *)
Lemma find_last_loop_spec pre n ns t r fuel :
  is_node n → wf_nodes ns t → (length ns < fuel)%nat →
  find_last_loop fuel (pre ++ n ++ path_bytes ns t ++ r)
                 (length pre) (length pre + length n)
    = Some (length (pre ++ concat (removelast (n :: ns)))).
Proof.
  intros Hn [Hns [Ht Hte]]. revert pre n Hn fuel.
  induction Hns as [|m ns [Hm Hme] Hns IH]; intros pre n Hn fuel Hf;
    (destruct fuel as [|fuel]; [simpl in Hf; lia|]).
  - unfold path_bytes. cbn [find_last_loop concat app removelast].
    replace (drop (length pre + length n) (pre ++ n ++ t ++ r)) with (t ++ r).
    2:{ rewrite app_assoc, drop_app_length'; [done|]. by rewrite length_app. }
    destruct (node_app_reads t r Ht) as (_ & _ & HL & HE & HD).
    rewrite HE, Hte. simpl. by rewrite app_nil_r.
  - unfold path_bytes. cbn [find_last_loop concat].
    rewrite <- !app_assoc.
    replace (drop (length pre + length n)
               (pre ++ n ++ m ++ concat ns ++ t ++ r))
      with (m ++ concat ns ++ t ++ r).
    2:{ rewrite (app_assoc pre n), drop_app_length'; [done|]. by rewrite length_app. }
    destruct (node_app_reads m (concat ns ++ t ++ r) Hm) as (_ & _ & HL & HE & HD).
    rewrite HE, Hme, HL. simpl. rewrite Nat2Z.id.
    specialize (IH (pre ++ n) m Hm fuel).
    unfold path_bytes in IH. rewrite <- !app_assoc in IH.
    rewrite (length_app pre n) in IH. simpl in IH.
    by rewrite IH by (simpl in Hf; lia).
Qed.

Lemma find_last_device_path_empty t r :
  end_node t → find_last_device_path (t ++ r) = Some None.
Proof.
  intros [Ht Hte]. unfold find_last_device_path.
  destruct (node_app_reads t r Ht) as (_ & _ & HL & HE & HD).
  by rewrite HE, Hte.
Qed.

Lemma find_last_device_path_spec ns leaf t r :
  wf_nodes (ns ++ [leaf]) t →
  find_last_device_path (path_bytes (ns ++ [leaf]) t ++ r)
    = Some (Some (length (concat ns))).
Proof.
  intros Hwf. unfold find_last_device_path.
  assert (Hfuel := walk_fuel_enough _ _ r Hwf).
  destruct Hwf as [Hns Ht].
  assert (Hrl : removelast (ns ++ [leaf]) = ns) by apply removelast_last.
  destruct (ns ++ [leaf]) as [|n ns'] eqn:E; [by destruct ns|].
  apply Forall_cons in Hns as [[Hn Hne] Hns].
  unfold path_bytes in *. cbn [concat] in *. rewrite <- !app_assoc in *.
  destruct (node_app_reads n (concat ns' ++ t ++ r) Hn) as (_ & _ & HL & HE & HD).
  rewrite HE, Hne, HL. cbn -[find_last_loop walk_fuel removelast].
  rewrite Nat2Z.id.
  pose proof (find_last_loop_spec [] n ns' t r
                (walk_fuel (n ++ concat ns' ++ t ++ r)) Hn (conj Hns Ht)) as HF.
  unfold path_bytes in HF. cbn [app length Nat.add] in HF.
  rewrite <- !app_assoc in HF.
  rewrite HF by (cbn [length] in Hfuel; lia).
  cbn -[removelast]. by rewrite Hrl.
Qed.

End Walks.

(** ** The fuel of the walks

    A turn of a loop that goes on moves its cursor by the length of a node.
    When that length is 0 the loop never ends; otherwise the cursor leaves
    the buffer after at most as many turns as the buffer has bytes.  So the
    fuel [walk_fuel] cuts no walk short that would end: with more fuel the
    result is the same. *)

Section Fuel.

Lemma header_read_nonempty dp t :
  GRUB_EFI_DEVICE_PATH_TYPE dp = Some t → (0 < length dp)%nat.
Proof. destruct dp; [done|]. cbn [length]. lia. Qed.

Lemma length_read_nonempty dp len :
  GRUB_EFI_DEVICE_PATH_LENGTH dp = Some len → (0 < length dp)%nat.
Proof. destruct dp; [done|]. cbn [length]. lia. Qed.

Lemma end_read_nonempty dp e :
  GRUB_EFI_END_ENTIRE_DEVICE_PATH dp = Some e → (0 < length dp)%nat.
Proof. destruct dp; [done|]. cbn [length]. lia. Qed.

Lemma total_size_loop_fuel p acc fuel :
  (walk_fuel p ≤ fuel)%nat →
  total_size_loop fuel p acc = total_size_loop (walk_fuel p) p acc.
Proof.
  unfold walk_fuel. remember (S (length p)) as n eqn:Hn.
  assert (Hlen : (length p < n)%nat) by lia. clear Hn.
  revert p acc fuel Hlen.
  induction n as [|n IH]; intros p acc fuel Hlen Hf; [lia|].
  destruct fuel as [|fuel]; [lia|]. cbn [total_size_loop].
  destruct (GRUB_EFI_DEVICE_PATH_LENGTH p) as [len|] eqn:Hl; [|done].
  cbn [mbind option_bind].
  destruct (GRUB_EFI_END_ENTIRE_DEVICE_PATH p) as [[]|] eqn:He; [done| |done].
  cbn [mbind option_bind]. unfold GRUB_EFI_NEXT_DEVICE_PATH. rewrite Hl.
  cbn [mbind option_bind].
  destruct (Z.to_nat len) as [|k] eqn:Hk.
  - rewrite drop_0.
    assert (Hloop : ∀ f a, total_size_loop f p a = None).
    { induction f as [|f IHf]; intros a; [done|]. cbn [total_size_loop].
      unfold GRUB_EFI_NEXT_DEVICE_PATH. rewrite Hl, He.
      cbn [mbind option_bind]. rewrite Hk, drop_0. apply IHf. }
    by rewrite !Hloop.
  - pose proof (length_read_nonempty p len Hl).
    assert (length (drop (S k) p) < length p)%nat by (rewrite length_drop; lia).
    apply IH; lia.
Qed.

Lemma find_last_loop_fuel dp p next fuel fuel' :
  (length dp - next < fuel)%nat → (length dp - next < fuel')%nat →
  find_last_loop fuel dp p next = find_last_loop fuel' dp p next.
Proof.
  revert p next fuel'.
  induction fuel as [|fuel IH]; intros p next fuel' Hf Hf'; [lia|].
  destruct fuel' as [|fuel']; [lia|]. cbn [find_last_loop].
  destruct (GRUB_EFI_END_ENTIRE_DEVICE_PATH (drop next dp)) as [[]|] eqn:He;
    [done| |done].
  cbn [mbind option_bind].
  destruct (GRUB_EFI_DEVICE_PATH_LENGTH (drop next dp)) as [len|] eqn:Hl; [|done].
  cbn [mbind option_bind].
  pose proof (length_read_nonempty _ _ Hl) as Hne. rewrite length_drop in Hne.
  destruct (Z.to_nat len) as [|k] eqn:Hk.
  - rewrite Nat.add_0_r.
    assert (Hloop : ∀ f q, find_last_loop f dp q next = None).
    { induction f as [|f IHf]; intros q; [done|]. cbn [find_last_loop].
      rewrite He, Hl. cbn [mbind option_bind]. rewrite Hk, Nat.add_0_r.
      apply IHf. }
    by rewrite !Hloop.
  - apply IH; lia.
Qed.

Lemma grub_memcmp_zero_length s1 s2 n :
  grub_memcmp s1 s2 n = Some 0 → (n ≤ length s1)%nat.
Proof.
  revert s1 s2. induction n as [|n IH]; intros [|a s1] [|b s2]; cbn;
    try done; try lia.
  destruct (u8 a <? u8 b); [done|]. destruct (u8 b <? u8 a); [done|].
  intros H. apply IH in H. lia.
Qed.

Lemma compare_loop_fuel dp1 dp2 fuel :
  (walk_fuel dp1 ≤ fuel)%nat →
  compare_loop fuel dp1 dp2 = compare_loop (walk_fuel dp1) dp1 dp2.
Proof.
  unfold walk_fuel. remember (S (length dp1)) as n eqn:Hn.
  assert (Hlen : (length dp1 < n)%nat) by lia. clear Hn.
  revert dp1 dp2 fuel Hlen.
  induction n as [|n IH]; intros dp1 dp2 fuel Hlen Hf; [lia|].
  destruct fuel as [|fuel]; [lia|]. cbn [compare_loop].
  destruct (GRUB_EFI_DEVICE_PATH_TYPE dp1) as [t1|] eqn:Ht1; [|done].
  destruct (GRUB_EFI_DEVICE_PATH_TYPE dp2) as [t2|] eqn:Ht2; [|done].
  cbn [mbind option_bind]. destruct (negb (t1 =? t2)) eqn:Et; [done|].
  destruct (GRUB_EFI_DEVICE_PATH_SUBTYPE dp1) as [s1|] eqn:Hs1; [|done].
  destruct (GRUB_EFI_DEVICE_PATH_SUBTYPE dp2) as [s2|] eqn:Hs2; [|done].
  cbn [mbind option_bind]. destruct (negb (s1 =? s2)) eqn:Es; [done|].
  destruct (GRUB_EFI_DEVICE_PATH_LENGTH dp1) as [l1|] eqn:Hl1; [|done].
  destruct (GRUB_EFI_DEVICE_PATH_LENGTH dp2) as [l2|] eqn:Hl2; [|done].
  cbn [mbind option_bind]. destruct (negb (l1 =? l2)) eqn:El; [done|].
  destruct (grub_memcmp dp1 dp2 (Z.to_nat l1)) as [ret|] eqn:Hc; [|done].
  cbn [mbind option_bind].
  destruct (Z.eqb_spec ret 0) as [-> | Hret]; [|done]. cbn [negb].
  destruct (GRUB_EFI_END_ENTIRE_DEVICE_PATH dp1) as [[]|] eqn:He; [done| |done].
  cbn [mbind option_bind].
  apply negb_false_iff, Z.eqb_eq in El. subst l2.
  destruct (Z.to_nat l1) as [|k] eqn:Hk.
  - rewrite !drop_0.
    assert (Hloop : ∀ f, compare_loop f dp1 dp2 = None).
    { induction f as [|f IHf]; [done|]. cbn [compare_loop].
      rewrite Ht1, Ht2. cbn [mbind option_bind]. rewrite Et, Hs1, Hs2.
      cbn [mbind option_bind]. rewrite Es, Hl1, Hl2. cbn [mbind option_bind].
      rewrite Z.eqb_refl. cbn [negb]. rewrite Hk. cbn [grub_memcmp].
      cbn [mbind option_bind Z.eqb negb]. rewrite He.
      cbn [mbind option_bind]. by rewrite !drop_0. }
    by rewrite !Hloop.
  - apply grub_memcmp_zero_length in Hc.
    assert (length (drop (S k) dp1) < length dp1)%nat by (rewrite length_drop; lia).
    apply IH; lia.
Qed.

Lemma write_end_node_is_end dp dp' :
  write_end_node dp 0 = Some dp' →
  GRUB_EFI_END_ENTIRE_DEVICE_PATH dp' = Some true.
Proof.
  unfold write_end_node, store8.
  destruct dp as [|a [|b [|c [|d dp]]]]; cbn; try done.
  by intros [= <-].
Qed.

Lemma cut_at_cdrom_fuel dp fuel :
  (walk_fuel dp ≤ fuel)%nat →
  cut_at_cdrom fuel dp = cut_at_cdrom (walk_fuel dp) dp.
Proof.
  unfold walk_fuel. remember (S (length dp)) as n eqn:Hn.
  assert (Hlen : (length dp < n)%nat) by lia. clear Hn.
  revert dp fuel Hlen.
  induction n as [|n IH]; intros dp fuel Hlen Hf; [lia|].
  destruct fuel as [|fuel]; [lia|]. cbn [cut_at_cdrom].
  destruct (GRUB_EFI_DEVICE_PATH_TYPE dp) as [t|] eqn:Ht; [|done].
  destruct (GRUB_EFI_DEVICE_PATH_SUBTYPE dp) as [st|] eqn:Hst; [|done].
  cbn [mbind option_bind].
  destruct ((t =? GRUB_EFI_MEDIA_DEVICE_PATH_TYPE)
            && (st =? GRUB_EFI_CDROM_DEVICE_PATH_SUBTYPE)) eqn:Ec.
  { destruct (write_end_node dp 0) as [dp'|] eqn:Hw; [|done].
    cbn [mbind option_bind].
    by rewrite (write_end_node_is_end dp dp' Hw). }
  cbn [mbind option_bind].
  destruct (GRUB_EFI_END_ENTIRE_DEVICE_PATH dp) as [[]|] eqn:He; [done| |done].
  cbn [mbind option_bind].
  destruct (GRUB_EFI_DEVICE_PATH_LENGTH dp) as [len|] eqn:Hl; [|done].
  cbn [mbind option_bind].
  destruct (Z.to_nat len) as [|k] eqn:Hk.
  - rewrite drop_0.
    assert (Hloop : ∀ f, cut_at_cdrom f dp = None).
    { induction f as [|f IHf]; [done|]. cbn [cut_at_cdrom].
      rewrite Ht, Hst. cbn [mbind option_bind]. rewrite Ec.
      cbn [mbind option_bind]. rewrite He. cbn [mbind option_bind].
      rewrite Hl. cbn [mbind option_bind]. rewrite Hk, drop_0.
      by rewrite IHf. }
    by rewrite !Hloop.
  - pose proof (length_read_nonempty dp len Hl).
    assert (length (drop (S k) dp) < length dp)%nat by (rewrite length_drop; lia).
    by rewrite (IH (drop (S k) dp) fuel) by lia.
Qed.

End Fuel.

Section Comparator.

Lemma compare_loop_step n m r1 r2 fuel :
  is_node n → is_node m →
  compare_loop (S fuel) (n ++ r1) (m ++ r2) =
    if negb (node_cmp n m =? 0) then Some (node_cmp n m)
    else if node_is_end n then Some 0 else compare_loop fuel r1 r2.
Proof.
  intros Hn Hm.
  destruct (node_app_reads n r1 Hn) as (HT1 & HS1 & HL1 & HE1 & HD1).
  destruct (node_app_reads m r2 Hm) as (HT2 & HS2 & HL2 & HE2 & HD2).
  cbn [compare_loop]. rewrite HT1, HT2. cbn [mbind option_bind].
  unfold node_cmp.
  destruct (Z.eqb_spec (node_type n) (node_type m)); cbn [negb].
  2:{ destruct (Z.eqb_spec (node_type m - node_type n) 0); cbn [negb]; [lia|done]. }
  rewrite HS1, HS2. cbn [mbind option_bind].
  destruct (Z.eqb_spec (node_subtype n) (node_subtype m)); cbn [negb].
  2:{ destruct (Z.eqb_spec (node_subtype n - node_subtype m) 0); cbn [negb];
        [lia|done]. }
  rewrite HL1, HL2. cbn [mbind option_bind].
  rewrite (is_node_length n Hn), (is_node_length m Hm).
  destruct (Z.eqb_spec (Z.of_nat (length n)) (Z.of_nat (length m))) as [El|El];
    cbn [negb].
  2:{ destruct (Z.eqb_spec (Z.of_nat (length n) - Z.of_nat (length m)) 0);
        cbn [negb]; [lia|done]. }
  rewrite Nat2Z.id, grub_memcmp_nodes by lia. cbn [mbind option_bind].
  destruct (negb (bytes_cmp n m =? 0)); [done|].
  rewrite HE1. cbn [mbind option_bind].
  destruct (node_is_end n); [done|].
  rewrite Nat2Z.id in HD1. by rewrite HD1, HD2.
Qed.

Lemma node_cmp_refl n : node_cmp n n = 0.
Proof.
  unfold node_cmp. rewrite !Z.eqb_refl. cbn [negb]. apply bytes_cmp_refl.
Qed.

Lemma node_cmp_eq n m : is_node n → is_node m → node_cmp n m = 0 → n = m.
Proof.
  intros Hn Hm. unfold node_cmp.
  destruct (Z.eqb_spec (node_type n) (node_type m)); cbn [negb]; [|lia].
  destruct (Z.eqb_spec (node_subtype n) (node_subtype m)); cbn [negb]; [|lia].
  rewrite (is_node_length n Hn), (is_node_length m Hm).
  destruct (Z.eqb_spec (Z.of_nat (length n)) (Z.of_nat (length m)));
    cbn [negb]; [|lia].
  apply bytes_cmp_eq. lia.
Qed.

Lemma node_cmp_antisym n m : node_cmp m n = - node_cmp n m.
Proof.
  unfold node_cmp.
  rewrite (Z.eqb_sym (node_type m)), (Z.eqb_sym (node_subtype m)),
    (Z.eqb_sym (node_length m)).
  destruct (node_type n =? node_type m); cbn [negb]; [|lia].
  destruct (node_subtype n =? node_subtype m); cbn [negb]; [|lia].
  destruct (node_length n =? node_length m); cbn [negb]; [|lia].
  apply bytes_cmp_antisym.
Qed.

Lemma node_cmp_trans n m k :
  is_node n → is_node m → is_node k →
  node_cmp n m < 0 → node_cmp m k < 0 → node_cmp n k < 0.
Proof.
  intros Hn Hm Hk. unfold node_cmp.
  destruct (Z.eqb_spec (node_type n) (node_type m)) as [T1|T1];
  destruct (Z.eqb_spec (node_type m) (node_type k)) as [T2|T2];
  destruct (Z.eqb_spec (node_type n) (node_type k)) as [T3|T3];
    cbn [negb]; try lia.
  destruct (Z.eqb_spec (node_subtype n) (node_subtype m)) as [S1|S1];
  destruct (Z.eqb_spec (node_subtype m) (node_subtype k)) as [S2|S2];
  destruct (Z.eqb_spec (node_subtype n) (node_subtype k)) as [S3|S3];
    cbn [negb]; try lia.
  destruct (Z.eqb_spec (node_length n) (node_length m)) as [L1|L1];
  destruct (Z.eqb_spec (node_length m) (node_length k)) as [L2|L2];
  destruct (Z.eqb_spec (node_length n) (node_length k)) as [L3|L3];
    cbn [negb]; try lia.
  rewrite (is_node_length n Hn), (is_node_length m Hm) in L1.
  rewrite (is_node_length m Hm), (is_node_length k Hk) in L2.
  apply bytes_cmp_trans; lia.
Qed.

(** The loop on two well-formed paths computes [nodes_cmp]. *)
Lemma compare_loop_spec ns1 t1 r1 ns2 t2 r2 fuel :
  wf_nodes ns1 t1 → wf_nodes ns2 t2 → (length ns1 < fuel)%nat →
  compare_loop fuel (path_bytes ns1 t1 ++ r1) (path_bytes ns2 t2 ++ r2)
    = Some (nodes_cmp (ns1 ++ [t1]) (ns2 ++ [t2])).
Proof.
  intros [Hns1 [Ht1 Hte1]] [Hns2 [Ht2 Hte2]]. revert ns2 Hns2 fuel.
  unfold path_bytes.
  induction Hns1 as [|n ns1 [Hn Hne] Hns1 IH]; intros ns2 Hns2 fuel Hf;
    (destruct fuel as [|fuel]; [simpl in Hf; lia|]);
    destruct Hns2 as [|m ns2 [Hm Hme] Hns2];
    cbn [concat app nodes_cmp]; rewrite <- ?app_assoc.
  - rewrite compare_loop_step by done. rewrite Hte1.
    by destruct (negb (node_cmp t1 t2 =? 0)).
  - rewrite compare_loop_step by done. rewrite Hte1.
    by destruct (negb (node_cmp t1 m =? 0)).
  - rewrite compare_loop_step by done. rewrite Hne.
    destruct (Z.eqb_spec (node_cmp n t2) 0) as [E|E]; cbn [negb]; [|done].
    apply node_cmp_eq in E; [|done..]. congruence.
  - rewrite compare_loop_step by done. rewrite Hne.
    destruct (negb (node_cmp n m =? 0)); [done|].
    specialize (IH ns2 Hns2 fuel). rewrite <- !app_assoc in IH.
    apply IH. simpl in Hf. lia.
Qed.

Lemma compare_device_paths_spec ns1 t1 r1 ns2 t2 r2 :
  wf_nodes ns1 t1 → wf_nodes ns2 t2 →
  compare_device_paths (Some (path_bytes ns1 t1 ++ r1))
                       (Some (path_bytes ns2 t2 ++ r2))
    = Some (nodes_cmp (ns1 ++ [t1]) (ns2 ++ [t2])).
Proof.
  intros H1 H2. unfold compare_device_paths.
  apply compare_loop_spec; [done..|]. by apply walk_fuel_enough.
Qed.

Lemma nodes_cmp_refl l : nodes_cmp l l = 0.
Proof.
  induction l as [|n l IH]; cbn [nodes_cmp]; [done|].
  rewrite node_cmp_refl. cbn. by destruct (node_is_end n).
Qed.

Lemma nodes_cmp_eq ns1 t1 ns2 t2 :
  wf_nodes ns1 t1 → wf_nodes ns2 t2 →
  nodes_cmp (ns1 ++ [t1]) (ns2 ++ [t2]) = 0 → ns1 = ns2 ∧ t1 = t2.
Proof.
  intros [Hns1 [Ht1 Hte1]] [Hns2 [Ht2 Hte2]]. revert ns2 Hns2.
  induction Hns1 as [|n ns1 [Hn Hne] Hns1 IH]; intros ns2 Hns2;
    destruct Hns2 as [|m ns2 [Hm Hme] Hns2]; cbn [app nodes_cmp].
  - destruct (Z.eqb_spec (node_cmp t1 t2) 0) as [E|E]; cbn [negb]; [|done].
    intros _. split; [done|]. by apply node_cmp_eq.
  - destruct (Z.eqb_spec (node_cmp t1 m) 0) as [E|E]; cbn [negb]; [|done].
    apply node_cmp_eq in E; [|done..]. congruence.
  - destruct (Z.eqb_spec (node_cmp n t2) 0) as [E|E]; cbn [negb]; [|done].
    apply node_cmp_eq in E; [|done..]. congruence.
  - destruct (Z.eqb_spec (node_cmp n m) 0) as [E|E]; cbn [negb]; [|done].
    rewrite Hne. intros H. apply IH in H as [-> ->]; [|done].
    apply node_cmp_eq in E; [|done..]. by subst.
Qed.

Lemma nodes_cmp_antisym ns1 t1 ns2 t2 :
  wf_nodes ns1 t1 → wf_nodes ns2 t2 →
  nodes_cmp (ns2 ++ [t2]) (ns1 ++ [t1]) = - nodes_cmp (ns1 ++ [t1]) (ns2 ++ [t2]).
Proof.
  intros [Hns1 [Ht1 Hte1]] [Hns2 [Ht2 Hte2]]. revert ns2 Hns2.
  induction Hns1 as [|n ns1 [Hn Hne] Hns1 IH]; intros ns2 Hns2;
    destruct Hns2 as [|m ns2 [Hm Hme] Hns2]; cbn [app nodes_cmp].
  - rewrite (node_cmp_antisym t1 t2), Hte1, Hte2.
    destruct (Z.eqb_spec (node_cmp t1 t2) 0) as [E|E];
    destruct (Z.eqb_spec (- node_cmp t1 t2) 0); cbn [negb]; lia.
  - rewrite (node_cmp_antisym t1 m), Hte1, Hme.
    destruct (Z.eqb_spec (node_cmp t1 m) 0) as [E|E];
    destruct (Z.eqb_spec (- node_cmp t1 m) 0); cbn [negb]; try lia.
    apply node_cmp_eq in E; [|done..]. congruence.
  - rewrite (node_cmp_antisym n t2), Hne, Hte2.
    destruct (Z.eqb_spec (node_cmp n t2) 0) as [E|E];
    destruct (Z.eqb_spec (- node_cmp n t2) 0); cbn [negb]; try lia.
    apply node_cmp_eq in E; [|done..]. congruence.
  - rewrite (node_cmp_antisym n m), Hne, Hme.
    destruct (Z.eqb_spec (node_cmp n m) 0) as [E|E];
    destruct (Z.eqb_spec (- node_cmp n m) 0); cbn [negb]; try lia.
    by apply IH.
Qed.

Lemma nodes_cmp_trans ns1 t1 ns2 t2 ns3 t3 :
  wf_nodes ns1 t1 → wf_nodes ns2 t2 → wf_nodes ns3 t3 →
  nodes_cmp (ns1 ++ [t1]) (ns2 ++ [t2]) < 0 →
  nodes_cmp (ns2 ++ [t2]) (ns3 ++ [t3]) < 0 →
  nodes_cmp (ns1 ++ [t1]) (ns3 ++ [t3]) < 0.
Proof.
  intros [Hns1 [Ht1 Hte1]] [Hns2 [Ht2 Hte2]] [Hns3 [Ht3 Hte3]].
  revert ns2 Hns2 ns3 Hns3.
  assert (Hstep : ∀ a b c l1 l2 l3,
    is_node a → is_node b → is_node c →
    (node_is_end a = true → node_is_end b = false → node_cmp a b ≠ 0) →
    (node_is_end a = false →
       node_cmp a b = 0 → node_cmp b c = 0 →
       nodes_cmp l1 l2 < 0 → nodes_cmp l2 l3 < 0 → nodes_cmp l1 l3 < 0) →
    nodes_cmp (a :: l1) (b :: l2) < 0 → nodes_cmp (b :: l2) (c :: l3) < 0 →
    nodes_cmp (a :: l1) (c :: l3) < 0).
  { intros a b c l1 l2 l3 Ha Hb Hc Hend Hrec. cbn [nodes_cmp].
    destruct (Z.eqb_spec (node_cmp a b) 0) as [E1|E1];
    destruct (Z.eqb_spec (node_cmp b c) 0) as [E2|E2]; cbn [negb].
    - pose proof (node_cmp_eq a b Ha Hb E1) as ->.
      pose proof (node_cmp_eq b c Hb Hc E2) as ->.
      rewrite E2. cbn [Z.eqb negb].
      destruct (node_is_end c) eqn:Ec; [lia|]. by apply Hrec.
    - pose proof (node_cmp_eq a b Ha Hb E1) as ->.
      destruct (node_is_end b); [lia|]. intros _ H.
      destruct (Z.eqb_spec (node_cmp b c) 0); cbn [negb]; [lia|done].
    - pose proof (node_cmp_eq b c Hb Hc E2) as ->.
      intros H. destruct (node_is_end c); [lia|]. intros _.
      destruct (Z.eqb_spec (node_cmp a c) 0); cbn [negb]; [lia|done].
    - intros H1 H2.
      pose proof (node_cmp_trans a b c Ha Hb Hc H1 H2).
      destruct (Z.eqb_spec (node_cmp a c) 0); cbn [negb]; [lia|done]. }
  induction Hns1 as [|n1 ns1 [Hn1 Hne1] Hns1 IH]; intros ns2 Hns2 ns3 Hns3;
    destruct Hns2 as [|n2 ns2 [Hn2 Hne2] Hns2];
    destruct Hns3 as [|n3 ns3 [Hn3 Hne3] Hns3]; cbn [app];
    apply Hstep; try done; try congruence;
    try (intros _ E; apply node_cmp_eq in E; [|done..]; congruence).
  all: try (intros _ E1 E2; apply node_cmp_eq in E1; [|done..];
            apply node_cmp_eq in E2; [|done..]; congruence).
  all: try (intros _ _ E; apply node_cmp_eq in E; [|done..]; congruence).
  intros _ _ _. by apply IH.
Qed.

End Comparator.

(** * The drive abstraction *)

Section Drives.

Variable fw : firmware.
Variable sh : shared_h.

Lemma get_device_from_drive_pure drive w :
  ∃ d, get_device_from_drive sh drive w = Some (d, w).
Proof.
  unfold get_device_from_drive.
  case_bool_decide; [by eexists|].
  destruct (drive =? GRUB_INVALID_DRIVE sh); [by eexists|].
  destruct (drive =? cdrom_drive sh); [by eexists|].
  destruct (negb (Z.land drive 128 =? 0)); by eexists.
Qed.

Lemma u64_small z : 0 ≤ z < 2 ^ 64 → u64 z = z.
Proof. intros H. unfold u64. by apply Z.mod_small. Qed.

Lemma grub_efidisk_read_spec d sector size buf w :
  grub_efidisk_read fw d sector size buf w =
  let t := {| t_service := dio_read; t_this := disk_io d;
              t_media_id := media_id (media (block_io d));
              t_offset := u64 (sector * block_size (media (block_io d)));
              t_size := u64 (size * block_size (media (block_io d)));
              t_buffer := buf |} in
  Some (if Call_Service_5 fw t =? GRUB_EFI_SUCCESS then 0 else -1,
        set_io_log (t :: io_log w) w).
Proof.
  unfold grub_efidisk_read, call_service. rewrite !bind_eq. cbn.
  by destruct (Call_Service_5 fw _ =? GRUB_EFI_SUCCESS).
Qed.

Lemma grub_efidisk_write_spec d sector size buf w :
  grub_efidisk_write fw d sector size buf w =
  let t := {| t_service := dio_write; t_this := disk_io d;
              t_media_id := media_id (media (block_io d));
              t_offset := u64 (sector * block_size (media (block_io d)));
              t_size := u64 (size * block_size (media (block_io d)));
              t_buffer := buf |} in
  Some (if Call_Service_5 fw t =? GRUB_EFI_SUCCESS then 0 else -1,
        set_io_log (t :: io_log w) w).
Proof.
  unfold grub_efidisk_write, call_service. rewrite !bind_eq. cbn.
  by destruct (Call_Service_5 fw _ =? GRUB_EFI_SUCCESS).
Qed.

(** C7: for a drive that resolves to a device, [get_diskinfo] returns 0 and
    a geometry with [total_sectors] the index of the last block plus one,
    [sector_size] the block size of the media, 63 sectors per track, one head
    when [total_sectors / 63 < 255] and 255 heads otherwise, and
    [total_sectors / 63 / heads] cylinders; a disk of 1,000,000 sectors gets
    255 heads and 62 cylinders.  The index of the last block is a 64-bit
    value below the largest one, so that the count of blocks is a 64-bit
    value too. *)
Theorem get_diskinfo_geometry drive d g w :
  get_device_from_drive sh drive w = Some (Some d, w) →
  0 ≤ last_block (media (block_io d)) < 2 ^ 64 - 1 →
  ∃ g',
    get_diskinfo sh drive g w = Some ((0, g'), w) ∧
    total_sectors g' = last_block (media (block_io d)) + 1 ∧
    sector_size g' = block_size (media (block_io d)) ∧
    sectors g' = 63 ∧
    heads g' = (if total_sectors g' / 63 <? 255 then 1 else 255) ∧
    cylinders g' = total_sectors g' / 63 / heads g' ∧
    (total_sectors g' = 1000000 → heads g' = 255 ∧ cylinders g' = 62).
Proof.
  intros Hd Hlb. unfold get_diskinfo. rewrite bind_eq, Hd.
  eexists. split; [reflexivity|]. cbn.
  rewrite u64_small by lia. do 5 (split; [done|]). by intros ->.
Qed.

(** C9: a read or a write of [count] sectors at [sector] issues one transfer
    to the disk-I/O service of the device, with the media identifier of the
    device, the byte offset [sector * block_size] and the byte length
    [count * block_size]; sector 10 of a device with 512-byte blocks is at
    offset 5120 and 4 sectors are 2048 bytes.  The two products are 64-bit
    unsigned values, as they are for every non-negative [int] that
    [biosdisk] passes and the 32-bit block size of the media. *)
Theorem transfer_byte_addressing d sector count buf w :
  let bs := block_size (media (block_io d)) in
  let t := λ s, {| t_service := s; t_this := disk_io d;
                   t_media_id := media_id (media (block_io d));
                   t_offset := sector * bs; t_size := count * bs;
                   t_buffer := buf |} in
  0 ≤ sector * bs < 2 ^ 64 → 0 ≤ count * bs < 2 ^ 64 →
  (∃ r, grub_efidisk_read fw d sector count buf w
          = Some (r, set_io_log (t dio_read :: io_log w) w)) ∧
  (∃ r, grub_efidisk_write fw d sector count buf w
          = Some (r, set_io_log (t dio_write :: io_log w) w)) ∧
  (bs = 512 → sector = 10 → count = 4 →
   t_offset (t dio_read) = 5120 ∧ t_size (t dio_read) = 2048).
Proof.
  intros bs t Hs Hc. split; [|split].
  - rewrite grub_efidisk_read_spec. cbn. fold bs.
    rewrite !u64_small by done. by eexists.
  - rewrite grub_efidisk_write_spec. cbn. fold bs.
    rewrite !u64_small by done. by eexists.
  - intros E -> ->. subst t. cbn. by rewrite E.
Qed.

End Drives.


(** * Duplication and comparison *)

Section RoundTrip.

(** C4: the duplicate of a well-formed device path compares equal to the
    path: when the allocation of the copy succeeds, [duplicate_device_path]
    returns a copy [q] and [compare_device_paths q p] is 0. *)
Theorem duplicate_compares_equal p ns t w w' :
  path_nodes p = Some (ns, t) →
  grub_malloc w = Some (true, w') →
  ∃ q, duplicate_device_path p w = Some (Some q, w') ∧
       compare_device_paths (Some q) (Some p) = Some 0.
Proof.
  intros Hp Hm. apply path_nodes_sound in Hp as [Hwf [r ->]].
  exists (path_bytes ns t). split.
  - by rewrite (duplicate_device_path_spec ns t r w true w').
  - rewrite <- (app_nil_r (path_bytes ns t)) at 1.
    rewrite compare_device_paths_spec by done.
    by rewrite nodes_cmp_refl.
Qed.

Lemma duplicate_compares_equal_witness :
  ∃ q, duplicate_device_path Examples.part_a1 (Examples.world0 ∅ [])
         = Some (Some q, Examples.world0 ∅ []) ∧
       compare_device_paths (Some q) (Some Examples.part_a1) = Some 0.
Proof.
  eapply (duplicate_compares_equal Examples.part_a1); reflexivity.
Defined.

End RoundTrip.

Section TotalOrder.

Lemma nodes_cmp_common_prefix pre l1 l2 :
  Forall (λ n, node_is_end n = false) pre →
  nodes_cmp (pre ++ l1) (pre ++ l2) = nodes_cmp l1 l2.
Proof.
  induction 1 as [|n pre Hn _ IH]; cbn [app nodes_cmp]; [done|].
  by rewrite node_cmp_refl, Hn.
Qed.

Lemma wf_nodes_prefix ns t pre n rest :
  wf_nodes ns t → ns ++ [t] = pre ++ n :: rest →
  Forall (λ n, node_is_end n = false) pre ∧ is_node n.
Proof.
  intros [Hns [Ht Hte]]. revert pre.
  induction Hns as [|m ns [Hm Hme] Hns IH]; intros pre E.
  - destruct pre as [|? [|]]; simplify_eq/=. by split.
  - destruct pre as [|m' pre]; simplify_eq/=; [by split|].
    destruct (IH pre) as [? ?]; [done|]. split; [by constructor|done].
Qed.

Lemma node_cmp_neq n m : is_node n → is_node m → n ≠ m → node_cmp n m ≠ 0.
Proof. intros Hn Hm Hne E. by apply Hne, node_cmp_eq. Qed.

(** C5: on well-formed device paths [compare_device_paths] is a strict total
    order up to the sign of its result.  It is antisymmetric (the results of
    the two orders of the arguments have opposite signs, or are both 0), it
    is 0 only for paths with the same nodes, and it is transitive.  At the
    first node where two paths differ, a difference of the types decides and
    the path with the larger type comes first; with equal types a difference
    of the subtypes decides, then one of the lengths, both ascending; with
    all three equal the bytes of the node decide. *)
Theorem compare_device_paths_total_order a b c nsa ta nsb tb nsc tc :
  path_nodes a = Some (nsa, ta) →
  path_nodes b = Some (nsb, tb) →
  path_nodes c = Some (nsc, tc) →
  ∃ ab ba bc ac,
    compare_device_paths (Some a) (Some b) = Some ab ∧
    compare_device_paths (Some b) (Some a) = Some ba ∧
    compare_device_paths (Some b) (Some c) = Some bc ∧
    compare_device_paths (Some a) (Some c) = Some ac ∧
    (ab < 0 ↔ 0 < ba) ∧ (ab = 0 ↔ ba = 0) ∧
    (ab = 0 ↔ (nsa, ta) = (nsb, tb)) ∧
    (ab < 0 → bc < 0 → ac < 0) ∧
    ∀ pre na nb ra rb,
      nsa ++ [ta] = pre ++ na :: ra →
      nsb ++ [tb] = pre ++ nb :: rb →
      na ≠ nb →
      (node_type na ≠ node_type nb → ab = node_type nb - node_type na) ∧
      (node_type na = node_type nb → node_subtype na ≠ node_subtype nb →
       ab = node_subtype na - node_subtype nb) ∧
      (node_type na = node_type nb → node_subtype na = node_subtype nb →
       length na ≠ length nb → ab = Z.of_nat (length na) - Z.of_nat (length nb)) ∧
      (node_type na = node_type nb → node_subtype na = node_subtype nb →
       length na = length nb → ab = bytes_cmp na nb).
Proof.
  intros Ha Hb Hc.
  apply path_nodes_sound in Ha as [Hwa [r1 ->]].
  apply path_nodes_sound in Hb as [Hwb [r2 ->]].
  apply path_nodes_sound in Hc as [Hwc [r3 ->]].
  eexists _, _, _, _.
  rewrite !compare_device_paths_spec by done.
  do 4 (split; [reflexivity|]).
  pose proof (nodes_cmp_antisym nsa ta nsb tb Hwa Hwb) as Hanti.
  split; [lia|]. split; [lia|]. split; [split|split].
  - intros H. by apply nodes_cmp_eq in H as [-> ->].
  - intros [= <- <-]. apply nodes_cmp_refl.
  - by apply nodes_cmp_trans.
  - intros pre na nb ra rb Ea Eb Hne.
    destruct (wf_nodes_prefix _ _ _ _ _ Hwa Ea) as [Hpre Hna].
    destruct (wf_nodes_prefix _ _ _ _ _ Hwb Eb) as [_ Hnb].
    rewrite Ea, Eb, nodes_cmp_common_prefix by done. cbn [nodes_cmp].
    pose proof (node_cmp_neq na nb Hna Hnb Hne) as Hc.
    destruct (Z.eqb_spec (node_cmp na nb) 0); [done|]. cbn [negb].
    unfold node_cmp in *.
    rewrite (is_node_length na Hna), (is_node_length nb Hnb) in *.
    destruct (Z.eqb_spec (node_type na) (node_type nb));
    destruct (Z.eqb_spec (node_subtype na) (node_subtype nb));
    destruct (Z.eqb_spec (Z.of_nat (length na)) (Z.of_nat (length nb)));
      cbn [negb] in *; repeat split; intros; try done; lia.
Qed.

Lemma compare_device_paths_total_order_witness :
  ∃ ab ba bc ac,
    compare_device_paths (Some Examples.disk_b) (Some Examples.disk_a) = Some ab ∧
    compare_device_paths (Some Examples.disk_a) (Some Examples.disk_b) = Some ba ∧
    compare_device_paths (Some Examples.disk_a) (Some Examples.part_a1) = Some bc ∧
    compare_device_paths (Some Examples.disk_b) (Some Examples.part_a1) = Some ac ∧
    (ab < 0 ↔ 0 < ba) ∧ (ab = 0 ↔ ba = 0) ∧ (ab < 0 → bc < 0 → ac < 0).
Proof.
  destruct (compare_device_paths_total_order
              Examples.disk_b Examples.disk_a Examples.part_a1
              _ _ _ _ _ _ eq_refl eq_refl eq_refl)
    as (ab & ba & bc & ac & H1 & H2 & H3 & H4 & H5 & H6 & _ & H8 & _).
  by exists ab, ba, bc, ac.
Defined.

End TotalOrder.

(** * Children of a device *)

Section Children.

Lemma grub_malloc_frame w ok w' :
  grub_malloc w = Some (ok, w') →
  mem w' = mem w ∧ fd_devices w' = fd_devices w ∧ hd_devices w' = hd_devices w ∧
  cd_devices w' = cd_devices w ∧ io_log w' = io_log w.
Proof.
  unfold grub_malloc. destruct (heap w); intros [= <- <-]; done.
Qed.

Lemma write_end_node_spec pre n rest :
  (sizeof_device_path ≤ length n)%nat →
  write_end_node (pre ++ n ++ rest) (length pre)
    = Some (pre ++ END_ENTIRE_NODE ++ drop sizeof_device_path n ++ rest).
Proof.
  unfold sizeof_device_path.
  destruct n as [|a [|b [|c [|d n]]]]; simpl; try lia. intros _.
  unfold write_end_node, store8.
  repeat (rewrite ?length_insert, ?length_app; cbn [length];
          case_decide; [|lia]; cbn [mbind option_bind]).
  rewrite <- (Nat.add_0_r (length pre)) at 4.
  rewrite !insert_app_r. done.
Qed.

Lemma end_entire_node_end : end_node END_ENTIRE_NODE.
Proof. by vm_compute. Qed.

(** The child test on one candidate, whatever end node the path of [d]
    has: with a hook that accepts every child, [iterate_child_devices]
    returns 1 exactly when the nodes of the candidate's path are the nodes of
    the path of [d] followed by one more node and the path of [d] ends in the
    end node that the function writes into its copy, the bytes 7f ff 04 00. *)
Lemma child_test_end_node p d pp pd nsc tc nsp tp w w' :
  device_path p = Some pp → device_path d = Some pd →
  path_nodes (deref (mem w) pp) = Some (nsc, tc) → nsc ≠ [] →
  path_nodes (deref (mem w) pd) = Some (nsp, tp) →
  grub_malloc w = Some (true, w') →
  ∃ r, iterate_child_devices [p] d (λ _ s, mret (true, s)) tt w
         = Some ((r, tt), w') ∧
       (r = true ↔ (∃ x, nsc = nsp ++ [x]) ∧ tp = END_ENTIRE_NODE).
Proof.
  intros Hpp Hpd Hc Hne Hp Hm.
  apply path_nodes_sound in Hc as [Hwc [rc Hrc]].
  apply path_nodes_sound in Hp as [Hwp [rp Hrp]].
  destruct (grub_malloc_frame _ _ _ Hm) as (Hmem & _).
  destruct nsc as [|leaf init _] using rev_ind; [done|]. clear Hne.
  assert (Hwi : wf_nodes init END_ENTIRE_NODE).
  { destruct Hwc as [Hns _]. apply Forall_app in Hns as [Hns _].
    split; [done|apply end_entire_node_end]. }
  assert (Hleaf : is_node leaf).
  { destruct Hwc as [Hns _]. apply Forall_app in Hns as [_ Hl].
    by apply Forall_singleton in Hl as [Hl _]. }
  cbn [iterate_child_devices]. rewrite Hpp. cbn [load].
  rewrite bind_eq. cbn [gets]. rewrite Hrc, bind_eq.
  rewrite (duplicate_device_path_spec _ _ _ _ _ _ Hwc Hm).
  rewrite bind_eq.
  rewrite <- (app_nil_r (path_bytes _ _)), find_last_device_path_spec by done.
  cbn [lift]. rewrite bind_eq. cbn [lift]. rewrite bind_eq, app_nil_r.
  unfold path_bytes at 1. rewrite concat_app. cbn [concat].
  rewrite app_nil_r, <- !app_assoc, write_end_node_spec by apply Hleaf.
  cbn [lift]. rewrite bind_eq. cbn [gets]. rewrite bind_eq, Hmem, Hpd.
  cbn [fmap option_fmap option_map]. rewrite Hrp.
  rewrite (app_assoc (concat init)).
  change (concat init ++ END_ENTIRE_NODE) with (path_bytes init END_ENTIRE_NODE).
  rewrite compare_device_paths_spec by done. cbn [lift].
  destruct (Z.eqb_spec (nodes_cmp (init ++ [END_ENTIRE_NODE]) (nsp ++ [tp])) 0)
    as [E|E].
  - apply nodes_cmp_eq in E as [-> <-]; [|done..].
    exists true. split; [done|]. split; [|done]. intros _. split; [by eexists|done].
  - exists false. cbn [iterate_child_devices]. split; [done|].
    split; [done|]. intros [[x Hx] ->]. apply app_inj_tail in Hx as [-> _].
    by rewrite nodes_cmp_refl in E.
Qed.

(** C8: the child test, on paths that end in the end node 7f ff 04 00.
    For a parent [d] and one candidate [p] with well-formed paths, the
    candidate's with a last node, and with the copy of the candidate's path
    allocated, [iterate_child_devices] with a hook that accepts every child
    returns 1 exactly when the nodes of the candidate's path are the nodes of
    the parent's path followed by exactly one more node.  A candidate with
    any other path, a shorter one, a longer one or one that differs in a
    node, is not a child. *)
Theorem child_test_exact p d pp pd nsc tc nsp w w' :
  device_path p = Some pp → device_path d = Some pd →
  path_nodes (deref (mem w) pp) = Some (nsc, tc) → nsc ≠ [] →
  path_nodes (deref (mem w) pd) = Some (nsp, END_ENTIRE_NODE) →
  grub_malloc w = Some (true, w') →
  ∃ r, iterate_child_devices [p] d (λ _ s, mret (true, s)) tt w
         = Some ((r, tt), w') ∧
       (r = true ↔ ∃ x, nsc = nsp ++ [x]) ∧
       (r = false ↔ ∀ x, nsc ≠ nsp ++ [x]).
Proof.
  intros Hpp Hpd Hc Hne Hp Hm.
  destruct (child_test_end_node p d pp pd nsc tc nsp END_ENTIRE_NODE w w'
              Hpp Hpd Hc Hne Hp Hm) as (r & E & Hr).
  exists r. split; [done|]. split.
  - rewrite Hr. split; [by intros [? _]|by intros ?].
  - destruct r.
    + split; [done|]. intros Hall. destruct (proj1 Hr eq_refl) as [[x Hx] _].
      by destruct (Hall x).
    + split; [|done]. intros _ x Hx.
      assert (false = true) by (apply Hr; split; [by exists x|done]). done.
Qed.

Lemma child_test_exact_witness :
  ∃ r, iterate_child_devices
         [Examples.device 3 28 Examples.hard_disk_media]
         (Examples.device 1 18 Examples.hard_disk_media)
         (λ _ s, mret (true, s)) tt (Examples.world0 Examples.mem0 [])
         = Some ((r, tt), Examples.world0 Examples.mem0 []) ∧
       (r = true ↔
        ∃ x, [Examples.PciRoot; Examples.Pci x1f x02; Examples.Sata x01;
              Examples.HD1]
             = [Examples.PciRoot; Examples.Pci x1f x02; Examples.Sata x01]
               ++ [x]).
Proof.
  destruct (child_test_exact
              (Examples.device 3 28 Examples.hard_disk_media)
              (Examples.device 1 18 Examples.hard_disk_media)
              (Ptr 3 0) (Ptr 1 0)
              [Examples.PciRoot; Examples.Pci x1f x02; Examples.Sata x01;
               Examples.HD1]
              Examples.EndEntire
              [Examples.PciRoot; Examples.Pci x1f x02; Examples.Sata x01]
              (Examples.world0 Examples.mem0 [])
              (Examples.world0 Examples.mem0 []))
    as (r & E & Hr & _).
  - reflexivity.
  - reflexivity.
  - reflexivity.
  - done.
  - reflexivity.
  - reflexivity.
  - by exists r.
Defined.

(** The end node of the parent's path has to be the one that the function
    writes.  The path of the candidate is the path of the parent with the
    node [HD1] added, and the test returns 0, once for paths that end in an
    end node whose type byte is 0xff and once for paths that end in an end
    node of 8 bytes. *)
Example child_test_other_end_nodes :
  path_nodes Examples.disk_c
    = Some ([Examples.PciRoot; Examples.Pci x1f x02; Examples.Sata x00],
            Examples.EndEntire_ff) ∧
  path_nodes Examples.part_c1
    = Some ([Examples.PciRoot; Examples.Pci x1f x02; Examples.Sata x00]
              ++ [Examples.HD1], Examples.EndEntire_ff) ∧
  iterate_child_devices
    [Examples.device 5 28 Examples.hard_disk_media]
    (Examples.device 4 18 Examples.hard_disk_media)
    (λ _ s, mret (true, s)) tt (Examples.world0 Examples.mem0 [])
    = Some ((false, tt), Examples.world0 Examples.mem0 []) ∧
  path_nodes Examples.disk_d
    = Some ([Examples.PciRoot; Examples.Pci x1f x02; Examples.Sata x00],
            Examples.EndEntire_8) ∧
  path_nodes Examples.part_d1
    = Some ([Examples.PciRoot; Examples.Pci x1f x02; Examples.Sata x00]
              ++ [Examples.HD1], Examples.EndEntire_8) ∧
  iterate_child_devices
    [Examples.device 8 28 Examples.hard_disk_media]
    (Examples.device 7 18 Examples.hard_disk_media)
    (λ _ s, mret (true, s)) tt (Examples.world0 Examples.mem0 [])
    = Some ((false, tt), Examples.world0 Examples.mem0 []).
Proof. repeat split; vm_compute; reflexivity. Qed.

(** A partition is a child of its disk and of no other disk. *)
Example child_test_examples :
  let w := Examples.world0 Examples.mem0 [] in
  let yes := λ (_ : grub_efidisk_data) (s : unit), mret (true, s) in
  iterate_child_devices [Examples.device 3 28 Examples.hard_disk_media]
    Examples.dev_a yes tt w = Some ((true, tt), w) ∧
  iterate_child_devices [Examples.device 3 28 Examples.hard_disk_media]
    Examples.dev_b yes tt w = Some ((false, tt), w) ∧
  iterate_child_devices [Examples.dev_b] Examples.dev_a yes tt w
    = Some ((false, tt), w).
Proof. repeat split; vm_compute; reflexivity. Qed.

End Children.

(** * Sorted insertion *)

Section Insertion.

Variable m : memory.

Lemma wf_device_key d :
  wf_device m d → ∃ ns leaf t, has_key m d ns leaf t.
Proof.
  intros (ns & t & Hd & Hne). unfold dev_nodes in Hd.
  destruct (device_path d) as [p|] eqn:Hp; [|done]. cbn in Hd.
  apply path_nodes_sound in Hd as [Hwf [r Hr]].
  destruct ns as [|leaf ns _] using rev_ind; [done|].
  exists ns, leaf, t, p, r. done.
Qed.

Lemma has_key_wf d ns leaf t : has_key m d ns leaf t → wf_device m d.
Proof.
  intros (p & r & Hp & Hr & Hwf). exists (ns ++ [leaf]), t.
  split; [|by destruct ns]. unfold dev_nodes. rewrite Hp. cbn.
  rewrite Hr. by apply path_nodes_complete.
Qed.

Lemma has_key_inj d ns leaf t ns' leaf' t' :
  has_key m d ns leaf t → has_key m d ns' leaf' t' →
  ns = ns' ∧ leaf = leaf' ∧ t = t'.
Proof.
  intros (p & r & Hp & Hr & Hwf) (p' & r' & Hp' & Hr' & Hwf').
  rewrite Hp in Hp'. injection Hp' as <-.
  pose proof (path_nodes_complete _ _ r Hwf) as H1.
  pose proof (path_nodes_complete _ _ r' Hwf') as H2.
  rewrite <- Hr in H1. rewrite <- Hr' in H2. rewrite H1 in H2.
  injection H2 as H2 ->. by apply app_inj_tail in H2 as [-> ->].
Qed.

Lemma wf_nodes_last ns leaf t : wf_nodes (ns ++ [leaf]) t → wf_nodes [leaf] t.
Proof. intros [H Ht]. apply Forall_app in H as [_ H]. by split. Qed.

Lemma find_last_at_spec d ns leaf t :
  has_key m d ns leaf t →
  ∃ q r, find_last_at m (device_path d) = Some (Some q) ∧
         deref m q = path_bytes [leaf] t ++ r.
Proof.
  intros (p & r & Hp & Hr & Hwf).
  exists (ptr_add p (length (concat ns))), r. unfold find_last_at.
  rewrite Hp. cbn [mbind option_bind]. rewrite Hr.
  rewrite find_last_device_path_spec by done. split; [done|].
  unfold deref, ptr_add in *. cbn [p_block p_off].
  rewrite <- drop_drop, Hr. unfold path_bytes. rewrite concat_app.
  cbn [concat]. rewrite app_nil_r, <- !app_assoc.
  by rewrite drop_app_length.
Qed.

Lemma compare_at_spec a nsa la ta b nsb lb tb :
  has_key m a nsa la ta → has_key m b nsb lb tb →
  compare_at m (device_path a) (device_path b)
    = Some (nodes_cmp ((nsa ++ [la]) ++ [ta]) ((nsb ++ [lb]) ++ [tb])).
Proof.
  intros (p & r & Hp & Hr & Hwf) (p' & r' & Hp' & Hr' & Hwf').
  unfold compare_at. rewrite Hp, Hp'. cbn [fmap option_fmap option_map].
  rewrite Hr, Hr'. by apply compare_device_paths_spec.
Qed.

Lemma add_device_order_spec a nsa la ta b nsb lb tb :
  has_key m a nsa la ta → has_key m b nsb lb tb →
  add_device_order m a b = Some (order_cmp nsa la ta nsb lb tb).
Proof.
  intros Ha Hb. unfold add_device_order.
  destruct (find_last_at_spec a _ _ _ Ha) as (qa & ra & -> & Hqa).
  destruct (find_last_at_spec b _ _ _ Hb) as (qb & rb & -> & Hqb).
  rewrite (compare_at_spec a _ _ _ b _ _ _ Ha Hb).
  cbn [mbind option_bind]. unfold compare_at.
  cbn [fmap option_fmap option_map]. rewrite Hqa, Hqb.
  destruct Ha as (pa & ? & Hpa & Hra & Hwa), Hb as (pb & ? & Hpb & Hrb & Hwb).
  rewrite compare_device_paths_spec by (by eapply wf_nodes_last).
  cbn [mbind option_bind app]. unfold order_cmp.
  by destruct (nodes_cmp [la; ta] [lb; tb] =? 0).
Qed.

Lemma order_cmp_zero nsa la ta nsb lb tb :
  wf_nodes (nsa ++ [la]) ta → wf_nodes (nsb ++ [lb]) tb →
  order_cmp nsa la ta nsb lb tb = 0 ↔ nsa = nsb ∧ la = lb ∧ ta = tb.
Proof.
  intros Ha Hb. unfold order_cmp. split.
  - destruct (Z.eqb_spec (nodes_cmp [la; ta] [lb; tb]) 0); [|done].
    intros H. apply nodes_cmp_eq in H as [H ->]; [|done..].
    by apply app_inj_tail in H as [-> ->].
  - intros (-> & -> & ->). by rewrite !nodes_cmp_refl.
Qed.

Lemma order_cmp_antisym nsa la ta nsb lb tb :
  wf_nodes (nsa ++ [la]) ta → wf_nodes (nsb ++ [lb]) tb →
  order_cmp nsb lb tb nsa la ta = - order_cmp nsa la ta nsb lb tb.
Proof.
  intros Ha Hb. unfold order_cmp.
  pose proof (nodes_cmp_antisym [la] ta [lb] tb
                (wf_nodes_last _ _ _ Ha) (wf_nodes_last _ _ _ Hb)) as H1.
  pose proof (nodes_cmp_antisym _ _ _ _ Ha Hb) as H2.
  cbn [app] in H1. rewrite H1, H2.
  destruct (Z.eqb_spec (nodes_cmp [la; ta] [lb; tb]) 0);
  destruct (Z.eqb_spec (- nodes_cmp [la; ta] [lb; tb]) 0); lia.
Qed.

Lemma order_cmp_trans nsa la ta nsb lb tb nsc lc tc :
  wf_nodes (nsa ++ [la]) ta → wf_nodes (nsb ++ [lb]) tb →
  wf_nodes (nsc ++ [lc]) tc →
  order_cmp nsa la ta nsb lb tb < 0 → order_cmp nsb lb tb nsc lc tc < 0 →
  order_cmp nsa la ta nsc lc tc < 0.
Proof.
  intros Ha Hb Hc. unfold order_cmp.
  pose proof (wf_nodes_last _ _ _ Ha) as Hla.
  pose proof (wf_nodes_last _ _ _ Hb) as Hlb.
  pose proof (wf_nodes_last _ _ _ Hc) as Hlc.
  pose proof (nodes_cmp_trans [la] ta [lb] tb [lc] tc Hla Hlb Hlc) as Ht1.
  pose proof (nodes_cmp_trans _ _ _ _ _ _ Ha Hb Hc) as Ht2.
  cbn [app] in Ht1.
  destruct (Z.eqb_spec (nodes_cmp [la; ta] [lb; tb]) 0) as [E1|E1];
  destruct (Z.eqb_spec (nodes_cmp [lb; tb] [lc; tc]) 0) as [E2|E2].
  - apply (nodes_cmp_eq [la] ta [lb] tb) in E1 as [[= ->] ->]; [|done..].
    apply (nodes_cmp_eq [lb] tb [lc] tc) in E2 as [[= ->] ->]; [|done..].
    rewrite (nodes_cmp_refl [lc; tc]). cbn. apply Ht2.
  - apply (nodes_cmp_eq [la] ta [lb] tb) in E1 as [[= ->] ->]; [|done..].
    intros _ H. destruct (Z.eqb_spec (nodes_cmp [lb; tb] [lc; tc]) 0); done.
  - apply (nodes_cmp_eq [lb] tb [lc] tc) in E2 as [[= ->] ->]; [|done..].
    intros H _. destruct (Z.eqb_spec (nodes_cmp [la; ta] [lc; tc]) 0); done.
  - intros H1 H2. specialize (Ht1 H1 H2).
    destruct (Z.eqb_spec (nodes_cmp [la; ta] [lc; tc]) 0); [lia|done].
Qed.

Lemma has_key_nodes d ns leaf t : has_key m d ns leaf t → wf_nodes (ns ++ [leaf]) t.
Proof. by intros (? & ? & ? & ? & ?). Qed.

Lemma list_lt_trans a b c :
  wf_device m a → wf_device m b → wf_device m c →
  list_lt m a b → list_lt m b c → list_lt m a c.
Proof.
  intros Ha Hb Hc.
  apply wf_device_key in Ha as (nsa & la & ta & Ha).
  apply wf_device_key in Hb as (nsb & lb & tb & Hb).
  apply wf_device_key in Hc as (nsc & lc & tc & Hc).
  unfold list_lt.
  rewrite (add_device_order_spec a _ _ _ b _ _ _ Ha Hb),
    (add_device_order_spec b _ _ _ c _ _ _ Hb Hc),
    (add_device_order_spec a _ _ _ c _ _ _ Ha Hc).
  intros (r1 & [= <-] & H1) (r2 & [= <-] & H2). eexists. split; [done|].
  eapply (order_cmp_trans nsa la ta nsb lb tb nsc lc tc);
    eauto using has_key_nodes.
Qed.

Lemma list_lt_flip a d ret :
  wf_device m a → wf_device m d →
  add_device_order m a d = Some ret → 0 < ret → list_lt m d a.
Proof.
  intros Ha Hd.
  apply wf_device_key in Ha as (nsa & la & ta & Ha).
  apply wf_device_key in Hd as (nsd & ld & td & Hd).
  rewrite (add_device_order_spec a _ _ _ d _ _ _ Ha Hd). intros [= <-] H.
  unfold list_lt. rewrite (add_device_order_spec d _ _ _ a _ _ _ Hd Ha).
  eexists. split; [done|].
  rewrite (order_cmp_antisym nsa la ta nsd ld td) by eauto using has_key_nodes.
  lia.
Qed.

Lemma add_device_order_total a d :
  wf_device m a → wf_device m d → ∃ ret, add_device_order m a d = Some ret.
Proof.
  intros Ha Hd.
  apply wf_device_key in Ha as (nsa & la & ta & Ha).
  apply wf_device_key in Hd as (nsd & ld & td & Hd).
  rewrite (add_device_order_spec a _ _ _ d _ _ _ Ha Hd). by eexists.
Qed.

(** Equal paths take the same place in the order. *)
Lemma same_path_order a b d :
  wf_device m a → wf_device m b → wf_device m d →
  same_path m b d → add_device_order m a d = add_device_order m a b.
Proof.
  intros Ha Hb Hd.
  apply wf_device_key in Ha as (nsa & la & ta & Ha).
  apply wf_device_key in Hb as (nsb & lb & tb & Hb).
  apply wf_device_key in Hd as (nsd & ld & td & Hd).
  unfold same_path. rewrite (compare_at_spec b _ _ _ d _ _ _ Hb Hd).
  intros [= E]. apply nodes_cmp_eq in E as [E ->]; eauto using has_key_nodes.
  apply app_inj_tail in E as [-> ->].
  by rewrite (add_device_order_spec a _ _ _ d _ _ _ Ha Hd),
    (add_device_order_spec a _ _ _ b _ _ _ Ha Hb).
Qed.

Lemma same_path_order_zero b d :
  wf_device m b → wf_device m d →
  same_path m b d ↔ add_device_order m b d = Some 0.
Proof.
  intros Hb Hd.
  apply wf_device_key in Hb as (nsb & lb & tb & Hb).
  apply wf_device_key in Hd as (nsd & ld & td & Hd).
  unfold same_path. rewrite (compare_at_spec b _ _ _ d _ _ _ Hb Hd),
    (add_device_order_spec b _ _ _ d _ _ _ Hb Hd).
  pose proof (order_cmp_zero nsb lb tb nsd ld td
                (has_key_nodes _ _ _ _ Hb) (has_key_nodes _ _ _ _ Hd)) as Hz.
  split; intros [= E]; f_equal.
  - apply Hz. apply nodes_cmp_eq in E as [E ->]; eauto using has_key_nodes.
    by apply app_inj_tail in E as [-> ->].
  - apply Hz in E as (-> & -> & ->). apply nodes_cmp_refl.
Qed.

End Insertion.

Section AddDevice.

Lemma grub_malloc_total w : ∃ ok w', grub_malloc w = Some (ok, w').
Proof. unfold grub_malloc. destruct (heap w); by eexists _, _. Qed.

Lemma grub_malloc_fails w h :
  heap w = false :: h → grub_malloc w = Some (false, set_heap h w).
Proof. unfold grub_malloc. by intros ->. Qed.

Lemma add_device_link_eq tail d w :
  add_device_link tail d w =
  match grub_malloc w with
  | Some (ok, w') => Some (if (ok : bool) then d :: tail else tail, w')
  | None => None
  end.
Proof.
  unfold add_device_link. rewrite bind_eq.
  destruct (grub_malloc w) as [[[] ?]|]; done.
Qed.

Lemma add_device_cons p l d w :
  add_device (p :: l) d w =
  match add_device_order (mem w) p d with
  | None => None
  | Some ret =>
    if ret =? 0 then Some (p :: l, w)
    else if ret >? 0 then add_device_link (p :: l) d w
    else match add_device l d w with
         | Some (l', w') => Some (p :: l', w')
         | None => None
         end
  end.
Proof.
  cbn [add_device]. rewrite bind_eq. cbn [gets]. rewrite bind_eq.
  destruct (add_device_order (mem w) p d) as [ret|]; [|done]. cbn [lift].
  destruct (ret =? 0); [done|]. destruct (ret >? 0); [done|].
  rewrite bind_eq. by destruct (add_device l d w) as [[? ?]|].
Qed.

(** [add_device] touches nothing but the allocator. *)
Lemma add_device_frame l d w l' w' :
  add_device l d w = Some (l', w') →
  mem w' = mem w ∧ fd_devices w' = fd_devices w ∧ hd_devices w' = hd_devices w ∧
  cd_devices w' = cd_devices w ∧ io_log w' = io_log w.
Proof.
  revert l'. induction l as [|p l IH]; intros l'.
  - cbn [add_device]. rewrite add_device_link_eq.
    destruct (grub_malloc w) as [[ok w1]|] eqn:E; [|done].
    intros [= <- <-]. by apply grub_malloc_frame in E.
  - rewrite add_device_cons.
    destruct (add_device_order (mem w) p d) as [ret|]; [|done].
    destruct (ret =? 0); [by intros [= <- <-]|].
    destruct (ret >? 0).
    + rewrite add_device_link_eq.
      destruct (grub_malloc w) as [[ok w1]|] eqn:E; [|done].
      intros [= <- <-]. by apply grub_malloc_frame in E.
    + destruct (add_device l d w) as [[l1 w1]|]; [|done].
      intros [= <- <-]. by eapply IH.
Qed.

Lemma add_device_sorted l d w :
  Forall (wf_device (mem w)) l → wf_device (mem w) d →
  StronglySorted (list_lt (mem w)) l →
  ∃ l' w', add_device l d w = Some (l', w') ∧
           Forall (λ x, x ∈ l ∨ x = d) l' ∧
           StronglySorted (list_lt (mem w)) l'.
Proof.
  intros Hwf Hd Hs. induction Hwf as [|p l Hp Hwf IH].
  - cbn [add_device]. rewrite add_device_link_eq.
    destruct (grub_malloc_total w) as (ok & w' & ->).
    eexists _, _. split; [done|]. destruct ok.
    + split; [by repeat constructor|]. by repeat constructor.
    + split; constructor.
  - rewrite add_device_cons. apply StronglySorted_inv in Hs as [Hs Hall].
    destruct (add_device_order_total (mem w) p d Hp Hd) as [ret Hret].
    rewrite Hret. destruct (Z.eqb_spec ret 0) as [E|E].
    { eexists _, _. split; [done|]. split; [|by constructor].
      apply Forall_forall. by left. }
    destruct (Z.gtb_spec ret 0) as [G|G].
    { rewrite add_device_link_eq.
      destruct (grub_malloc_total w) as (ok & w' & ->).
      eexists _, _. split; [done|]. destruct ok.
      - split.
        + constructor; [by right|]. apply Forall_forall. by left.
        + assert (Hdp : list_lt (mem w) d p) by (by eapply list_lt_flip).
          constructor; [by constructor|]. constructor; [done|].
          rewrite Forall_forall in Hall, Hwf. apply Forall_forall.
          intros x Hx. eapply (list_lt_trans (mem w) d p x); eauto.
      - split; [|by constructor]. apply Forall_forall. by left. }
    destruct (IH Hs) as (l' & w' & -> & Hin & Hs').
    eexists _, _. split; [done|]. split.
    + constructor; [left; by left|].
      eapply Forall_impl; [exact Hin|]. intros x [?|?]; [left; by right|by right].
    + constructor; [done|].
      eapply Forall_impl; [exact Hin|]. intros x [Hx| ->].
      * rewrite Forall_forall in Hall. by apply Hall.
      * exists ret. split; [done|lia].
Qed.

Lemma add_device_keeps_wf l d w l' w' :
  Forall (wf_device (mem w)) l → wf_device (mem w) d →
  add_device l d w = Some (l', w') → Forall (wf_device (mem w)) l'.
Proof.
  intros Hwf Hd. revert l'. induction Hwf as [|p l Hp Hwf IH]; intros l'.
  - cbn [add_device]. rewrite add_device_link_eq.
    destruct (grub_malloc w) as [[[] ?]|]; intros [= <- <-]; by repeat constructor.
  - rewrite add_device_cons.
    destruct (add_device_order (mem w) p d) as [ret|]; [|done].
    destruct (ret =? 0); [intros [= <- <-]; by constructor|].
    destruct (ret >? 0).
    + rewrite add_device_link_eq.
      destruct (grub_malloc w) as [[[] ?]|]; intros [= <- <-];
        by repeat constructor.
    + destruct (add_device l d w) as [[l1 w1]|]; [|done].
      intros [= <- <-]. constructor; [done|]. by apply IH.
Qed.

(** When the allocation fails the list stays as it is. *)
Lemma add_device_nomem l d w h :
  heap w = false :: h →
  Forall (wf_device (mem w)) l → wf_device (mem w) d →
  ∃ w', add_device l d w = Some (l, w').
Proof.
  intros Hh Hwf Hd. induction Hwf as [|p l Hp Hwf IH].
  - cbn [add_device]. rewrite add_device_link_eq, (grub_malloc_fails w h Hh).
    by eexists.
  - rewrite add_device_cons.
    destruct (add_device_order_total (mem w) p d Hp Hd) as [ret ->].
    destruct (ret =? 0); [by eexists|]. destruct (ret >? 0).
    + rewrite add_device_link_eq, (grub_malloc_fails w h Hh). by eexists.
    + destruct IH as [w' ->]. by eexists.
Qed.

(** A device whose path is in the list already is not inserted. *)
Lemma add_device_duplicate l d w e :
  Forall (wf_device (mem w)) l → wf_device (mem w) d →
  StronglySorted (list_lt (mem w)) l →
  e ∈ l → same_path (mem w) e d → add_device l d w = Some (l, w).
Proof.
  intros Hwf Hd Hs He Hsame. induction Hwf as [|p l Hp Hwf IH]; [by inversion He|].
  rewrite add_device_cons. apply StronglySorted_inv in Hs as [Hs Hall].
  apply elem_of_cons in He as [<-|He].
  { apply same_path_order_zero in Hsame; [|done..]. by rewrite Hsame. }
  assert (He' : wf_device (mem w) e).
  { rewrite Forall_forall in Hwf. by apply Hwf. }
  rewrite (same_path_order (mem w) p e d) by done.
  rewrite Forall_forall in Hall. destruct (Hall e He) as (ret & -> & Hret).
  destruct (Z.eqb_spec ret 0); [lia|]. destruct (Z.gtb_spec ret 0); [lia|].
  by rewrite IH.
Qed.

Lemma StronglySorted_lookup {A} (R : A → A → Prop) l i j a b :
  StronglySorted R l → (i < j)%nat → l !! i = Some a → l !! j = Some b → R a b.
Proof.
  intros Hs. revert i j. induction Hs as [|x l Hs IH Hall]; intros i j Hij; [done|].
  destruct j as [|j]; [lia|]. destruct i as [|i]; cbn.
  - intros [= <-] Hb. rewrite Forall_forall in Hall.
    apply Hall. by eapply list_elem_of_lookup_2.
  - apply IH. lia.
Qed.

Lemma sorted_no_duplicates m l i j a b :
  Forall (wf_device m) l → StronglySorted (list_lt m) l →
  l !! i = Some a → l !! j = Some b → same_path m a b → i = j.
Proof.
  intros Hwf Hs Ha Hb Hsame.
  assert (Hwa : wf_device m a).
  { rewrite Forall_forall in Hwf. eapply Hwf, list_elem_of_lookup_2, Ha. }
  assert (Hwb : wf_device m b).
  { rewrite Forall_forall in Hwf. eapply Hwf, list_elem_of_lookup_2, Hb. }
  destruct (Nat.lt_trichotomy i j) as [Hlt|[Heq|Hgt]]; [|done|].
  - destruct (StronglySorted_lookup _ _ _ _ _ _ Hs Hlt Ha Hb) as (ret & Hr & Hneg).
    apply same_path_order_zero in Hsame; [|done..]. rewrite Hsame in Hr.
    injection Hr as <-. lia.
  - destruct (StronglySorted_lookup _ _ _ _ _ _ Hs Hgt Hb Ha) as (ret & Hr & Hneg).
    apply same_path_order_zero in Hsame; [|done..].
    apply wf_device_key in Hwa as (nsa & la & ta & Hka).
    apply wf_device_key in Hwb as (nsb & lb & tb & Hkb).
    rewrite (add_device_order_spec m a _ _ _ b _ _ _ Hka Hkb) in Hsame.
    rewrite (add_device_order_spec m b _ _ _ a _ _ _ Hkb Hka) in Hr.
    rewrite (order_cmp_antisym nsa la ta nsb lb tb) in Hr
      by eauto using has_key_nodes.
    injection Hsame as Hz. injection Hr as <-. lia.
Qed.

Lemma inserted_invariant m l :
  inserted m l → Forall (wf_device m) l ∧ StronglySorted (list_lt m) l.
Proof.
  induction 1 as [|l d w l' w' _ [IHwf IHs] Hd <- Hadd]; [by split; constructor|].
  split; [by eapply add_device_keeps_wf|].
  destruct (add_device_sorted l d w IHwf Hd IHs) as (l1 & w1 & E & _ & Hs).
  rewrite Hadd in E. by injection E as <- <-.
Qed.

(** C3 (as amended): a list built by insertions from the empty list is
    sorted ascending in the order of [add_device], the comparison from the
    last node of the path on, with ties broken by the comparison of the
    whole paths; no two of its entries have equal device paths; an insertion
    returns, and the insertion of a device whose path equals that of an entry
    leaves the list, and the state, as they are.  The devices have
    well-formed paths with a last node and the memory that holds the paths
    does not change. *)
Theorem add_device_sorted_unique m l :
  inserted m l →
  StronglySorted (list_lt m) l ∧
  (∀ i j a b, l !! i = Some a → l !! j = Some b → same_path m a b → i = j) ∧
  (∀ d w, wf_device m d → mem w = m →
     ∃ l' w', add_device l d w = Some (l', w') ∧
              ((∃ e, e ∈ l ∧ same_path m e d) → l' = l ∧ w' = w)).
Proof.
  intros Hins. destruct (inserted_invariant m l Hins) as [Hwf Hs].
  split; [done|]. split.
  - intros i j a b. by apply sorted_no_duplicates.
  - intros d w Hd <-.
    destruct (add_device_sorted l d w Hwf Hd Hs) as (l' & w' & E & _).
    exists l', w'. split; [done|]. intros (e & He & Hsame).
    rewrite (add_device_duplicate l d w e Hwf Hd Hs He Hsame) in E.
    by injection E as <- <-.
Qed.

End AddDevice.

Section AddDeviceExamples.

Import Examples.

Lemma wf_dev_a : wf_device mem0 dev_a.
Proof. eexists _, _. split; [by vm_compute|done]. Qed.

Lemma wf_dev_b : wf_device mem0 dev_b.
Proof. eexists _, _. split; [by vm_compute|done]. Qed.

Lemma inserted_b_a : inserted mem0 [dev_b; dev_a].
Proof.
  eapply (inserted_add mem0 [dev_a] dev_b (world0 mem0 []));
    [|apply wf_dev_b|reflexivity|by vm_compute].
  eapply (inserted_add mem0 [] dev_a (world0 mem0 []));
    [constructor|apply wf_dev_a|reflexivity|by vm_compute].
Qed.

Lemma add_device_sorted_unique_witness :
  StronglySorted (list_lt mem0) [dev_b; dev_a] ∧
  (∀ i j a b, [dev_b; dev_a] !! i = Some a → [dev_b; dev_a] !! j = Some b →
              same_path mem0 a b → i = j) ∧
  (∀ d w, wf_device mem0 d → mem w = mem0 →
     ∃ l' w', add_device [dev_b; dev_a] d w = Some (l', w') ∧
              ((∃ e, e ∈ [dev_b; dev_a] ∧ same_path mem0 e d) →
               l' = [dev_b; dev_a] ∧ w' = w)).
Proof.
  apply (add_device_sorted_unique mem0 [dev_b; dev_a]). apply inserted_b_a.
Defined.

(** C3, as stated, fails: after the insertion of [dev_a] and of [dev_b] the
    list is [dev_b; dev_a], and the whole path of [dev_b] compares greater
    than that of [dev_a].  The list is in the order of the last nodes,
    Sata(0) before Sata(1). *)
Lemma add_device_not_sorted_by_path :
  add_device [] dev_a (world0 mem0 []) = Some ([dev_a], world0 mem0 []) ∧
  add_device [dev_a] dev_b (world0 mem0 [])
    = Some ([dev_b; dev_a], world0 mem0 []) ∧
  compare_at mem0 (device_path dev_b) (device_path dev_a) = Some 1.
Proof. by vm_compute. Qed.

End AddDeviceExamples.

Section AllocationFailure.

Import Examples.

(** C10: when the allocation of the list node fails, [add_device] returns
    with the list as it was and with nothing in the state changed but the
    allocator; it has no result to report the failure with.  On a machine
    with one disk and memory for the device record but not for the list node,
    the disk is found by [make_devices], [grub_efidisk_init] returns, and the
    three lists are as empty as before; with enough memory the disk is in the
    hard-disk list. *)
Theorem add_device_allocation_failure l d w h :
  heap w = false :: h →
  Forall (wf_device (mem w)) l → wf_device (mem w) d →
  (∃ w', add_device l d w = Some (l, w') ∧
         mem w' = mem w ∧ fd_devices w' = fd_devices w ∧
         hd_devices w' = hd_devices w ∧ cd_devices w' = cd_devices w ∧
         io_log w' = io_log w) ∧
  (let fw := machine [1%N] hard_disk_media 0 in
   let w := world0 mem0 [true; false] in
   make_devices fw w = Some ([dev_a], set_heap [false] w) ∧
   grub_efidisk_init fw w = Some (tt, set_heap [] w) ∧
   grub_efidisk_init fw (world0 mem0 [])
     = Some (tt, set_hd_devices [dev_a] (world0 mem0 []))).
Proof.
  intros Hh Hwf Hd. split.
  - destruct (add_device_nomem l d w h Hh Hwf Hd) as [w' E].
    exists w'. split; [done|]. by apply add_device_frame in E.
  - repeat split; vm_compute; reflexivity.
Qed.

Lemma add_device_allocation_failure_witness :
  ∃ w', add_device [dev_a] dev_b (world0 mem0 [false]) = Some ([dev_a], w') ∧
        mem w' = mem0.
Proof.
  destruct (add_device_allocation_failure [dev_a] dev_b (world0 mem0 [false]) [])
    as [(w' & E & Hm & _) _].
  - reflexivity.
  - constructor; [apply wf_dev_a|constructor].
  - apply wf_dev_b.
  - by exists w'.
Defined.

End AllocationFailure.

(** * Naming *)

Section Naming.

(** The branch that [name_devices] takes for a device, by the type of its
    last node and its media: [add_device] on the optical list, on the
    hard-disk list or on the floppy list, or no call at all. *)
Lemma name_devices_dispatch d ds p type w :
  last_device_path d = Some p →
  GRUB_EFI_DEVICE_PATH_TYPE (deref (mem w) p) = Some type →
  let m := media (block_io d) in
  (type = GRUB_EFI_MESSAGING_DEVICE_PATH_TYPE →
   read_only m = true → 512 < block_size m →
   name_devices (d :: ds) w
     = (l ← add_device (cd_devices w) d;
        modify (set_cd_devices l);; name_devices ds) w) ∧
  (type = GRUB_EFI_MESSAGING_DEVICE_PATH_TYPE →
   read_only m = false ∨ block_size m ≤ 512 →
   name_devices (d :: ds) w
     = (l ← add_device (hd_devices w) d;
        modify (set_hd_devices l);; name_devices ds) w) ∧
  (type = GRUB_EFI_ACPI_DEVICE_PATH_TYPE →
   name_devices (d :: ds) w
     = (l ← add_device (fd_devices w) d;
        modify (set_fd_devices l);; name_devices ds) w) ∧
  (type ≠ GRUB_EFI_MESSAGING_DEVICE_PATH_TYPE →
   type ≠ GRUB_EFI_ACPI_DEVICE_PATH_TYPE →
   name_devices (d :: ds) w = name_devices ds w).
Proof.
  intros Hp Hty m. subst m.
  cbn [name_devices]. unfold name_device. rewrite Hp.
  unfold mbind, M_bind, load, gets, lift, modify, mret, M_ret. rewrite Hty.
  repeat split.
  - intros -> Hro Hbs. rewrite Hro.
    destruct (Z.gtb_spec (block_size (media (block_io d))) SECTOR_SIZE);
      [|unfold SECTOR_SIZE in *; lia].
    cbn. by destruct (add_device (cd_devices w) d w) as [[l w']|].
  - intros -> Hor.
    assert (read_only (media (block_io d)) &&
            (block_size (media (block_io d)) >? SECTOR_SIZE) = false) as ->.
    { destruct Hor as [-> | Hle]; [done|]. apply andb_false_intro2.
      destruct (Z.gtb_spec (block_size (media (block_io d))) SECTOR_SIZE); [|done].
      unfold SECTOR_SIZE in *. lia. }
    cbn. by destruct (add_device (hd_devices w) d w) as [[l w']|].
  - intros ->. cbn. by destruct (add_device (fd_devices w) d w) as [[l w']|].
  - intros H1 H2.
    destruct (Z.eqb_spec type GRUB_EFI_MESSAGING_DEVICE_PATH_TYPE); [done|].
    by destruct (Z.eqb_spec type GRUB_EFI_ACPI_DEVICE_PATH_TYPE).
Qed.

(** The four cases on four machines with one device each: an optical
    drive, the same device with writable media, a floppy drive, and a
    partition, whose last node is a media node. *)
Example classification_examples :
  let writable := {| media := {| media_id := 3; read_only := false;
                                 block_size := 2048; last_block := 332799 |} |} in
  let w := Examples.world0 Examples.mem0 [] in
  grub_efidisk_init (Examples.machine [1%N] Examples.optical_media 0) w
    = Some (tt, set_cd_devices [Examples.device 1 18 Examples.optical_media] w) ∧
  grub_efidisk_init (Examples.machine [1%N] writable 0) w
    = Some (tt, set_hd_devices [Examples.device 1 18 writable] w) ∧
  grub_efidisk_init (Examples.machine [6%N] Examples.hard_disk_media 0) w
    = Some (tt, set_fd_devices [Examples.device 6 18 Examples.hard_disk_media] w) ∧
  grub_efidisk_init (Examples.machine [3%N] Examples.hard_disk_media 0) w
    = Some (tt, w).
Proof. repeat split; vm_compute; reflexivity. Qed.

End Naming.

(** * The dispatch entry point *)

Section Dispatch.

Variable fw : firmware.
Variable sh : shared_h.

(** Whatever the transfer returns, a read or a write through [biosdisk] on a
    drive that resolves returns 0: [ret] is assigned and never used. *)
Lemma biosdisk_returns_zero subfunc drive g sector nsec segment d w :
  get_device_from_drive sh drive w = Some (Some d, w) →
  subfunc = BIOSDISK_READ sh ∨ subfunc = BIOSDISK_WRITE sh →
  ∃ w', biosdisk fw sh subfunc drive g sector nsec segment w = Some (0, w').
Proof.
  intros Hd Hs. unfold biosdisk. rewrite bind_eq, Hd.
  destruct (Z.eqb_spec subfunc (BIOSDISK_READ sh)).
  - rewrite bind_eq, grub_efidisk_read_spec. by eexists.
  - destruct Hs as [? | ->]; [done|]. rewrite Z.eqb_refl.
    rewrite bind_eq, grub_efidisk_write_spec. by eexists.
Qed.

(** The transfer that a read through [biosdisk] issues, for the arguments an
    [int] can hold from 0 up and a 32-bit block size: the products fit in 64
    bits and the offset and the length are exact. *)
Lemma biosdisk_read_transfer drive g sector nsec segment d w :
  get_device_from_drive sh drive w = Some (Some d, w) →
  0 ≤ sector < 2 ^ 31 → 0 ≤ nsec < 2 ^ 31 →
  0 ≤ block_size (media (block_io d)) < 2 ^ 32 →
  biosdisk fw sh (BIOSDISK_READ sh) drive g sector nsec segment w
  = Some (0, set_io_log
               ({| t_service := dio_read; t_this := disk_io d;
                   t_media_id := media_id (media (block_io d));
                   t_offset := sector * block_size (media (block_io d));
                   t_size := nsec * block_size (media (block_io d));
                   t_buffer := u64 (Z.shiftl (u64 segment) 4) |} :: io_log w) w).
Proof.
  intros Hd Hs Hn Hb. unfold biosdisk. rewrite bind_eq, Hd, Z.eqb_refl.
  rewrite bind_eq, grub_efidisk_read_spec. cbn.
  rewrite (u64_small sector), (u64_small nsec) by lia.
  rewrite !u64_small by nia. done.
Qed.

End Dispatch.

Section DispatchExample.

Import Examples.

(** C1: a non-success status of the transfer is to reach the caller of
    [biosdisk] as a failure.  The code does not do that: on a machine whose
    disk-I/O service answers every transfer with [EFI_DEVICE_ERROR], a read
    of one sector of drive 0x80 fails in [grub_efidisk_read], which returns
    -1, and [biosdisk] returns 0 for the same read. *)
Theorem biosdisk_drops_transfer_status :
  let fw := machine [1%N] hard_disk_media EFI_DEVICE_ERROR in
  let w := set_hd_devices [dev_a] (world0 mem0 []) in
  let w' := set_io_log
              [{| t_service := dio_read; t_this := 1%N; t_media_id := 7;
                  t_offset := 0; t_size := 512; t_buffer := 0 |}] w in
  grub_efidisk_init fw (world0 mem0 []) = Some (tt, w) ∧
  get_device_from_drive sh0 0x80 w = Some (Some dev_a, w) ∧
  grub_efidisk_read fw dev_a 0 1 0 w = Some (-1, w') ∧
  biosdisk fw sh0 (BIOSDISK_READ sh0) 0x80 None 0 1 0 w = Some (0, w').
Proof. repeat split; vm_compute; reflexivity. Qed.

Lemma get_diskinfo_geometry_witness :
  ∃ g', get_diskinfo sh0 0x80
          {| cylinders := 0; heads := 0; sectors := 0; total_sectors := 0;
             sector_size := 0; flags := 0 |}
          (set_hd_devices [dev_a] (world0 mem0 []))
          = Some ((0, g'), set_hd_devices [dev_a] (world0 mem0 [])) ∧
        total_sectors g' = 1000000 ∧ sector_size g' = 512 ∧ sectors g' = 63 ∧
        heads g' = 255 ∧ cylinders g' = 62.
Proof.
  destruct (get_diskinfo_geometry sh0 0x80 dev_a
              {| cylinders := 0; heads := 0; sectors := 0; total_sectors := 0;
                 sector_size := 0; flags := 0 |}
              (set_hd_devices [dev_a] (world0 mem0 [])))
    as (g' & H1 & H2 & H3 & H4 & _ & _ & H7).
  - reflexivity.
  - cbn. lia.
  - exists g'. destruct (H7 H2) as [H8 H9]. by repeat split.
Defined.

Lemma transfer_byte_addressing_witness :
  ∃ r, grub_efidisk_read (machine [1%N] hard_disk_media 0) dev_a 10 4 0
         (world0 mem0 [])
       = Some (r, set_io_log
                    [{| t_service := dio_read; t_this := 1%N; t_media_id := 7;
                        t_offset := 5120; t_size := 2048; t_buffer := 0 |}]
                    (world0 mem0 [])).
Proof.
  destruct (transfer_byte_addressing (machine [1%N] hard_disk_media 0)
              dev_a 10 4 0 (world0 mem0 [])) as ((r & H) & _).
  - cbn. lia.
  - cbn. lia.
  - by exists r.
Defined.

End DispatchExample.

(** * From a handle to a drive *)

Section Resolution.

Variable fw : firmware.
Variable sh : shared_h.

Lemma cut_at_cdrom_id ns t r fuel :
  wf_nodes ns t → Forall (λ n, ¬ cdrom_node n) ns → (length ns < fuel)%nat →
  cut_at_cdrom fuel (path_bytes ns t ++ r) = Some (path_bytes ns t ++ r).
Proof.
  intros [Hns [Ht Hte]] Hcd. revert fuel. unfold path_bytes.
  induction Hns as [|n ns [Hn Hne] Hns IH]; intros fuel Hf;
    (destruct fuel as [|fuel]; [simpl in Hf; lia|]);
    cbn [cut_at_cdrom concat app]; rewrite <- ?app_assoc.
  - destruct (node_app_reads t r Ht) as (HT & HS & HL & HE & HD).
    rewrite HT, HS. cbn [mbind option_bind].
    assert (node_type t = GRUB_EFI_END_DEVICE_PATH_TYPE) as ->.
    { destruct (header_reads t (is_node_size t Ht)) as (HT' & _ & _ & HE').
      unfold GRUB_EFI_END_ENTIRE_DEVICE_PATH in HE'. rewrite HT' in HE'.
      cbn [mbind option_bind] in HE'.
      destruct (Z.eqb_spec (node_type t) GRUB_EFI_END_DEVICE_PATH_TYPE); [done|].
      injection HE' as HE'. congruence. }
    cbn [andb Z.eqb]. change (GRUB_EFI_END_DEVICE_PATH_TYPE =? _) with false.
    cbn [andb mbind option_bind]. by rewrite HE, Hte.
  - apply Forall_cons in Hcd as [Hncd Hcd].
    destruct (node_app_reads n (concat ns ++ t ++ r) Hn) as (HT & HS & HL & HE & HD).
    rewrite HT, HS. cbn [mbind option_bind].
    assert ((node_type n =? GRUB_EFI_MEDIA_DEVICE_PATH_TYPE)
            && (node_subtype n =? GRUB_EFI_CDROM_DEVICE_PATH_SUBTYPE) = false) as ->.
    { apply not_true_is_false. intros H. apply andb_prop in H as [H1 H2].
      apply Hncd. split; by apply Z.eqb_eq. }
    cbn [mbind option_bind]. rewrite HE, Hne, HL. cbn [mbind option_bind].
    rewrite HD. specialize (IH Hcd fuel). rewrite <- app_assoc in IH.
    rewrite IH by (simpl in Hf; lia). cbn [mbind option_bind].
    rewrite Nat2Z.id. by rewrite take_app_length.
Qed.

Lemma set_mem_id w : set_mem (mem w) w = w.
Proof. by destruct w. Qed.

Lemma cut_at_cdrom_at_id dp ns t w :
  path_nodes (deref (mem w) dp) = Some (ns, t) →
  Forall (λ n, ¬ cdrom_node n) ns →
  cut_at_cdrom_at dp w = Some (tt, w).
Proof.
  intros Hp Hcd. apply path_nodes_sound in Hp as [Hwf [r Hr]].
  unfold cut_at_cdrom_at. rewrite bind_eq. cbn [load gets]. rewrite bind_eq.
  rewrite Hr, cut_at_cdrom_id by (done || by apply walk_fuel_enough).
  cbn [lift]. unfold modify. do 2 f_equal. rewrite <- Hr. unfold deref.
  destruct (mem w !! p_block dp) as [blk|] eqn:E.
  - cbn [default]. rewrite take_drop, insert_id by done. apply set_mem_id.
  - exfalso. unfold deref in Hr. rewrite E in Hr. cbn [default] in Hr.
    rewrite drop_nil in Hr. destruct Hwf as [_ [[Hsz _] _]].
    apply (f_equal length) in Hr. unfold path_bytes in Hr.
    rewrite !length_app in Hr. unfold sizeof_device_path in Hsz.
    cbn [length] in Hr. lia.
Qed.

Lemma compare_at_total m e dp ns t :
  wf_device m e → path_nodes (deref m dp) = Some (ns, t) →
  ∃ ret, compare_at m (device_path e) (Some dp) = Some ret.
Proof.
  intros He Hp. apply wf_device_key in He as (nse & le & te & p & r & Hpe & Hr & Hwf).
  apply path_nodes_sound in Hp as [Hwf' [r' Hr']].
  unfold compare_at. rewrite Hpe. cbn [fmap option_fmap option_map].
  rewrite Hr, Hr', compare_device_paths_spec by done. by eexists.
Qed.

Lemma find_whole_disk_spec m l drv dp ns t :
  Forall (wf_device m) l → path_nodes (deref m dp) = Some (ns, t) →
  find_whole_disk m l drv (Some dp)
    = Some ((λ ie, drv + Z.of_nat ie.1) <$> list_find (has_path m dp) l).
Proof.
  intros Hwf Hp. revert drv. induction Hwf as [|d l Hd Hwf IH]; intros drv; [done|].
  cbn [find_whole_disk list_find].
  destruct (compare_at_total m d dp ns t Hd Hp) as [ret Hret].
  rewrite Hret. cbn [mbind option_bind].
  destruct (Z.eqb_spec ret 0) as [-> | Hne].
  - rewrite decide_True by done. cbn. do 2 f_equal. lia.
  - rewrite decide_False by (unfold has_path; congruence). rewrite IH.
    destruct (list_find (has_path m dp) l) as [[i e]|]; cbn; [|done].
    do 2 f_equal. lia.
Qed.

(** C2 (as amended): for a handle whose device path is well formed and has
    no CD-ROM media node (such a node would first be overwritten with an end
    node), [grub_get_drive_partition_from_bdev_handle] looks for a device
    with that path first in the floppy list, then at the head of the optical
    list and only there, then in the hard-disk list.  The first match
    decides: a floppy at position [i] gives drive [i], the first optical
    device gives drive [cdrom_drive], a hard disk at position [i] gives
    drive [0x80 + i], each with partition 0xFFFFFF, and the state is left as
    it was. *)
Theorem whole_disk_resolution handle dp ns t w :
  grub_efi_get_device_path fw handle = Some dp →
  path_nodes (deref (mem w) dp) = Some (ns, t) →
  Forall (λ n, ¬ cdrom_node n) ns →
  Forall (wf_device (mem w)) (fd_devices w ++ cd_devices w ++ hd_devices w) →
  let found := has_path (mem w) dp in
  let run := grub_get_drive_partition_from_bdev_handle fw sh handle w in
  (∀ i e, list_find found (fd_devices w) = Some (i, e) →
     run = Some (Some (u64 (Z.of_nat i), 0xFFFFFF), w)) ∧
  (list_find found (fd_devices w) = None →
   ∀ e cds, cd_devices w = e :: cds → found e →
     run = Some (Some (u64 (cdrom_drive sh), 0xFFFFFF), w)) ∧
  (list_find found (fd_devices w) = None →
   (∀ e cds, cd_devices w = e :: cds → ¬ found e) →
   ∀ i e, list_find found (hd_devices w) = Some (i, e) →
     run = Some (Some (u64 (0x80 + Z.of_nat i), 0xFFFFFF), w)).
Proof.
  intros Hdp Hp Hcd Hwf found run.
  apply Forall_app in Hwf as [Hfd Hwf]. apply Forall_app in Hwf as [Hcds Hhd].
  set (hard_disks := (hds ← gets hd_devices;
         r ← lift (find_whole_disk (mem w) hds 0x80 (Some dp));
         match r with
         | Some drv => mret (Some (u64 drv, 0xFFFFFF))
         | None => find_partition_of_disk fw (Some dp)
         end) w).
  assert (Hrun : run =
    match list_find found (fd_devices w) with
    | Some (i, _) => Some (Some (u64 (Z.of_nat i), 0xFFFFFF), w)
    | None =>
      match cd_devices w with
      | e :: _ =>
        if decide (found e) then Some (Some (u64 (cdrom_drive sh), 0xFFFFFF), w)
        else hard_disks
      | [] => hard_disks
      end
    end).
  { subst run. unfold grub_get_drive_partition_from_bdev_handle.
    rewrite Hdp, bind_eq, (cut_at_cdrom_at_id dp ns t w Hp Hcd).
    rewrite bind_eq. cbn [gets]. rewrite bind_eq. cbn [gets]. rewrite bind_eq.
    rewrite (find_whole_disk_spec (mem w) _ 0 dp ns t Hfd Hp). cbn [lift].
    fold found. destruct (list_find found (fd_devices w)) as [[i e]|];
      cbn [fmap option_fmap option_map]; [done|].
    rewrite bind_eq. cbn [gets]. rewrite bind_eq.
    destruct (cd_devices w) as [|e cds]; [done|].
    apply Forall_cons in Hcds as [He _].
    destruct (compare_at_total (mem w) e dp ns t He Hp) as [ret Hret].
    rewrite Hret. cbn [lift]. rewrite bool_decide_eq_false_2 by done.
    cbn [negb andb]. subst found.
    destruct (Z.eqb_spec ret 0) as [-> | Hne].
    - by rewrite decide_True.
    - rewrite decide_False; [done|]. unfold has_path. congruence. }
  rewrite Hrun. clear Hrun run. repeat split.
  - by intros i e ->.
  - intros -> e cds -> He. by rewrite decide_True.
  - intros -> Hncd i e Hhdf.
    assert (Hhds : hard_disks
                   = Some (Some (u64 (0x80 + Z.of_nat i), 0xFFFFFF), w)).
    { subst hard_disks. rewrite bind_eq. cbn [gets]. rewrite bind_eq.
      rewrite (find_whole_disk_spec (mem w) _ 0x80 dp ns t Hhd Hp).
      fold found. by rewrite Hhdf. }
    destruct (cd_devices w) as [|c cds]; [done|].
    by rewrite decide_False by (by eapply Hncd).
Qed.

End Resolution.

Section ResolutionExamples.

Import Examples.

Lemma whole_disk_resolution_witness :
  grub_get_drive_partition_from_bdev_handle
    (machine [1; 2]%N hard_disk_media 0) sh0 1%N
    (set_hd_devices [dev_b; dev_a] (world0 mem0 []))
  = Some (Some (u64 (0x80 + 1), 0xFFFFFF),
          set_hd_devices [dev_b; dev_a] (world0 mem0 [])).
Proof.
  destruct (whole_disk_resolution (machine [1; 2]%N hard_disk_media 0) sh0
              1%N (Ptr 1 0) [PciRoot; Pci x1f x02; Sata x01] EndEntire
              (set_hd_devices [dev_b; dev_a] (world0 mem0 [])))
    as (_ & _ & H).
  - reflexivity.
  - reflexivity.
  - repeat constructor; by intros [? ?].
  - repeat constructor; [apply wf_dev_b|apply wf_dev_a].
  - refine (H eq_refl _ 1%nat dev_a eq_refl). intros e cds Hc. discriminate Hc.
Defined.

(** C2, as stated, fails: on a machine with two optical drives the optical
    list holds both after initialisation; the path of handle 1 is the path
    of the second entry, and the function does not find it. *)
Lemma second_optical_drive_not_resolved :
  let fw := machine [1; 2]%N optical_media 0 in
  let dev_1 := device 1 18 optical_media in
  let dev_2 := device 2 18 optical_media in
  let w := set_cd_devices [dev_2; dev_1] (world0 mem0 []) in
  grub_efidisk_init fw (world0 mem0 []) = Some (tt, w) ∧
  cd_devices w !! 1%nat = Some dev_1 ∧
  compare_at (mem w) (device_path dev_1) (grub_efi_get_device_path fw 1%N)
    = Some 0 ∧
  grub_get_drive_partition_from_bdev_handle fw sh0 1%N w = Some (None, w).
Proof. repeat split; vm_compute; reflexivity. Qed.

(** The floppy list is looked at before the hard-disk list: in a state with
    one device in both, its handle resolves to floppy drive 0. *)
Example floppy_list_checked_first :
  let w := set_fd_devices [dev_a] (set_hd_devices [dev_a] (world0 mem0 [])) in
  grub_get_drive_partition_from_bdev_handle
    (machine [1%N] hard_disk_media 0) sh0 1%N w
  = Some (Some (0, 0xFFFFFF), w).
Proof. vm_compute. reflexivity. Qed.

(** A partition and its disk, both ways: the handle of the partition
    resolves to drive 0x80 and the partition the walker reports with the
    same start and length, and that drive and partition resolve to the
    handle of the partition. *)
Example partition_round_trip :
  let fw := machine_with_table [1; 3]%N hard_disk_media in
  let w := set_hd_devices [dev_a] (world0 mem0 []) in
  grub_efidisk_init fw (world0 mem0 []) = Some (tt, w) ∧
  grub_get_drive_partition_from_bdev_handle fw sh0 3%N w
    = Some (Some (0x80, 0x01FFFF), w) ∧
  grub_efidisk_get_current_bdev_handle fw sh0 0x80 0x01FFFF 2048 204800 w
    = Some (Some 3%N, w) ∧
  grub_efidisk_get_current_bdev_handle fw sh0 0x80 0xFFFFFF 0 0 w
    = Some (Some 1%N, w).
Proof. repeat split; vm_compute; reflexivity. Qed.

End ResolutionExamples.

(** * Initialisation *)

Section Initialisation.

Variable fw : firmware.

Lemma enumerated_wf m d : enumerated m d → wf_device m d.
Proof.
  intros (p & ns & leaf & t & r & Hp & _ & Hr & Hwf).
  apply (has_key_wf m d ns leaf t). by exists p, r.
Qed.

Lemma make_devices_loop_spec handles acc w :
  wf_firmware fw (mem w) → Forall (enumerated (mem w)) acc →
  ∃ l w', make_devices_loop fw handles acc w = Some (l, w') ∧
          mem w' = mem w ∧ fd_devices w' = fd_devices w ∧
          hd_devices w' = hd_devices w ∧ cd_devices w' = cd_devices w ∧
          io_log w' = io_log w ∧ Forall (enumerated (mem w)) l.
Proof.
  intros Hfw. revert acc w Hfw.
  induction handles as [|h handles IH]; intros acc w Hfw Hacc.
  { by exists acc, w. }
  cbn [make_devices_loop].
  destruct (grub_efi_get_device_path fw h) as [p|] eqn:Hp; [|by apply IH].
  destruct (Hfw h p Hp) as (ns & t & Hns).
  apply path_nodes_sound in Hns as [Hwf [r Hr]].
  rewrite bind_eq. cbn [gets]. rewrite bind_eq.
  unfold find_last_at. cbn [mbind option_bind]. rewrite Hr.
  destruct ns as [|leaf ns _] using rev_ind.
  { unfold path_bytes. cbn [concat app].
    rewrite find_last_device_path_empty by apply Hwf.
    cbn [mbind option_bind lift]. by apply IH. }
  rewrite find_last_device_path_spec by done. cbn [mbind option_bind lift].
  destruct (open_block_io fw h) as [bio|]; [|by apply IH].
  destruct (open_disk_io fw h) as [dio|]; [|by apply IH].
  rewrite bind_eq. destruct (grub_malloc_total w) as (ok & w1 & Hm).
  rewrite Hm. destruct (grub_malloc_frame _ _ _ Hm) as (Hm1 & Hf1 & Hh1 & Hc1 & Hi1).
  destruct ok.
  - destruct (IH ({| handle := h; device_path := Some p;
                     last_device_path := Some (ptr_add p (length (concat ns)));
                     block_io := bio; disk_io := dio |} :: acc) w1)
      as (l & w' & E & ? & ? & ? & ? & ? & Hl).
    + by rewrite Hm1.
    + rewrite Hm1. constructor; [|done]. by exists p, ns, leaf, t, r.
    + exists l, w'. rewrite E. rewrite Hm1 in Hl. repeat split; congruence.
  - exists [], w1. by repeat split.
Qed.

Lemma leaf_type_read m d :
  enumerated m d →
  ∃ q leaf, last_device_path d = Some q ∧
            GRUB_EFI_DEVICE_PATH_TYPE (deref m q) = Some (node_type leaf).
Proof.
  intros (p & ns & leaf & t & r & Hp & Hl & Hr & Hwf).
  exists (ptr_add p (length (concat ns))), leaf. split; [done|].
  unfold deref, ptr_add in *. cbn [p_block p_off].
  rewrite <- drop_drop, Hr. unfold path_bytes. rewrite concat_app.
  cbn [concat]. rewrite app_nil_r, <- !app_assoc, drop_app_length.
  destruct Hwf as [Hns _]. apply Forall_app in Hns as [_ Hleaf].
  apply Forall_singleton in Hleaf as [Hleaf _].
  by destruct (node_app_reads leaf (t ++ r) Hleaf) as (-> & _).
Qed.

Lemma add_device_inserted l d w :
  inserted (mem w) l → enumerated (mem w) d →
  ∃ l' w', add_device l d w = Some (l', w') ∧ inserted (mem w) l' ∧
           mem w' = mem w ∧ fd_devices w' = fd_devices w ∧
           hd_devices w' = hd_devices w ∧ cd_devices w' = cd_devices w ∧
           io_log w' = io_log w.
Proof.
  intros Hl Hd. apply enumerated_wf in Hd.
  destruct (inserted_invariant _ _ Hl) as [Hwf Hs].
  destruct (add_device_sorted l d w Hwf Hd Hs) as (l' & w' & E & _).
  exists l', w'. split; [done|]. split; [by eapply inserted_add|].
  by apply add_device_frame in E.
Qed.

Lemma name_device_spec d w :
  enumerated (mem w) d → lists_inserted (mem w) w →
  ∃ w', name_device d w = Some (tt, w') ∧ mem w' = mem w ∧
        io_log w' = io_log w ∧ lists_inserted (mem w) w'.
Proof.
  intros Hd (Hfd & Hhd & Hcd).
  destruct (leaf_type_read _ _ Hd) as (q & leaf & Hq & Hty).
  unfold name_device. rewrite Hq.
  unfold mbind, M_bind, load, gets, lift, modify, mret, M_ret. rewrite Hty.
  set (ty := node_type leaf).
  assert (Hacpi : ∀ w1, mem w1 = mem w → io_log w1 = io_log w →
            lists_inserted (mem w) w1 →
            ∃ w', (if ty =? GRUB_EFI_ACPI_DEVICE_PATH_TYPE
                   then λ w2, match add_device (fd_devices w2) d w2 with
                              | Some (l, w3) => Some (tt, set_fd_devices l w3)
                              | None => None
                              end
                   else λ w2, Some (tt, w2)) w1 = Some (tt, w') ∧
                  mem w' = mem w ∧ io_log w' = io_log w ∧
                  lists_inserted (mem w) w').
  { intros w1 Hm1 Hi1 (H1 & H2 & H3).
    destruct (ty =? GRUB_EFI_ACPI_DEVICE_PATH_TYPE); [|by exists w1].
    rewrite <- Hm1 in H1, Hd.
    destruct (add_device_inserted _ d w1 H1 Hd)
      as (l & w2 & -> & Hl & Hm2 & Hf2 & Hh2 & Hc2 & Hi2).
    exists (set_fd_devices l w2). rewrite Hm1 in Hl.
    unfold lists_inserted. cbn. repeat split; congruence. }
  destruct (ty =? GRUB_EFI_MESSAGING_DEVICE_PATH_TYPE).
  - destruct (read_only (media (block_io d)) &&
              (block_size (media (block_io d)) >? SECTOR_SIZE)).
    + destruct (add_device_inserted _ d w Hcd Hd)
        as (l & w2 & -> & Hl & Hm2 & Hf2 & Hh2 & Hc2 & Hi2).
      destruct (Hacpi (set_cd_devices l w2)) as (w' & E & ?); cbn; try congruence.
      { unfold lists_inserted. cbn. repeat split; congruence. }
      exists w'. split; [|done].
      destruct (ty =? GRUB_EFI_ACPI_DEVICE_PATH_TYPE); exact E.
    + destruct (add_device_inserted _ d w Hhd Hd)
        as (l & w2 & -> & Hl & Hm2 & Hf2 & Hh2 & Hc2 & Hi2).
      destruct (Hacpi (set_hd_devices l w2)) as (w' & E & ?); cbn; try congruence.
      { unfold lists_inserted. cbn. repeat split; congruence. }
      exists w'. split; [|done].
      destruct (ty =? GRUB_EFI_ACPI_DEVICE_PATH_TYPE); exact E.
  - destruct (Hacpi w) as (w' & E & ?); try done.
    exists w'. split; [|done].
    destruct (ty =? GRUB_EFI_ACPI_DEVICE_PATH_TYPE); exact E.
Qed.

Lemma name_devices_spec devices w :
  Forall (enumerated (mem w)) devices → lists_inserted (mem w) w →
  ∃ w', name_devices devices w = Some (tt, w') ∧ mem w' = mem w ∧
        io_log w' = io_log w ∧ lists_inserted (mem w) w'.
Proof.
  intros Hds. revert w Hds.
  induction devices as [|d devices IH]; intros w Hds Hw; [by exists w|].
  apply Forall_cons in Hds as [Hd Hds]. cbn [name_devices]. rewrite bind_eq.
  destruct (name_device_spec d w Hd Hw) as (w1 & -> & Hm1 & Hi1 & Hw1).
  rewrite <- Hm1 in Hds, Hw1.
  destruct (IH w1 Hds Hw1) as (w' & E & Hm' & Hi' & Hw').
  exists w'. rewrite Hm1 in Hm', Hw'. split; [done|]. split; [done|].
  split; [congruence|done].
Qed.

(** Initialisation on a machine with well-formed device paths returns, with
    the memory as it was and each of the three lists built by insertions, so
    sorted and without duplicates. *)
Lemma grub_efidisk_init_spec w :
  wf_firmware fw (mem w) → lists_inserted (mem w) w →
  ∃ w', grub_efidisk_init fw w = Some (tt, w') ∧ mem w' = mem w ∧
        lists_inserted (mem w) w'.
Proof.
  intros Hfw Hw. unfold grub_efidisk_init, enumerate_disks, make_devices.
  rewrite bind_eq. destruct (grub_efi_locate_handle fw) as [handles|].
  2:{ by exists w. }
  destruct (make_devices_loop_spec handles [] w Hfw)
    as (l & w1 & -> & Hm1 & Hf1 & Hh1 & Hc1 & Hi1 & Hl); [constructor|].
  assert (Hw1 : lists_inserted (mem w) w1).
  { destruct Hw as (? & ? & ?). unfold lists_inserted. repeat split; congruence. }
  destruct l as [|d l]; [by exists w1|].
  rewrite bind_eq. rewrite <- Hm1 in Hl, Hw1.
  destruct (name_devices_spec (d :: l) w1 Hl Hw1) as (w' & -> & Hm' & _ & Hw').
  exists w'. rewrite Hm1 in Hm', Hw'. done.
Qed.

End Initialisation.

(** * Further properties of the path functions *)

Section PathWalks.

Lemma path_bytes_last ns leaf t r :
  path_bytes (ns ++ [leaf]) t ++ r = concat ns ++ leaf ++ t ++ r.
Proof.
  unfold path_bytes. rewrite concat_app. cbn [concat].
  by rewrite app_nil_r, <- !app_assoc.
Qed.

(** X1: on a buffer that holds a well-formed path, [find_last_device_path]
    returns the null pointer when the path is the end node alone, and
    otherwise a pointer to the last node before the end node: its offset is
    the total length of the nodes before it, and the bytes from there on are
    that node followed by the end node. *)
Theorem find_last_device_path_last_node dp ns t :
  path_nodes dp = Some (ns, t) →
  (ns = [] → find_last_device_path dp = Some None) ∧
  (∀ init leaf, ns = init ++ [leaf] →
     find_last_device_path dp = Some (Some (length (concat init))) ∧
     take (length leaf) (drop (length (concat init)) dp) = leaf ∧
     path_nodes (drop (length (concat init)) dp) = Some ([leaf], t)).
Proof.
  intros Hp. apply path_nodes_sound in Hp as [Hwf [r ->]]. split.
  - intros ->. unfold path_bytes. cbn [concat app].
    apply find_last_device_path_empty, Hwf.
  - intros init leaf ->. split; [by apply find_last_device_path_spec|].
    rewrite path_bytes_last, drop_app_length. split.
    + by rewrite take_app_length.
    + pose proof (path_nodes_complete [leaf] t r (wf_nodes_last _ _ _ Hwf)) as H.
      unfold path_bytes in H. cbn [concat] in H.
      by rewrite app_nil_r, <- app_assoc in H.
Qed.

Lemma find_last_device_path_last_node_witness :
  find_last_device_path Examples.part_a1 = Some (Some 28%nat) ∧
  find_last_device_path Examples.EndEntire = Some None.
Proof.
  split.
  - destruct (find_last_device_path_last_node Examples.part_a1 _ _ eq_refl)
      as [_ H].
    by destruct (H [Examples.PciRoot; Examples.Pci x1f x02; Examples.Sata x01]
                   Examples.HD1 eq_refl) as [E _].
  - by destruct (find_last_device_path_last_node Examples.EndEntire _ _ eq_refl)
      as [H _]; apply H.
Defined.

Lemma length_fields_sum ns t :
  wf_nodes ns t →
  Z.of_nat (length (path_bytes ns t))
    = foldr (λ n acc, node_length n + acc) 0 (ns ++ [t]).
Proof.
  intros [Hns [Ht _]]. unfold path_bytes.
  induction Hns as [|n ns [Hn _] Hns IH]; cbn [concat app foldr].
  - rewrite (is_node_length t Ht). lia.
  - rewrite <- app_assoc, length_app, Nat2Z.inj_add, IH.
    by rewrite (is_node_length n Hn).
Qed.

(** X2: the copy that [duplicate_device_path] makes of a well-formed path
    holds the bytes of the path from its first node through its end node and
    nothing of what follows the end node in the buffer; its size is the sum
    of the length fields of the nodes, end node included.  One allocation is
    made; when it fails the result is the null pointer.  Nothing else in the
    state changes. *)
Theorem duplicate_device_path_copy dp ns t w :
  path_nodes dp = Some (ns, t) →
  ∃ ok w',
    grub_malloc w = Some (ok, w') ∧
    duplicate_device_path dp w
      = Some (if (ok : bool) then Some (path_bytes ns t) else None, w') ∧
    path_bytes ns t = take (length (path_bytes ns t)) dp ∧
    Z.of_nat (length (path_bytes ns t))
      = foldr (λ n acc, node_length n + acc) 0 (ns ++ [t]).
Proof.
  intros Hp. apply path_nodes_sound in Hp as [Hwf [r ->]].
  destruct (grub_malloc_total w) as (ok & w' & Hm). exists ok, w'.
  split; [done|]. split; [by apply duplicate_device_path_spec|].
  split; [by rewrite take_app_length|by apply length_fields_sum].
Qed.

Lemma duplicate_device_path_copy_witness :
  duplicate_device_path (Examples.disk_a ++ [x00; x01; x02])
    (Examples.world0 ∅ [])
  = Some (Some Examples.disk_a, Examples.world0 ∅ []) ∧
  duplicate_device_path (Examples.disk_a ++ [x00; x01; x02])
    (Examples.world0 ∅ [false])
  = Some (None, Examples.world0 ∅ []).
Proof.
  split.
  - destruct (duplicate_device_path_copy (Examples.disk_a ++ [x00; x01; x02])
                _ _ (Examples.world0 ∅ []) eq_refl)
      as (ok & w' & Hm & E & _).
    injection Hm as <- <-. exact E.
  - destruct (duplicate_device_path_copy (Examples.disk_a ++ [x00; x01; x02])
                _ _ (Examples.world0 ∅ [false]) eq_refl)
      as (ok & w' & Hm & E & _).
    injection Hm as <- <-. exact E.
Defined.

End PathWalks.

(** * Drive numbers *)

Section DriveNumbers.

Variable fw : firmware.
Variable sh : shared_h.

Lemma get_device_spec l num :
  get_device l num = if decide (0 ≤ num) then l !! Z.to_nat num else None.
Proof.
  revert num. induction l as [|d l IH]; intros num; cbn [get_device].
  - by case_decide.
  - destruct (Z.eqb_spec num 0) as [-> | Hne]; [done|]. rewrite IH.
    repeat case_decide; try lia; [|done].
    replace (Z.to_nat num) with (S (Z.to_nat (num - 1))) by lia. done.
Qed.

(** X3: [get_device devices num] is the entry at position [num] of the
    list, counted from 0; there is none, and the result is the null pointer,
    for a negative [num] and for a [num] from the length of the list on. *)
Theorem get_device_bounds l num :
  (num < 0 → get_device l num = None) ∧
  (0 ≤ num → get_device l num = l !! Z.to_nat num) ∧
  (is_Some (get_device l num) ↔ 0 ≤ num < Z.of_nat (length l)).
Proof.
  rewrite get_device_spec. split; [|split; [|split]].
  - intros Hn. by case_decide; [lia|].
  - intros Hn. by case_decide; [|lia].
  - case_decide; [|by intros [? ?]].
    intros Hs. apply lookup_lt_is_Some in Hs. lia.
  - intros Hr. case_decide; [|lia]. apply lookup_lt_is_Some. lia.
Qed.

Lemma land_bit7 x : Z.land x 0x80 = if Z.testbit x 7 then 0x80 else 0.
Proof.
  apply Z.bits_inj'. intros n Hn. rewrite Z.land_spec.
  change 128 with (2 ^ 7). rewrite Z.pow2_bits_eqb by lia.
  destruct (Z.eqb_spec 7 n) as [<- | Hne].
  - rewrite andb_true_r. destruct (Z.testbit x 7) eqn:E; [|done].
    by rewrite Z.pow2_bits_eqb by lia.
  - rewrite andb_false_r. destruct (Z.testbit x 7); [|by rewrite Z.bits_0].
    rewrite Z.pow2_bits_eqb by lia. symmetry. by apply Z.eqb_neq.
Qed.

Lemma bit7_set i : 0 ≤ i < 128 → Z.land (0x80 + i) 0x80 = 0x80.
Proof.
  intros Hi. rewrite land_bit7.
  assert (Z.testbit (128 + i) 7 = true) as ->; [|done].
  apply Z.testbit_true; [lia|]. change (2 ^ 7) with 128.
  replace ((128 + i) / 128) with 1; [done|].
  apply Z.div_unique with (r := i); lia.
Qed.

Lemma bit7_clear i : 0 ≤ i < 128 → Z.land i 0x80 = 0.
Proof.
  intros Hi. rewrite land_bit7.
  assert (Z.testbit i 7 = false) as ->; [|done].
  apply Z.testbit_false; [lia|]. change (2 ^ 7) with 128.
  by rewrite Z.div_small by lia.
Qed.

Lemma get_device_from_drive_eq drive w :
  get_device_from_drive sh drive w =
  Some (if bool_decide (NETWORK_DRIVE sh = Some drive) then None
        else if drive =? GRUB_INVALID_DRIVE sh then None
        else if drive =? cdrom_drive sh then get_device (cd_devices w) 0
        else if negb (Z.land drive 0x80 =? 0)
             then get_device (hd_devices w) (drive - 0x80)
        else get_device (fd_devices w) drive, w).
Proof.
  unfold get_device_from_drive.
  case_bool_decide; [done|].
  destruct (drive =? GRUB_INVALID_DRIVE sh); [done|].
  destruct (drive =? cdrom_drive sh); [done|].
  by destruct (negb (Z.land drive 128 =? 0)).
Qed.

(** X4: the numbering of the drives.  [GRUB_INVALID_DRIVE] and, in a
    netboot build, [NETWORK_DRIVE] resolve to no device, whatever the lists
    hold.  Of the other numbers, [cdrom_drive] resolves to the first entry of
    the optical list; [0x80 + i] resolves to entry [i] of the hard-disk list
    and [i] to entry [i] of the floppy list, for [i] from 0 to 127, and to no
    device when the list is shorter; a negative number resolves to no
    device.  The state is left as it is. *)
Theorem get_device_from_drive_numbering drive w :
  (drive = GRUB_INVALID_DRIVE sh ∨ NETWORK_DRIVE sh = Some drive →
   get_device_from_drive sh drive w = Some (None, w)) ∧
  (drive ≠ GRUB_INVALID_DRIVE sh → NETWORK_DRIVE sh ≠ Some drive →
   (drive = cdrom_drive sh →
    get_device_from_drive sh drive w = Some (head (cd_devices w), w)) ∧
   (drive ≠ cdrom_drive sh →
    (∀ i, 0 ≤ i < 128 → drive = 0x80 + i →
       get_device_from_drive sh drive w
         = Some (hd_devices w !! Z.to_nat i, w)) ∧
    (∀ i, 0 ≤ i < 128 → drive = i →
       get_device_from_drive sh drive w
         = Some (fd_devices w !! Z.to_nat i, w)) ∧
    (drive < 0 → get_device_from_drive sh drive w = Some (None, w)))).
Proof.
  rewrite get_device_from_drive_eq. split.
  - intros [-> | Hn].
    + case_bool_decide; [done|]. by rewrite Z.eqb_refl.
    + by rewrite bool_decide_eq_true_2.
  - intros Hinv Hnet. rewrite bool_decide_eq_false_2 by done.
    destruct (Z.eqb_spec drive (GRUB_INVALID_DRIVE sh)); [done|]. split.
    + intros ->. rewrite Z.eqb_refl. by destruct (cd_devices w).
    + intros Hcd. destruct (Z.eqb_spec drive (cdrom_drive sh)); [done|].
      repeat split.
      * intros i Hi ->. rewrite bit7_set by done. cbn [Z.eqb negb].
        rewrite get_device_spec. case_decide; [|lia]. do 3 f_equal. lia.
      * intros i Hi ->. rewrite bit7_clear by done. cbn [Z.eqb negb].
        rewrite get_device_spec. by case_decide; [|lia].
      * intros Hneg. rewrite !get_device_spec.
        destruct (negb (Z.land drive 128 =? 0)); by case_decide; [lia|].
Qed.

(** X5: whenever [get_diskinfo] succeeds, the geometry it stores carries
    the LBA flag and a CHS capacity, cylinders times heads times sectors per
    track, that does not exceed the number of sectors of the disk and falls
    short of it by less than one cylinder; with one head there are fewer
    than 255 cylinders.  A disk of fewer than 63 sectors gets 0 cylinders. *)
Theorem get_diskinfo_chs_capacity drive d g w :
  get_device_from_drive sh drive w = Some (Some d, w) →
  ∃ g', get_diskinfo sh drive g w = Some ((0, g'), w) ∧
        flags g' = BIOSDISK_FLAG_LBA_EXTENSION sh ∧
        0 ≤ cylinders g' ∧
        chs_capacity g' ≤ total_sectors g' < chs_capacity g' + heads g' * sectors g' ∧
        (heads g' = 1 → cylinders g' < 255) ∧
        (total_sectors g' < 63 → cylinders g' = 0).
Proof.
  intros Hd. unfold get_diskinfo. rewrite bind_eq, Hd.
  eexists. split; [reflexivity|]. unfold chs_capacity. cbn.
  set (T := u64 (last_block (media (block_io d)) + 1)).
  assert (HT : 0 ≤ T) by (subst T; unfold u64; apply Z.mod_pos_bound; lia).
  pose proof (Z.div_mod T 63 ltac:(lia)) as Hq.
  pose proof (Z.mod_pos_bound T 63 ltac:(lia)) as Hr.
  set (q := T / 63) in *.
  assert (Hq0 : 0 ≤ q) by (subst q; apply Z.div_pos; lia).
  split; [done|].
  destruct (Z.ltb_spec q 255) as [Hlt|Hge].
  - rewrite Z.div_1_r. repeat split; try lia.
  - pose proof (Z.div_mod q 255 ltac:(lia)) as Hc.
    pose proof (Z.mod_pos_bound q 255 ltac:(lia)) as Hcr.
    assert (0 ≤ q / 255) by (apply Z.div_pos; lia).
    repeat split; try lia.
Qed.

(** X6: [get_diskinfo] on a drive number that resolves to no device
    returns -1 and stores nothing in the geometry: so it is for
    [GRUB_INVALID_DRIVE], for [cdrom_drive] while the optical list is empty,
    and for the hard disk [0x80 + i] and the floppy [i] when the list has no
    entry [i].  The state is left as it is. *)
Theorem get_diskinfo_no_such_drive g w :
  get_diskinfo sh (GRUB_INVALID_DRIVE sh) g w = Some ((-1, g), w) ∧
  (cd_devices w = [] →
   get_diskinfo sh (cdrom_drive sh) g w = Some ((-1, g), w)) ∧
  (∀ i, 0 ≤ i < 128 → 0x80 + i ≠ cdrom_drive sh →
     (length (hd_devices w) ≤ Z.to_nat i)%nat →
     get_diskinfo sh (0x80 + i) g w = Some ((-1, g), w)) ∧
  (∀ i, 0 ≤ i < 128 → i ≠ cdrom_drive sh →
     (length (fd_devices w) ≤ Z.to_nat i)%nat →
     get_diskinfo sh i g w = Some ((-1, g), w)).
Proof.
  unfold get_diskinfo. repeat split.
  - rewrite bind_eq, get_device_from_drive_eq.
    case_bool_decide; [done|]. by rewrite Z.eqb_refl.
  - intros Hcd. rewrite bind_eq, get_device_from_drive_eq, Hcd.
    case_bool_decide; [done|].
    destruct (cdrom_drive sh =? GRUB_INVALID_DRIVE sh); [done|].
    by rewrite Z.eqb_refl.
  - intros i Hi Hncd Hlen. rewrite bind_eq, get_device_from_drive_eq.
    case_bool_decide; [done|].
    destruct (128 + i =? GRUB_INVALID_DRIVE sh); [done|].
    destruct (Z.eqb_spec (128 + i) (cdrom_drive sh)); [done|].
    rewrite bit7_set by done. cbn [Z.eqb negb].
    rewrite get_device_spec. case_decide; [|done].
    replace (128 + i - 128) with i by lia.
    by rewrite lookup_ge_None_2.
  - intros i Hi Hncd Hlen. rewrite bind_eq, get_device_from_drive_eq.
    case_bool_decide; [done|].
    destruct (i =? GRUB_INVALID_DRIVE sh); [done|].
    destruct (Z.eqb_spec i (cdrom_drive sh)); [done|].
    rewrite bit7_clear by done. cbn [Z.eqb negb].
    rewrite get_device_spec. case_decide; [|done].
    by rewrite lookup_ge_None_2.
Qed.

(** X7: what [biosdisk] returns says whether a transfer was issued, and
    nothing else.  It returns -1, with the state as it was, when the drive
    resolves to no device or the operation is neither [BIOSDISK_READ] nor
    [BIOSDISK_WRITE]; otherwise it returns 0 after exactly one transfer, a
    read or a write as asked for, to the disk-I/O service of the device and
    with the buffer at the address [segment << 4]. *)
Theorem biosdisk_result_and_transfer subfunc drive g sector nsec segment w :
  ∃ r w',
    biosdisk fw sh subfunc drive g sector nsec segment w = Some (r, w') ∧
    ((r = -1 ∧ w' = w ∧
      (get_device_from_drive sh drive w = Some (None, w) ∨
       (subfunc ≠ BIOSDISK_READ sh ∧ subfunc ≠ BIOSDISK_WRITE sh))) ∨
     (r = 0 ∧ ∃ d t,
        get_device_from_drive sh drive w = Some (Some d, w) ∧
        (subfunc = BIOSDISK_READ sh ∨ subfunc = BIOSDISK_WRITE sh) ∧
        w' = set_io_log (t :: io_log w) w ∧
        t_service t = (if subfunc =? BIOSDISK_READ sh then dio_read else dio_write) ∧
        t_this t = disk_io d ∧
        t_media_id t = media_id (media (block_io d)) ∧
        t_buffer t = u64 (Z.shiftl (u64 segment) 4))).
Proof.
  unfold biosdisk. rewrite bind_eq.
  destruct (get_device_from_drive_pure sh drive w) as [[d|] Hd]; rewrite Hd.
  2:{ exists (-1), w. split; [done|]. left. split; [done|]. split; [done|].
      by left. }
  destruct (Z.eqb_spec subfunc (BIOSDISK_READ sh)) as [Hr|Hr].
  { rewrite bind_eq, grub_efidisk_read_spec. cbv zeta.
    eexists 0, _. split; [reflexivity|].
    right. split; [done|]. eexists d, _. split; [done|]. split; [by left|].
    split; [reflexivity|]. done. }
  destruct (Z.eqb_spec subfunc (BIOSDISK_WRITE sh)) as [Hw|Hw].
  { rewrite bind_eq, grub_efidisk_write_spec. cbv zeta.
    eexists 0, _. split; [reflexivity|].
    right. split; [done|]. eexists d, _. split; [done|]. split; [by right|].
    split; [reflexivity|]. done. }
  exists (-1), w. split; [done|]. left. split; [done|]. split; [done|].
  by right.
Qed.

End DriveNumbers.

Section DriveNumbersExamples.

Lemma get_diskinfo_chs_capacity_witness :
  ∃ g', get_diskinfo Examples.sh0 0x80
          {| cylinders := 0; heads := 0; sectors := 0; total_sectors := 0;
             sector_size := 0; flags := 0 |}
          (set_hd_devices [Examples.dev_a] (Examples.world0 Examples.mem0 []))
        = Some ((0, g'),
                set_hd_devices [Examples.dev_a] (Examples.world0 Examples.mem0 [])) ∧
        chs_capacity g' ≤ total_sectors g'
          < chs_capacity g' + heads g' * sectors g'.
Proof.
  destruct (get_diskinfo_chs_capacity Examples.sh0 0x80 Examples.dev_a
              {| cylinders := 0; heads := 0; sectors := 0; total_sectors := 0;
                 sector_size := 0; flags := 0 |}
              (set_hd_devices [Examples.dev_a] (Examples.world0 Examples.mem0 []))
              eq_refl)
    as (g' & E & _ & _ & H & _).
  by exists g'.
Defined.

End DriveNumbersExamples.

(** * Insertion and lookup *)

Section InsertionShape.

Lemma add_device_shape l d w l' w' :
  add_device l d w = Some (l', w') →
  (l' = l ∧ w' = w ∧ ∃ e, e ∈ l ∧ add_device_order (mem w) e d = Some 0) ∨
  (∃ l1 l2 ok, l = l1 ++ l2 ∧ grub_malloc w = Some (ok, w') ∧
               l' = if (ok : bool) then l1 ++ d :: l2 else l).
Proof.
  revert l'. induction l as [|p l IH]; intros l'.
  - cbn [add_device]. rewrite add_device_link_eq.
    destruct (grub_malloc w) as [[ok w1]|] eqn:E; [|done].
    intros [= <- <-]. right. exists [], [], ok. by destruct ok.
  - rewrite add_device_cons.
    destruct (add_device_order (mem w) p d) as [ret|] eqn:Hret; [|done].
    destruct (Z.eqb_spec ret 0) as [-> | Hne].
    { intros [= <- <-]. left. split; [done|]. split; [done|].
      exists p. split; [by left|done]. }
    destruct (ret >? 0).
    + rewrite add_device_link_eq.
      destruct (grub_malloc w) as [[ok w1]|] eqn:E; [|done].
      intros [= <- <-]. right. exists [], (p :: l), ok. by destruct ok.
    + destruct (add_device l d w) as [[l1 w1]|] eqn:Hrec; [|done].
      intros [= <- <-].
      destruct (IH l1 eq_refl)
        as [(-> & -> & e & He & Hz) | (k1 & k2 & ok & -> & Hm & ->)].
      * left. split; [done|]. split; [done|]. exists e. split; [by right|done].
      * right. exists (p :: k1), k2, ok. split; [done|]. split; [done|].
        by destruct ok.
Qed.

(** X8: an insertion never removes or reorders entries, and allocates only
    for a device that is new.  On a list built by insertions and a device
    with a well-formed path [add_device] returns; the list after it is the
    list before, or the list before with the device put in at one place, so
    the drive number of an entry either stays or goes up by one.  When an
    entry of the list has the path of the device, the list and the state are
    returned as they were and nothing is allocated.  When no entry has it,
    one allocation is made: the device is put in when it succeeds and the
    list is returned as it was when it fails. *)
Theorem add_device_keeps_entries m l d w :
  mem w = m → inserted m l → wf_device m d →
  ∃ l' w', add_device l d w = Some (l', w') ∧
    l `sublist_of` l' ∧
    Forall (λ x, x ∈ l ∨ x = d) l' ∧
    ((∃ e, e ∈ l ∧ same_path m e d) → l' = l ∧ w' = w) ∧
    ((∀ e, e ∈ l → ¬ same_path m e d) →
     ∃ ok, grub_malloc w = Some (ok, w') ∧
           if (ok : bool)
           then ∃ l1 l2, l = l1 ++ l2 ∧ l' = l1 ++ d :: l2
           else l' = l).
Proof.
  intros <- Hl Hd. destruct (inserted_invariant _ _ Hl) as [Hwf Hs].
  destruct (add_device_sorted l d w Hwf Hd Hs) as (l' & w' & E & _ & _).
  exists l', w'. split; [done|].
  assert (Hdup : (∃ e, e ∈ l ∧ same_path (mem w) e d) → l' = l ∧ w' = w).
  { intros (e & He & Hsame).
    rewrite (add_device_duplicate l d w e Hwf Hd Hs He Hsame) in E.
    by injection E as <- <-. }
  apply add_device_shape in E
    as [(-> & -> & e & He & Hz) | (l1 & l2 & ok & -> & Hm & ->)].
  - split; [done|]. split; [apply Forall_forall; by left|]. split; [done|].
    intros Hnone. destruct (Hnone e He).
    apply same_path_order_zero; [|done..].
    rewrite Forall_forall in Hwf. by apply Hwf.
  - split; [|split; [|split; [done|]]].
    + destruct ok; [|done]. by apply sublist_app; [|apply sublist_cons].
    + apply Forall_forall. intros x Hx. destruct ok; [|by left].
      rewrite !elem_of_app, elem_of_cons in *. tauto.
    + intros _. exists ok. split; [done|]. destruct ok; [|done].
      by exists l1, l2.
Qed.

Lemma inserted_a : inserted Examples.mem0 [Examples.dev_a].
Proof.
  eapply (inserted_add Examples.mem0 [] Examples.dev_a
            (Examples.world0 Examples.mem0 []));
    [constructor|apply wf_dev_a|reflexivity|by vm_compute].
Qed.

Lemma add_device_keeps_entries_witness :
  ∃ l' w',
    add_device [Examples.dev_a] Examples.dev_b (Examples.world0 Examples.mem0 [])
      = Some (l', w') ∧
    [Examples.dev_a] `sublist_of` l' ∧
    Forall (λ x, x ∈ [Examples.dev_a] ∨ x = Examples.dev_b) l' ∧
    ((∃ e, e ∈ [Examples.dev_a] ∧ same_path Examples.mem0 e Examples.dev_b) →
     l' = [Examples.dev_a] ∧ w' = Examples.world0 Examples.mem0 []).
Proof.
  destruct (add_device_keeps_entries Examples.mem0 [Examples.dev_a]
              Examples.dev_b (Examples.world0 Examples.mem0 []))
    as (l' & w' & E & H1 & H2 & H3 & _).
  - reflexivity.
  - apply inserted_a.
  - apply wf_dev_b.
  - by exists l', w'.
Defined.

Lemma same_path_refl m d : wf_device m d → same_path m d d.
Proof.
  intros Hd. apply wf_device_key in Hd as (ns & leaf & t & Hk).
  unfold same_path. rewrite (compare_at_spec m d _ _ _ d _ _ _ Hk Hk).
  by rewrite nodes_cmp_refl.
Qed.

Lemma grub_malloc_nil w : heap w = [] → grub_malloc w = Some (true, w).
Proof. unfold grub_malloc. by intros ->. Qed.

(** An insertion into a list built by insertions: what is known of the
    result, whatever the allocator does, and when it has memory. *)
Lemma add_device_full m l d w :
  mem w = m → inserted m l → wf_device m d →
  ∃ l' w', add_device l d w = Some (l', w') ∧ inserted m l' ∧
           mem w' = mem w ∧ fd_devices w' = fd_devices w ∧
           hd_devices w' = hd_devices w ∧ cd_devices w' = cd_devices w ∧
           io_log w' = io_log w ∧
           l ⊆ l' ∧ Forall (λ x, x ∈ l ∨ x = d) l' ∧
           (head (heap w) ≠ Some false →
            (w' = w ∨ heap w' = tail (heap w)) ∧
            ∃ e, e ∈ l' ∧ same_path m e d) ∧
           (heap w = [] → w' = w).
Proof.
  intros <- Hl Hd. destruct (inserted_invariant _ _ Hl) as [Hwf Hs].
  destruct (add_device_sorted l d w Hwf Hd Hs) as (l' & w' & E & Hin & _).
  exists l', w'. split; [done|]. split; [by eapply inserted_add|].
  destruct (add_device_frame _ _ _ _ _ E) as (? & ? & ? & ? & ?).
  do 5 (split; [done|]). split; [|split; [done|]].
  { apply add_device_shape in E
      as [(-> & -> & _) | (l1 & l2 & ok & -> & Hm & ->)]; [done|].
    destruct ok; [|done]. intros x. rewrite !elem_of_app, elem_of_cons. tauto. }
  apply add_device_shape in E
    as [(-> & -> & e & He & Hz) | (l1 & l2 & ok & -> & Hm & ->)].
  - split; [|done]. intros _. split; [by left|]. exists e. split; [done|].
    apply same_path_order_zero; [|done..].
    rewrite Forall_forall in Hwf. by apply Hwf.
  - split.
    + intros Hh. unfold grub_malloc in Hm.
      destruct (heap w) as [|[] h] eqn:Eh; [| |done].
      * injection Hm as <- <-. split; [by left|].
        exists d. split; [|by apply same_path_refl].
        rewrite elem_of_app, elem_of_cons. tauto.
      * injection Hm as <- <-. split; [by right|].
        exists d. split; [|by apply same_path_refl].
        rewrite elem_of_app, elem_of_cons. tauto.
    + intros Hh. rewrite (grub_malloc_nil w Hh) in Hm. by injection Hm as <- <-.
Qed.

(** X9: a device that has just been inserted is found by its path.  After
    [add_device] on a list built by insertions, with memory for the node,
    the list has an entry with the path of the device, the device itself or
    the entry that was there with that path, and the search of
    [grub_get_drive_partition_from_bdev_handle] through the list arrives at
    an entry with that path and reports the drive number of its position. *)
Theorem add_device_then_find m l d dp drv w :
  mem w = m → inserted m l → wf_device m d → device_path d = Some dp →
  head (heap w) ≠ Some false →
  ∃ l' w' i e,
    add_device l d w = Some (l', w') ∧
    l' !! i = Some e ∧ same_path m e d ∧
    find_whole_disk m l' drv (Some dp) = Some (Some (drv + Z.of_nat i)).
Proof.
  intros Hm Hl Hd Hdp Hh.
  destruct (add_device_full m l d w Hm Hl Hd)
    as (l' & w' & E & Hl' & _ & _ & _ & _ & _ & _ & _ & Hok & _).
  destruct (Hok Hh) as (_ & e & He & Hsame).
  destruct (inserted_invariant _ _ Hl') as [Hwf' _].
  destruct Hd as (ns & t & Hns & _). unfold dev_nodes in Hns.
  rewrite Hdp in Hns. cbn [mbind option_bind] in Hns.
  assert (Hfound : has_path m dp e).
  { unfold has_path. unfold same_path in Hsame. by rewrite Hdp in Hsame. }
  destruct (list_find_elem_of (has_path m dp) l' e He Hfound) as [[i e'] Hfind].
  apply list_find_Some in Hfind as Hf. destruct Hf as (Hi & Hp' & _).
  exists l', w', i, e'. split; [done|]. split; [done|]. split.
  - unfold same_path. rewrite Hdp. exact Hp'.
  - rewrite (find_whole_disk_spec m l' drv dp ns t Hwf' Hns), Hfind. done.
Qed.

Lemma add_device_then_find_witness :
  ∃ l' w' i e,
    add_device [Examples.dev_a] Examples.dev_b (Examples.world0 Examples.mem0 [])
      = Some (l', w') ∧
    l' !! i = Some e ∧ same_path Examples.mem0 e Examples.dev_b ∧
    find_whole_disk Examples.mem0 l' 0x80 (Some (Ptr 2 0))
      = Some (Some (0x80 + Z.of_nat i)).
Proof.
  apply (add_device_then_find Examples.mem0 [Examples.dev_a] Examples.dev_b).
  - reflexivity.
  - apply inserted_a.
  - apply wf_dev_b.
  - reflexivity.
  - discriminate.
Defined.

End InsertionShape.

(** * Enumeration *)

Section Enumeration.

Variable fw : firmware.

(** One turn of the loop of [make_devices], on a machine with well-formed
    device paths. *)
Lemma make_devices_loop_cons h handles acc w :
  wf_firmware fw (mem w) →
  make_devices_loop fw (h :: handles) acc w =
  match device_of_handle fw (mem w) h with
  | None => make_devices_loop fw handles acc w
  | Some d =>
    match grub_malloc w with
    | Some (true, w') => make_devices_loop fw handles (d :: acc) w'
    | Some (false, w') => Some ([], w')
    | None => None
    end
  end.
Proof.
  intros Hfw. cbn [make_devices_loop]. unfold device_of_handle.
  destruct (grub_efi_get_device_path fw h) as [p|] eqn:Hp;
    cbn [mbind option_bind]; [|done].
  destruct (Hfw h p Hp) as (ns & t & Hns).
  apply path_nodes_sound in Hns as [Hwf [r Hr]].
  rewrite bind_eq. cbn [gets]. rewrite bind_eq.
  unfold find_last_at. cbn [mbind option_bind]. rewrite Hr.
  destruct ns as [|leaf ns _] using rev_ind.
  { unfold path_bytes. cbn [concat app].
    rewrite find_last_device_path_empty by apply Hwf. done. }
  rewrite find_last_device_path_spec by done. cbn [mbind option_bind lift].
  destruct (open_block_io fw h) as [bio|]; cbn [mbind option_bind]; [|done].
  destruct (open_disk_io fw h) as [dio|]; cbn [mbind option_bind]; [|done].
  rewrite bind_eq. by destruct (grub_malloc w) as [[[] w1]|].
Qed.

Lemma device_of_handle_enumerated m h d :
  wf_firmware fw m → device_of_handle fw m h = Some d →
  enumerated m d ∧ handle d = h ∧
  device_path d = grub_efi_get_device_path fw h ∧
  open_block_io fw h = Some (block_io d) ∧
  open_disk_io fw h = Some (disk_io d).
Proof.
  intros Hfw. unfold device_of_handle.
  destruct (grub_efi_get_device_path fw h) as [p|] eqn:Hp;
    cbn [mbind option_bind]; [|done].
  destruct (Hfw h p Hp) as (ns & t & Hns).
  apply path_nodes_sound in Hns as [Hwf [r Hr]].
  unfold find_last_at. cbn [mbind option_bind]. rewrite Hr.
  destruct ns as [|leaf ns _] using rev_ind.
  { unfold path_bytes. cbn [concat app].
    rewrite find_last_device_path_empty by apply Hwf. done. }
  rewrite find_last_device_path_spec by done. cbn [mbind option_bind].
  destruct (open_block_io fw h) as [bio|]; cbn [mbind option_bind]; [|done].
  destruct (open_disk_io fw h) as [dio|]; cbn [mbind option_bind]; [|done].
  intros [= <-]. cbn. split; [|done]. by exists p, ns, leaf, t, r.
Qed.

Lemma device_of_handle_is_Some m h p ns leaf t bio dio :
  grub_efi_get_device_path fw h = Some p →
  path_nodes (deref m p) = Some (ns ++ [leaf], t) →
  open_block_io fw h = Some bio → open_disk_io fw h = Some dio →
  device_of_handle fw m h
    = Some {| handle := h; device_path := Some p;
              last_device_path := Some (ptr_add p (length (concat ns)));
              block_io := bio; disk_io := dio |}.
Proof.
  intros Hp Hns Hb Hd. unfold device_of_handle. rewrite Hp.
  cbn [mbind option_bind].
  apply path_nodes_sound in Hns as [Hwf [r Hr]].
  unfold find_last_at. cbn [mbind option_bind]. rewrite Hr.
  rewrite find_last_device_path_spec by done. cbn [mbind option_bind].
  by rewrite Hb, Hd.
Qed.

Lemma devices_of_handles_enumerated m handles :
  wf_firmware fw m → Forall (enumerated m) (devices_of_handles fw m handles).
Proof.
  intros Hfw. apply Forall_forall. intros d Hd.
  apply list_elem_of_omap in Hd as (h & _ & Hd).
  by apply (device_of_handle_enumerated m h d Hfw) in Hd as [? _].
Qed.

Lemma make_devices_loop_general handles acc w :
  wf_firmware fw (mem w) →
  ∃ l w', make_devices_loop fw handles acc w = Some (l, w') ∧
          mem w' = mem w ∧ fd_devices w' = fd_devices w ∧
          hd_devices w' = hd_devices w ∧ cd_devices w' = cd_devices w ∧
          io_log w' = io_log w ∧
          (l = [] ∨ l = reverse (devices_of_handles fw (mem w) handles) ++ acc) ∧
          (heap w = [] →
           l = reverse (devices_of_handles fw (mem w) handles) ++ acc ∧ w' = w).
Proof.
  revert acc w. induction handles as [|h handles IH]; intros acc w Hfw.
  { exists acc, w. repeat split; try done. by right. }
  rewrite make_devices_loop_cons by done.
  unfold devices_of_handles in *. cbn [omap list_omap].
  destruct (device_of_handle fw (mem w) h) as [d|]; [|by apply IH].
  destruct (grub_malloc_total w) as (ok & w1 & Hm). rewrite Hm.
  destruct (grub_malloc_frame _ _ _ Hm) as (Hm1 & Hf1 & Hh1 & Hc1 & Hi1).
  destruct ok.
  - destruct (IH (d :: acc) w1) as (l & w' & E & ? & ? & ? & ? & ? & Hl & Hnil).
    { by rewrite Hm1. }
    exists l, w'. rewrite E. rewrite Hm1 in Hl, Hnil.
    rewrite reverse_cons, <- app_assoc. cbn [app].
    do 6 (split; [congruence|]). split; [done|].
    intros Hh. rewrite (grub_malloc_nil w Hh) in Hm. injection Hm as <-.
    by apply Hnil.
  - exists [], w1. do 6 (split; [done|]). split; [by left|].
    intros Hh. by rewrite (grub_malloc_nil w Hh) in Hm.
Qed.

(** X10: with memory for every record, [make_devices] returns one record
    for each handle of the disk-I/O protocol that has a device path with at
    least one node before the end node and both protocols, in the reverse
    of the order of the handles, and leaves the state as it is.  The record
    of a handle holds the handle, its device path, a pointer to the last node
    of the path and the two protocols. *)
Theorem make_devices_reverse_order handles w :
  wf_firmware fw (mem w) → heap w = [] →
  grub_efi_locate_handle fw = Some handles →
  make_devices fw w
    = Some (reverse (devices_of_handles fw (mem w) handles), w) ∧
  (∀ d, d ∈ devices_of_handles fw (mem w) handles →
     handle d ∈ handles ∧ enumerated (mem w) d ∧
     device_path d = grub_efi_get_device_path fw (handle d) ∧
     open_block_io fw (handle d) = Some (block_io d) ∧
     open_disk_io fw (handle d) = Some (disk_io d)) ∧
  (∀ h p ns leaf t bio dio,
     h ∈ handles → grub_efi_get_device_path fw h = Some p →
     path_nodes (deref (mem w) p) = Some (ns ++ [leaf], t) →
     open_block_io fw h = Some bio → open_disk_io fw h = Some dio →
     ∃ d, d ∈ devices_of_handles fw (mem w) handles ∧ handle d = h).
Proof.
  intros Hfw Hh Hloc. split; [|split].
  - unfold make_devices. rewrite Hloc.
    destruct (make_devices_loop_general handles [] w Hfw)
      as (l & w' & E & _ & _ & _ & _ & _ & _ & Hnil).
    destruct (Hnil Hh) as [-> ->]. by rewrite app_nil_r in E.
  - intros d Hd. apply list_elem_of_omap in Hd as (h & Hin & Hd).
    destruct (device_of_handle_enumerated _ h d Hfw Hd) as (? & <- & ? & ? & ?).
    done.
  - intros h p ns leaf t bio dio Hin Hp Hns Hb Hd. eexists. split.
    + apply list_elem_of_omap. exists h. split; [done|].
      by eapply device_of_handle_is_Some.
    + done.
Qed.

Lemma make_devices_loop_nomem handles acc k h w :
  wf_firmware fw (mem w) → heap w = replicate k true ++ false :: h →
  (k < length (devices_of_handles fw (mem w) handles))%nat →
  make_devices_loop fw handles acc w = Some ([], set_heap h w).
Proof.
  revert acc k w. induction handles as [|x handles IH]; intros acc k w Hfw Hh Hk.
  { cbn in Hk. lia. }
  rewrite make_devices_loop_cons by done.
  unfold devices_of_handles in *. cbn [omap list_omap] in Hk.
  destruct (device_of_handle fw (mem w) x) as [d|]; [|by apply (IH acc k)].
  unfold grub_malloc. rewrite Hh. destruct k as [|k]; cbn [replicate app]; [done|].
  rewrite (IH (d :: acc) k (set_heap (replicate k true ++ false :: h) w));
    try done.
  cbn in Hk. cbn [set_heap mem]. lia.
Qed.

(** X11: when the allocation of a device record fails, [make_devices]
    returns the null pointer, whatever it has built up to then, and
    [grub_efidisk_init] returns without a device in any list: one failed
    allocation among those of the records costs all the drives, those found
    before it too. *)
Theorem make_devices_allocation_failure handles k h w :
  wf_firmware fw (mem w) → grub_efi_locate_handle fw = Some handles →
  heap w = replicate k true ++ false :: h →
  (k < length (devices_of_handles fw (mem w) handles))%nat →
  make_devices fw w = Some ([], set_heap h w) ∧
  grub_efidisk_init fw w = Some (tt, set_heap h w).
Proof.
  intros Hfw Hloc Hh Hk.
  assert (E : make_devices fw w = Some ([], set_heap h w)).
  { unfold make_devices. rewrite Hloc. by eapply make_devices_loop_nomem. }
  split; [done|].
  unfold grub_efidisk_init, enumerate_disks. by rewrite bind_eq, E.
Qed.

End Enumeration.

(** * Initialisation, device by device *)

Section InitialisationResult.

Variable fw : firmware.

Lemma category_list_set_eq c l w :
  category_list c (set_category_list c l w) = l.
Proof. by destruct c. Qed.

Lemma category_list_set_ne c c' l w :
  c' ≠ c → category_list c' (set_category_list c l w) = category_list c' w.
Proof. by destruct c, c'. Qed.

Lemma category_list_frame c w w' :
  fd_devices w' = fd_devices w → hd_devices w' = hd_devices w →
  cd_devices w' = cd_devices w → category_list c w' = category_list c w.
Proof. by destruct c. Qed.

Lemma set_category_list_id c w : set_category_list c (category_list c w) w = w.
Proof. by destruct c, w. Qed.

Lemma lists_inserted_category m w :
  lists_inserted m w ↔ ∀ c, inserted m (category_list c w).
Proof.
  split.
  - intros (? & ? & ?) []; done.
  - intros H. split; [apply (H floppy)|split; [apply (H hard_disk)|apply (H optical)]].
Qed.

(** What the body of the loop of [name_devices] does with a device of
    [make_devices]: one insertion, into the list of its category. *)
Lemma name_device_eq d w :
  enumerated (mem w) d →
  name_device d w =
  match category_of (mem w) d with
  | Some c =>
    match add_device (category_list c w) d w with
    | Some (l, w') => Some (tt, set_category_list c l w')
    | None => None
    end
  | None => Some (tt, w)
  end.
Proof.
  intros Hd. destruct (leaf_type_read _ _ Hd) as (q & leaf & Hq & Hty).
  unfold name_device. rewrite Hq.
  unfold mbind, M_bind, load, gets, lift, modify, mret, M_ret. rewrite Hty.
  unfold category_of. rewrite Hq. cbn [mbind option_bind]. rewrite Hty.
  cbn [mbind option_bind].
  destruct (Z.eqb_spec (node_type leaf) GRUB_EFI_MESSAGING_DEVICE_PATH_TYPE)
    as [E|E].
  - rewrite E.
    change (GRUB_EFI_MESSAGING_DEVICE_PATH_TYPE =? GRUB_EFI_ACPI_DEVICE_PATH_TYPE)
      with false.
    destruct (read_only (media (block_io d)) &&
              (block_size (media (block_io d)) >? SECTOR_SIZE)); cbn.
    + by destruct (add_device (cd_devices w) d w) as [[? ?]|].
    + by destruct (add_device (hd_devices w) d w) as [[? ?]|].
  - destruct (node_type leaf =? GRUB_EFI_ACPI_DEVICE_PATH_TYPE); cbn; [|done].
    by destruct (add_device (fd_devices w) d w) as [[? ?]|].
Qed.

Lemma name_device_full d w :
  enumerated (mem w) d → lists_inserted (mem w) w →
  ∃ w', name_device d w = Some (tt, w') ∧ mem w' = mem w ∧
        io_log w' = io_log w ∧ lists_inserted (mem w) w' ∧
        (∀ c, category_list c w ⊆ category_list c w') ∧
        (∀ c e, e ∈ category_list c w' →
                e ∈ category_list c w ∨ (e = d ∧ category_of (mem w) d = Some c)) ∧
        (heap w = [] →
         heap w' = [] ∧
         ∀ c, category_of (mem w) d = Some c →
              ∃ e, e ∈ category_list c w' ∧ same_path (mem w) e d).
Proof.
  intros Hd Hw. rewrite name_device_eq by done.
  destruct (category_of (mem w) d) as [c|] eqn:Hc.
  2:{ exists w. do 4 (split; [done|]). split; [done|]. split; [by left|].
      intros Hh. split; [done|]. by intros c. }
  pose proof (proj1 (lists_inserted_category _ _) Hw) as Hins.
  destruct (add_device_full (mem w) (category_list c w) d w eq_refl (Hins c)
              (enumerated_wf _ _ Hd))
    as (l & w1 & E & Hl & Hm1 & Hf1 & Hh1 & Hc1 & Hi1 & Hsub & Hall & Hok & Hnil).
  rewrite E. exists (set_category_list c l w1).
  assert (Hother : ∀ c', c' ≠ c →
            category_list c' (set_category_list c l w1) = category_list c' w).
  { intros c' Hne. rewrite category_list_set_ne by done.
    by apply category_list_frame. }
  split; [done|]. split; [by destruct c|]. split; [by destruct c|].
  split; [|split; [|split]].
  - apply lists_inserted_category. intros c'.
    destruct (decide (c' = c)) as [-> | Hne].
    + by rewrite category_list_set_eq.
    + rewrite Hother by done. apply Hins.
  - intros c'. destruct (decide (c' = c)) as [-> | Hne].
    + by rewrite category_list_set_eq.
    + by rewrite Hother.
  - intros c' e. destruct (decide (c' = c)) as [-> | Hne].
    + rewrite category_list_set_eq. intros He.
      rewrite Forall_forall in Hall. destruct (Hall e He) as [? | ->];
        [by left|by right].
    + rewrite Hother by done. by left.
  - intros Hh. rewrite (Hnil Hh). split; [by destruct c|].
    intros c' [= <-]. rewrite category_list_set_eq.
    apply Hok. by rewrite Hh.
Qed.

Lemma name_devices_full devices w :
  Forall (enumerated (mem w)) devices → lists_inserted (mem w) w →
  ∃ w', name_devices devices w = Some (tt, w') ∧ mem w' = mem w ∧
        io_log w' = io_log w ∧ lists_inserted (mem w) w' ∧
        (∀ c, category_list c w ⊆ category_list c w') ∧
        (∀ c e, e ∈ category_list c w' →
                e ∈ category_list c w ∨
                (e ∈ devices ∧ category_of (mem w) e = Some c)) ∧
        (heap w = [] →
         heap w' = [] ∧
         ∀ d c, d ∈ devices → category_of (mem w) d = Some c →
                ∃ e, e ∈ category_list c w' ∧ same_path (mem w) e d).
Proof.
  intros Hds. revert w Hds.
  induction devices as [|d devices IH]; intros w Hds Hw.
  { exists w. do 4 (split; [done|]). split; [done|]. split; [by left|].
    intros Hh. split; [done|]. intros d c Hd. by apply elem_of_nil in Hd. }
  apply Forall_cons in Hds as [Hd Hds]. cbn [name_devices]. rewrite bind_eq.
  destruct (name_device_full d w Hd Hw)
    as (w1 & -> & Hm1 & Hi1 & Hw1 & Hsub1 & Hsound1 & Hheap1).
  rewrite <- Hm1 in Hds, Hw1.
  destruct (IH w1 Hds Hw1) as (w' & E & Hm' & Hi' & Hw' & Hsub & Hsound & Hheap).
  rewrite Hm1 in Hm', Hw', Hsound, Hheap.
  exists w'. split; [done|]. split; [done|]. split; [congruence|].
  split; [done|]. split; [|split].
  - intros c. by transitivity (category_list c w1).
  - intros c e He. destruct (Hsound c e He) as [He1 | [He1 Hc]].
    + destruct (Hsound1 c e He1) as [? | [-> Hc]]; [by left|].
      right. split; [by left|done].
    + right. split; [by right|done].
  - intros Hh. destruct (Hheap1 Hh) as [Hh1 Hd1].
    destruct (Hheap Hh1) as [Hh' Hds']. split; [done|].
    intros d0 c Hin Hc. apply elem_of_cons in Hin as [-> | Hin].
    + destruct (Hd1 c Hc) as (e & He & Hsame). exists e. split; [|done].
      by apply Hsub.
    + by apply Hds'.
Qed.

Lemma grub_efidisk_init_full handles w :
  wf_firmware fw (mem w) → lists_inserted (mem w) w →
  grub_efi_locate_handle fw = Some handles →
  ∃ w', grub_efidisk_init fw w = Some (tt, w') ∧ mem w' = mem w ∧
        io_log w' = io_log w ∧ lists_inserted (mem w) w' ∧
        (∀ c, category_list c w ⊆ category_list c w') ∧
        (∀ c e, e ∈ category_list c w' →
                e ∈ category_list c w ∨
                (e ∈ devices_of_handles fw (mem w) handles ∧
                 category_of (mem w) e = Some c)) ∧
        (heap w = [] →
         heap w' = [] ∧
         ∀ d c, d ∈ devices_of_handles fw (mem w) handles →
                category_of (mem w) d = Some c →
                ∃ e, e ∈ category_list c w' ∧ same_path (mem w) e d).
Proof.
  intros Hfw Hw Hloc. unfold grub_efidisk_init, enumerate_disks, make_devices.
  rewrite Hloc, bind_eq.
  destruct (make_devices_loop_general fw handles [] w Hfw)
    as (l & w1 & -> & Hm1 & Hf1 & Hh1 & Hc1 & Hi1 & Hl & Hnil).
  rewrite app_nil_r in Hl, Hnil.
  assert (Hcat : ∀ c, category_list c w1 = category_list c w).
  { intros c. by apply category_list_frame. }
  assert (Hw1 : lists_inserted (mem w1) w1).
  { rewrite Hm1. apply lists_inserted_category. intros c. rewrite Hcat.
    by apply (proj1 (lists_inserted_category _ _)). }
  assert (Hen : Forall (enumerated (mem w1)) l).
  { rewrite Hm1. destruct Hl as [-> | ->]; [constructor|].
    apply Forall_reverse. by apply devices_of_handles_enumerated. }
  assert (Hin : ∀ e, e ∈ l → e ∈ devices_of_handles fw (mem w) handles).
  { intros e. destruct Hl as [-> | ->]; [by intros ?%elem_of_nil|].
    by rewrite elem_of_reverse. }
  destruct (name_devices_full l w1 Hen Hw1)
    as (w' & E & Hm' & Hi' & Hw' & Hsub & Hsound & Hheap).
  rewrite Hm1 in Hm', Hw', Hsound, Hheap.
  assert (Hrun : match l with
                 | [] => mret tt
                 | _ :: _ => name_devices l;; free_devices l
                 end w1 = Some (tt, w')).
  { destruct l as [|d l]; [exact E|]. by rewrite bind_eq, E. }
  rewrite Hrun. exists w'. split; [done|]. split; [done|].
  split; [congruence|]. split; [done|]. split; [|split].
  - intros c. rewrite <- Hcat. apply Hsub.
  - intros c e He. destruct (Hsound c e He) as [He1 | [He1 Hc]].
    + left. by rewrite <- Hcat.
    + right. split; [by apply Hin|done].
  - intros Hh. destruct (Hnil Hh) as [-> ->].
    destruct (Hheap Hh) as [Hh' Hds]. split; [done|].
    intros d c Hd Hc. apply (Hds d c); [|done]. by rewrite elem_of_reverse.
Qed.

(** X12: with memory for every record and list node, initialisation on a
    machine with well-formed device paths gives every disk a place: for each
    handle of the disk-I/O protocol that [make_devices] has a record for, and
    whose last node and media put it in a category, the list of that
    category holds, after [grub_efidisk_init], an entry with the device path
    of the handle.  The entries that were in the lists stay. *)
Theorem grub_efidisk_init_lists_every_device handles w :
  wf_firmware fw (mem w) → lists_inserted (mem w) w → heap w = [] →
  grub_efi_locate_handle fw = Some handles →
  ∃ w', grub_efidisk_init fw w = Some (tt, w') ∧
        (∀ c, category_list c w ⊆ category_list c w') ∧
        ∀ h d c, h ∈ handles → device_of_handle fw (mem w) h = Some d →
                 category_of (mem w) d = Some c →
                 ∃ e, e ∈ category_list c w' ∧ same_path (mem w) e d.
Proof.
  intros Hfw Hw Hh Hloc.
  destruct (grub_efidisk_init_full handles w Hfw Hw Hloc)
    as (w' & E & _ & _ & _ & Hsub & _ & Hheap).
  exists w'. split; [done|]. split; [done|].
  intros h d c Hin Hd Hc. destruct (Hheap Hh) as [_ H]. apply (H d c); [|done].
  apply list_elem_of_omap. by exists h.
Qed.

(** X13: initialisation puts nothing in a list that does not belong there,
    whatever the allocator does.  An entry of a list after
    [grub_efidisk_init] was in that list before, or it is the record of a
    handle of the disk-I/O protocol and the list is the one of its category:
    the floppy list for an ACPI last node, and for a messaging last node
    the optical list when the media is read-only with blocks of more than
    512 bytes and the hard-disk list otherwise.  The memory and the log of
    transfers are as before. *)
Theorem grub_efidisk_init_lists_by_category handles w :
  wf_firmware fw (mem w) → lists_inserted (mem w) w →
  grub_efi_locate_handle fw = Some handles →
  ∃ w', grub_efidisk_init fw w = Some (tt, w') ∧
        mem w' = mem w ∧ io_log w' = io_log w ∧
        ∀ c e, e ∈ category_list c w' →
               e ∈ category_list c w ∨
               ((∃ h, h ∈ handles ∧ device_of_handle fw (mem w) h = Some e) ∧
                category_of (mem w) e = Some c).
Proof.
  intros Hfw Hw Hloc.
  destruct (grub_efidisk_init_full handles w Hfw Hw Hloc)
    as (w' & E & Hm & Hi & _ & _ & Hsound & _).
  exists w'. do 3 (split; [done|]). intros c e He.
  destruct (Hsound c e He) as [? | [Hd Hc]]; [by left|]. right.
  split; [|done]. by apply list_elem_of_omap in Hd.
Qed.

Lemma name_devices_noop devices w :
  Forall (enumerated (mem w)) devices → lists_inserted (mem w) w →
  (∀ d c, d ∈ devices → category_of (mem w) d = Some c →
          ∃ e, e ∈ category_list c w ∧ same_path (mem w) e d) →
  name_devices devices w = Some (tt, w).
Proof.
  intros Hds Hw Hall. induction Hds as [|d devices Hd Hds IH]; [done|].
  cbn [name_devices]. rewrite bind_eq, name_device_eq by done.
  assert (Hstep : match category_of (mem w) d with
                  | Some c =>
                    match add_device (category_list c w) d w with
                    | Some (l, w') => Some (tt, set_category_list c l w')
                    | None => None
                    end
                  | None => Some (tt, w)
                  end = Some (tt, w)).
  { destruct (category_of (mem w) d) as [c|] eqn:Hc; [|done].
    destruct (Hall d c) as (e & He & Hsame); [by left|done|].
    pose proof (proj1 (lists_inserted_category _ _) Hw) as Hins.
    destruct (inserted_invariant _ _ (Hins c)) as [Hwf Hs].
    rewrite (add_device_duplicate _ d w e Hwf (enumerated_wf _ _ Hd) Hs He Hsame).
    by rewrite set_category_list_id. }
  rewrite Hstep. apply IH. intros d0 c Hin. apply Hall. by right.
Qed.

(** X14: initialisation a second time changes nothing.  With memory for
    every record and list node, the state after [grub_efidisk_init] is a
    state that [grub_efidisk_init] leaves as it is: every device it
    enumerates again is in its list already and is not inserted twice. *)
Theorem grub_efidisk_init_idempotent w :
  wf_firmware fw (mem w) → lists_inserted (mem w) w → heap w = [] →
  ∃ w', grub_efidisk_init fw w = Some (tt, w') ∧
        grub_efidisk_init fw w' = Some (tt, w').
Proof.
  intros Hfw Hw Hh.
  destruct (grub_efi_locate_handle fw) as [handles|] eqn:Hloc.
  2:{ exists w. unfold grub_efidisk_init, enumerate_disks, make_devices.
      by rewrite Hloc. }
  destruct (grub_efidisk_init_full handles w Hfw Hw Hloc)
    as (w' & E & Hm & _ & Hw' & _ & _ & Hheap).
  destruct (Hheap Hh) as [Hh' Hall].
  exists w'. split; [done|].
  unfold grub_efidisk_init, enumerate_disks, make_devices.
  rewrite Hloc, bind_eq. rewrite <- Hm in Hfw, Hw', Hall.
  destruct (make_devices_loop_general fw handles [] w' Hfw)
    as (l & w1 & -> & _ & _ & _ & _ & _ & _ & Hnil).
  destruct (Hnil Hh') as [-> ->]. rewrite app_nil_r.
  assert (Hno : name_devices (reverse (devices_of_handles fw (mem w') handles)) w'
                = Some (tt, w')).
  { apply name_devices_noop; [|done|].
    - apply Forall_reverse. by apply devices_of_handles_enumerated.
    - intros d c Hd. apply Hall. by rewrite elem_of_reverse in Hd. }
  destruct (reverse (devices_of_handles fw (mem w') handles)); [done|].
  by rewrite bind_eq, Hno.
Qed.

End InitialisationResult.

Section EnumerationExamples.

Import Examples.

(** A machine with two disks (handles 1 and 2), a partition of the first
    (handle 3) and a floppy drive (handle 6). *)
Lemma wf_firmware_machine_of hs bio table :
  wf_firmware (machine_of [1; 2; 3; 6]%N hs bio table) mem0.
Proof.
  intros h p. cbn. case_decide as Hin; [|done]. intros [= <-].
  repeat (apply elem_of_cons in Hin as [-> | Hin]);
    try (eexists _, _; vm_compute; reflexivity).
  by apply elem_of_nil in Hin.
Qed.

Lemma lists_inserted_world0 m h : lists_inserted m (world0 m h).
Proof. repeat split; constructor. Qed.

Lemma make_devices_reverse_order_witness :
  let fw := machine_of [1; 2; 3; 6]%N [1; 2; 3; 6]%N hard_disk_media (λ _, []) in
  make_devices fw (world0 mem0 [])
  = Some (reverse (devices_of_handles fw mem0 [1; 2; 3; 6]%N), world0 mem0 []).
Proof.
  exact (proj1 (make_devices_reverse_order
                  (machine_of [1; 2; 3; 6]%N [1; 2; 3; 6]%N hard_disk_media (λ _, []))
                  [1; 2; 3; 6]%N (world0 mem0 [])
                  (wf_firmware_machine_of _ _ _) eq_refl eq_refl)).
Defined.

Lemma make_devices_allocation_failure_witness :
  let fw := machine_of [1; 2; 3; 6]%N [1; 2; 3; 6]%N hard_disk_media (λ _, []) in
  make_devices fw (world0 mem0 [true; false]) = Some ([], world0 mem0 []) ∧
  grub_efidisk_init fw (world0 mem0 [true; false]) = Some (tt, world0 mem0 []).
Proof.
  apply (make_devices_allocation_failure
           (machine_of [1; 2; 3; 6]%N [1; 2; 3; 6]%N hard_disk_media (λ _, []))
           [1; 2; 3; 6]%N 1 [] (world0 mem0 [true; false])).
  - apply wf_firmware_machine_of.
  - reflexivity.
  - reflexivity.
  - vm_compute. lia.
Defined.

Lemma grub_efidisk_init_lists_every_device_witness :
  let fw := machine_of [1; 2; 3; 6]%N [1; 2; 3; 6]%N hard_disk_media (λ _, []) in
  ∃ w', grub_efidisk_init fw (world0 mem0 []) = Some (tt, w') ∧
        (∀ c, category_list c (world0 mem0 []) ⊆ category_list c w') ∧
        ∀ h d c, h ∈ [1; 2; 3; 6]%N → device_of_handle fw mem0 h = Some d →
                 category_of mem0 d = Some c →
                 ∃ e, e ∈ category_list c w' ∧ same_path mem0 e d.
Proof.
  apply (grub_efidisk_init_lists_every_device
           (machine_of [1; 2; 3; 6]%N [1; 2; 3; 6]%N hard_disk_media (λ _, []))
           [1; 2; 3; 6]%N (world0 mem0 [])).
  - apply wf_firmware_machine_of.
  - apply lists_inserted_world0.
  - reflexivity.
  - reflexivity.
Defined.

Lemma grub_efidisk_init_lists_by_category_witness :
  let fw := machine_of [1; 2; 3; 6]%N [1; 2; 3; 6]%N hard_disk_media (λ _, []) in
  ∃ w', grub_efidisk_init fw (world0 mem0 [true; true; false])
          = Some (tt, w') ∧
        mem w' = mem0 ∧ io_log w' = [] ∧
        ∀ c e, e ∈ category_list c w' →
               e ∈ category_list c (world0 mem0 [true; true; false]) ∨
               ((∃ h, h ∈ [1; 2; 3; 6]%N ∧ device_of_handle fw mem0 h = Some e) ∧
                category_of mem0 e = Some c).
Proof.
  apply (grub_efidisk_init_lists_by_category
           (machine_of [1; 2; 3; 6]%N [1; 2; 3; 6]%N hard_disk_media (λ _, []))
           [1; 2; 3; 6]%N (world0 mem0 [true; true; false])).
  - apply wf_firmware_machine_of.
  - apply lists_inserted_world0.
  - reflexivity.
Defined.

Lemma grub_efidisk_init_idempotent_witness :
  let fw := machine_of [1; 2; 3; 6]%N [1; 2; 3; 6]%N hard_disk_media (λ _, []) in
  ∃ w', grub_efidisk_init fw (world0 mem0 []) = Some (tt, w') ∧
        grub_efidisk_init fw w' = Some (tt, w').
Proof.
  apply (grub_efidisk_init_idempotent
           (machine_of [1; 2; 3; 6]%N [1; 2; 3; 6]%N hard_disk_media (λ _, []))
           (world0 mem0 [])).
  - apply wf_firmware_machine_of.
  - apply lists_inserted_world0.
  - reflexivity.
Defined.

(** The run behind the witnesses: the records in the reverse of the order
    of the handles, and the lists after initialisation, the two disks in the
    order of their last nodes and the partition in no list. *)
Example enumeration_example :
  let fw := machine_of [1; 2; 3; 6]%N [1; 2; 3; 6]%N hard_disk_media (λ _, []) in
  let w := world0 mem0 [] in
  make_devices fw w
    = Some ([device 6 18 hard_disk_media; device 3 28 hard_disk_media;
             dev_b; dev_a], w) ∧
  grub_efidisk_init fw w
    = Some (tt, set_fd_devices [device 6 18 hard_disk_media]
                  (set_hd_devices [dev_b; dev_a] w)).
Proof. repeat split; vm_compute; reflexivity. Qed.

End EnumerationExamples.

(** * Classification *)

Section Classification.

Lemma category_of_type m d p type :
  last_device_path d = Some p →
  GRUB_EFI_DEVICE_PATH_TYPE (deref m p) = Some type →
  category_of m d =
  if type =? GRUB_EFI_MESSAGING_DEVICE_PATH_TYPE
  then Some (if read_only (media (block_io d))
                && (block_size (media (block_io d)) >? SECTOR_SIZE)
             then optical else hard_disk)
  else if type =? GRUB_EFI_ACPI_DEVICE_PATH_TYPE then Some floppy
  else None.
Proof.
  intros Hp Hty. unfold category_of. rewrite Hp. cbn [mbind option_bind].
  by rewrite Hty.
Qed.

(** C6: the list a device goes to is decided by the type of its last node
    and by its media.  [name_devices], on the devices of [make_devices],
    with the three lists built by insertions and memory for every list node,
    returns, and every device has a last node whose type can be read.  If
    that type is messaging and the media is read-only with a block size
    above 512, the optical list holds an entry with the path of the device
    afterwards; for a messaging node otherwise, the hard-disk list does; for
    an ACPI node, the floppy list does; and the record of the device is in
    none of the other lists unless it was there before.  With any other type
    the record is in no list in which it was not before. *)
Theorem name_devices_classification devices w :
  Forall (enumerated (mem w)) devices → lists_inserted (mem w) w →
  heap w = [] →
  ∃ w', name_devices devices w = Some (tt, w') ∧
    ∀ d, d ∈ devices →
      ∃ p type,
        last_device_path d = Some p ∧
        GRUB_EFI_DEVICE_PATH_TYPE (deref (mem w) p) = Some type ∧
        let m := media (block_io d) in
        let listed l := ∃ e, e ∈ l ∧ same_path (mem w) e d in
        let not_added c := d ∈ category_list c w' → d ∈ category_list c w in
        (type = GRUB_EFI_MESSAGING_DEVICE_PATH_TYPE →
         read_only m = true → 512 < block_size m →
         listed (cd_devices w') ∧ not_added hard_disk ∧ not_added floppy) ∧
        (type = GRUB_EFI_MESSAGING_DEVICE_PATH_TYPE →
         read_only m = false ∨ block_size m ≤ 512 →
         listed (hd_devices w') ∧ not_added optical ∧ not_added floppy) ∧
        (type = GRUB_EFI_ACPI_DEVICE_PATH_TYPE →
         listed (fd_devices w') ∧ not_added optical ∧ not_added hard_disk) ∧
        (type ≠ GRUB_EFI_MESSAGING_DEVICE_PATH_TYPE →
         type ≠ GRUB_EFI_ACPI_DEVICE_PATH_TYPE →
         not_added optical ∧ not_added hard_disk ∧ not_added floppy).
Proof.
  intros Hds Hw Hh.
  destruct (name_devices_full devices w Hds Hw)
    as (w' & E & _ & _ & _ & _ & Hsound & Hheap).
  destruct (Hheap Hh) as [_ Hin].
  exists w'. split; [done|]. intros d Hd.
  rewrite Forall_forall in Hds.
  destruct (leaf_type_read _ _ (Hds d Hd)) as (p & leaf & Hp & Hty).
  exists p, (node_type leaf). split; [done|]. split; [done|].
  pose proof (category_of_type _ _ _ _ Hp Hty) as Hc.
  assert (Hnot : ∀ c, category_of (mem w) d ≠ Some c →
                      d ∈ category_list c w' → d ∈ category_list c w).
  { intros c Hne Hin'. by destruct (Hsound c d Hin') as [?|[_ ?]]. }
  cbv zeta. split; [|split; [|split]].
  - intros Hm Hro Hbs. rewrite Hm, Z.eqb_refl, Hro in Hc.
    destruct (Z.gtb_spec (block_size (media (block_io d))) SECTOR_SIZE);
      [|unfold SECTOR_SIZE in *; lia].
    cbn [andb] in Hc. split; [apply (Hin d optical Hd Hc)|].
    split; apply Hnot; by rewrite Hc.
  - intros Hm Hor. rewrite Hm, Z.eqb_refl in Hc.
    assert (read_only (media (block_io d)) &&
            (block_size (media (block_io d)) >? SECTOR_SIZE) = false) as Hf.
    { destruct Hor as [-> | Hle]; [done|]. apply andb_false_intro2.
      destruct (Z.gtb_spec (block_size (media (block_io d))) SECTOR_SIZE); [|done].
      unfold SECTOR_SIZE in *. lia. }
    rewrite Hf in Hc. split; [apply (Hin d hard_disk Hd Hc)|].
    split; apply Hnot; by rewrite Hc.
  - intros Hm. rewrite Hm in Hc.
    change (GRUB_EFI_ACPI_DEVICE_PATH_TYPE =? GRUB_EFI_MESSAGING_DEVICE_PATH_TYPE)
      with false in Hc.
    rewrite Z.eqb_refl in Hc. split; [apply (Hin d floppy Hd Hc)|].
    split; apply Hnot; by rewrite Hc.
  - intros H1 H2.
    destruct (Z.eqb_spec (node_type leaf) GRUB_EFI_MESSAGING_DEVICE_PATH_TYPE);
      [done|].
    destruct (Z.eqb_spec (node_type leaf) GRUB_EFI_ACPI_DEVICE_PATH_TYPE);
      [done|].
    repeat split; apply Hnot; by rewrite Hc.
Qed.

End Classification.

Section ClassificationExamples.

Import Examples.

Lemma name_devices_classification_witness :
  let fw := machine_of [1; 2; 3; 6]%N [1; 2; 3; 6]%N hard_disk_media (λ _, []) in
  let devices := devices_of_handles fw mem0 [1; 2; 3; 6]%N in
  ∃ w', name_devices devices (world0 mem0 []) = Some (tt, w') ∧
        (∃ e, e ∈ hd_devices w' ∧ same_path mem0 e dev_a) ∧
        (∃ e, e ∈ fd_devices w' ∧
              same_path mem0 e (device 6 18 hard_disk_media)) ∧
        device 3 28 hard_disk_media ∉ hd_devices w'.
Proof.
  destruct (name_devices_classification
              (devices_of_handles
                 (machine_of [1; 2; 3; 6]%N [1; 2; 3; 6]%N hard_disk_media (λ _, []))
                 mem0 [1; 2; 3; 6]%N)
              (world0 mem0 []))
    as (w' & E & H).
  - apply devices_of_handles_enumerated, wf_firmware_machine_of.
  - apply lists_inserted_world0.
  - reflexivity.
  - exists w'. split; [exact E|]. split; [|split].
    + destruct (H dev_a) as (p & type & Hp & Hty & _ & Hhd & _).
      { vm_compute. by left. }
      vm_compute in Hp. injection Hp as <-.
      vm_compute in Hty. injection Hty as <-.
      apply Hhd; [reflexivity|by left].
    + destruct (H (device 6 18 hard_disk_media))
        as (p & type & Hp & Hty & _ & _ & Hfd & _).
      { vm_compute. do 3 right. by left. }
      vm_compute in Hp. injection Hp as <-.
      vm_compute in Hty. injection Hty as <-.
      by apply Hfd.
    + destruct (H (device 3 28 hard_disk_media))
        as (p & type & Hp & Hty & _ & _ & _ & Hno).
      { vm_compute. do 2 right. by left. }
      vm_compute in Hp. injection Hp as <-.
      vm_compute in Hty. injection Hty as <-.
      intros Hin. destruct Hno as (_ & Hhd & _); [done|done|].
      apply Hhd in Hin. by apply elem_of_nil in Hin.
Defined.

End ClassificationExamples.

(** * The boot image of an optical disc *)

Section CdromNode.

Variable fw : firmware.
Variable sh : shared_h.

Lemma end_entire_reads r :
  GRUB_EFI_END_ENTIRE_DEVICE_PATH (END_ENTIRE_NODE ++ r) = Some true.
Proof. done. Qed.

Lemma cut_at_cdrom_cut ns1 cd ns2 t r fuel :
  wf_nodes (ns1 ++ cd :: ns2) t → Forall (λ n, ¬ cdrom_node n) ns1 →
  cdrom_node cd → (length ns1 < fuel)%nat →
  cut_at_cdrom fuel (path_bytes (ns1 ++ cd :: ns2) t ++ r)
  = Some (concat ns1 ++ END_ENTIRE_NODE ++ drop sizeof_device_path cd
            ++ concat ns2 ++ t ++ r).
Proof.
  intros [Hns Ht] Hncd [Hcd1 Hcd2]. revert fuel. unfold path_bytes.
  induction ns1 as [|n ns1 IH]; intros fuel Hf;
    (destruct fuel as [|fuel]; [simpl in Hf; lia|]);
    cbn [cut_at_cdrom concat app]; rewrite <- ?app_assoc.
  - apply Forall_cons in Hns as [[Hn _] _].
    destruct (node_app_reads cd (concat ns2 ++ t ++ r) Hn) as (HT & HS & _).
    rewrite HT, HS, Hcd1, Hcd2. cbn [mbind option_bind].
    rewrite !Z.eqb_refl. cbn [andb].
    pose proof (write_end_node_spec [] cd (concat ns2 ++ t ++ r)
                  (is_node_size cd Hn)) as Hw.
    cbn [app length] in Hw. rewrite Hw. cbn [mbind option_bind].
    by rewrite end_entire_reads.
  - cbn [app] in Hns. apply Forall_cons in Hns as [[Hn Hne] Hns].
    apply Forall_cons in Hncd as [Hn1 Hncd].
    destruct (node_app_reads n (concat (ns1 ++ cd :: ns2) ++ t ++ r) Hn)
      as (HT & HS & HL & HE & HD).
    rewrite HT, HS. cbn [mbind option_bind].
    assert ((node_type n =? GRUB_EFI_MEDIA_DEVICE_PATH_TYPE)
            && (node_subtype n =? GRUB_EFI_CDROM_DEVICE_PATH_SUBTYPE) = false) as ->.
    { apply not_true_is_false. intros H. apply andb_prop in H as [H1 H2].
      apply Hn1. split; by apply Z.eqb_eq. }
    cbn [mbind option_bind]. rewrite HE, Hne, HL. cbn [mbind option_bind].
    rewrite HD. specialize (IH Hns Hncd fuel). rewrite <- app_assoc in IH.
    rewrite IH by (simpl in Hf; lia). cbn [mbind option_bind].
    rewrite Nat2Z.id. by rewrite take_app_length.
Qed.

Lemma wf_nodes_cut ns1 cd ns2 t :
  wf_nodes (ns1 ++ cd :: ns2) t → wf_nodes ns1 END_ENTIRE_NODE ∧ is_node cd.
Proof.
  intros [Hns _]. apply Forall_app in Hns as [H1 H2].
  apply Forall_cons in H2 as [[Hcd _] _].
  split; [|done]. split; [done|apply end_entire_node_end].
Qed.

(** X15: the loop at the head of
    [grub_get_drive_partition_from_bdev_handle] cuts a device path at its
    first CD-ROM media node.  The four bytes of the header of that node are
    overwritten with an end node and every other byte of the buffer is as
    before, so the buffer then holds the path made of the nodes before the
    CD-ROM node; a second run of the loop changes nothing more. *)
Theorem cut_at_cdrom_truncates dp ns1 cd ns2 t :
  path_nodes dp = Some (ns1 ++ cd :: ns2, t) →
  Forall (λ n, ¬ cdrom_node n) ns1 → cdrom_node cd →
  ∃ dp', cut_at_cdrom (walk_fuel dp) dp = Some dp' ∧
         length dp' = length dp ∧
         path_nodes dp' = Some (ns1, END_ENTIRE_NODE) ∧
         (∀ i, (i < length (concat ns1) ∨ length (concat ns1) + 4 ≤ i)%nat →
               dp' !! i = dp !! i) ∧
         cut_at_cdrom (walk_fuel dp') dp' = Some dp'.
Proof.
  intros Hp Hncd Hcd. apply path_nodes_sound in Hp as [Hwf [r ->]].
  destruct (wf_nodes_cut _ _ _ _ Hwf) as [Hwf1 Hn].
  pose proof (is_node_size cd Hn) as Hsz. unfold sizeof_device_path in Hsz.
  eexists. split.
  { apply cut_at_cdrom_cut; [done..|].
    pose proof (walk_fuel_enough _ _ r Hwf) as Hf.
    rewrite length_app in Hf. cbn [length] in Hf. lia. }
  assert (Hcdsplit : cd = take 4 cd ++ drop 4 cd) by (by rewrite take_drop).
  assert (Hlen4 : length (take 4 cd) = 4%nat) by (rewrite length_take; lia).
  split; [|split; [|split]].
  - unfold path_bytes. rewrite concat_app. cbn [concat].
    rewrite !length_app, length_drop. cbn [length END_ENTIRE_NODE].
    unfold sizeof_device_path. lia.
  - rewrite (app_assoc (concat ns1)).
    change (concat ns1 ++ END_ENTIRE_NODE) with (path_bytes ns1 END_ENTIRE_NODE).
    by apply path_nodes_complete.
  - intros i Hi. unfold path_bytes. rewrite concat_app. cbn [concat].
    rewrite <- !app_assoc. destruct Hi as [Hi | Hi].
    + by rewrite !lookup_app_l by done.
    + rewrite !(lookup_app_r (concat ns1)) by lia.
      replace (cd ++ concat ns2 ++ t ++ r)
        with (take 4 cd ++ drop 4 cd ++ concat ns2 ++ t ++ r)
        by (by rewrite app_assoc, take_drop).
      rewrite (lookup_app_r END_ENTIRE_NODE)
        by (cbn [length END_ENTIRE_NODE]; lia).
      rewrite (lookup_app_r (take 4 cd)) by lia.
      by rewrite Hlen4.
  - rewrite (app_assoc (concat ns1)).
    change (concat ns1 ++ END_ENTIRE_NODE) with (path_bytes ns1 END_ENTIRE_NODE).
    apply cut_at_cdrom_id; [done..|]. by apply walk_fuel_enough.
Qed.

End CdromNode.

Section BootImage.

Variable fw : firmware.
Variable sh : shared_h.

Lemma cut_at_cdrom_at_cut dp ns1 cd ns2 t w :
  path_nodes (deref (mem w) dp) = Some (ns1 ++ cd :: ns2, t) →
  Forall (λ n, ¬ cdrom_node n) ns1 → cdrom_node cd →
  ∃ m', cut_at_cdrom_at dp w = Some (tt, set_mem m' w) ∧
        path_nodes (deref m' dp) = Some (ns1, END_ENTIRE_NODE) ∧
        ∀ q, p_block q ≠ p_block dp → deref m' q = deref (mem w) q.
Proof.
  intros Hp Hncd Hcd. apply path_nodes_sound in Hp as [Hwf [r Hr]].
  destruct (wf_nodes_cut _ _ _ _ Hwf) as [Hwf1 Hn].
  unfold cut_at_cdrom_at. rewrite bind_eq. cbn [load gets]. rewrite bind_eq.
  rewrite Hr, cut_at_cdrom_cut; [|done..|].
  2:{ pose proof (walk_fuel_enough _ _ r Hwf) as Hf.
      rewrite length_app in Hf. cbn [length] in Hf. lia. }
  cbn [lift]. unfold modify. eexists. split; [reflexivity|].
  set (old := default [] (mem w !! p_block dp)).
  assert (Hoff : (p_off dp ≤ length old)%nat).
  { unfold deref in Hr. fold old in Hr. apply (f_equal length) in Hr.
    rewrite length_drop, length_app in Hr.
    pose proof (length_path_bytes_nodes _ _ Hwf). lia. }
  split.
  - unfold deref. rewrite lookup_insert_eq. cbn [default id].
    rewrite drop_app_length' by (rewrite length_take; lia).
    rewrite (app_assoc (concat ns1)).
    change (concat ns1 ++ END_ENTIRE_NODE) with (path_bytes ns1 END_ENTIRE_NODE).
    by apply path_nodes_complete.
  - intros q Hq. unfold deref. by rewrite lookup_insert_ne.
Qed.

Lemma compare_at_elsewhere m m' dp e nse te ns t :
  path_elsewhere m dp e nse te →
  (∀ q, p_block q ≠ p_block dp → deref m' q = deref m q) →
  path_nodes (deref m' dp) = Some (ns, t) →
  compare_at m' (device_path e) (Some dp)
    = Some (nodes_cmp (nse ++ [te]) (ns ++ [t])).
Proof.
  intros (pe & Hpe & Hblk & Hnodes) Hm' Hp.
  apply path_nodes_sound in Hnodes as [Hwfe [re Hre]].
  apply path_nodes_sound in Hp as [Hwf [r Hr]].
  unfold compare_at. rewrite Hpe. cbn [fmap option_fmap option_map].
  rewrite (Hm' pe Hblk), Hre, Hr. by apply compare_device_paths_spec.
Qed.

Lemma find_whole_disk_elsewhere m m' dp l drv ns t :
  Forall (λ f, ∃ nsf tf, path_elsewhere m dp f nsf tf ∧ (nsf, tf) ≠ (ns, t)) l →
  (∀ q, p_block q ≠ p_block dp → deref m' q = deref m q) →
  path_nodes (deref m' dp) = Some (ns, t) →
  find_whole_disk m' l drv (Some dp) = Some None.
Proof.
  intros Hl Hm' Hp. revert drv.
  induction Hl as [|f l (nsf & tf & Hf & Hne) _ IH]; intros drv; [done|].
  cbn [find_whole_disk].
  rewrite (compare_at_elsewhere m m' dp f nsf tf ns t Hf Hm' Hp).
  cbn [mbind option_bind].
  destruct (Z.eqb_spec (nodes_cmp (nsf ++ [tf]) (ns ++ [t])) 0) as [E|E];
    [|apply IH].
  destruct Hf as (pf & _ & _ & Hnf).
  apply path_nodes_sound in Hnf as [Hwff _].
  apply path_nodes_sound in Hp as [Hwf _].
  apply nodes_cmp_eq in E as [-> ->]; done.
Qed.

(** X16: the handle of the boot image of an optical disc resolves to the
    optical drive.  When the device path of the handle has a CD-ROM media
    node, and the nodes before that node are the path of the first entry of
    the optical list and of no floppy,
    [grub_get_drive_partition_from_bdev_handle] reports [cdrom_drive] with
    partition 0xFFFFFF.  The device path of the handle is cut at the CD-ROM
    node in the memory of the firmware, where it stays cut after the call;
    the paths in other objects are as before. *)
Theorem boot_image_resolution handle dp ns1 cd ns2 t e cds w :
  grub_efi_get_device_path fw handle = Some dp →
  path_nodes (deref (mem w) dp) = Some (ns1 ++ cd :: ns2, t) →
  Forall (λ n, ¬ cdrom_node n) ns1 → cdrom_node cd →
  Forall (λ f, ∃ nsf tf, path_elsewhere (mem w) dp f nsf tf ∧
                         (nsf, tf) ≠ (ns1, END_ENTIRE_NODE)) (fd_devices w) →
  cd_devices w = e :: cds →
  path_elsewhere (mem w) dp e ns1 END_ENTIRE_NODE →
  ∃ m', grub_get_drive_partition_from_bdev_handle fw sh handle w
          = Some (Some (u64 (cdrom_drive sh), 0xFFFFFF), set_mem m' w) ∧
        path_nodes (deref m' dp) = Some (ns1, END_ENTIRE_NODE) ∧
        ∀ q, p_block q ≠ p_block dp → deref m' q = deref (mem w) q.
Proof.
  intros Hdp Hp Hncd Hcd Hfd Hcds He.
  destruct (cut_at_cdrom_at_cut dp ns1 cd ns2 t w Hp Hncd Hcd)
    as (m' & Hcut & Hp' & Hm').
  exists m'. split; [|done].
  unfold grub_get_drive_partition_from_bdev_handle.
  rewrite Hdp, bind_eq, Hcut. rewrite bind_eq. cbn [gets]. rewrite bind_eq.
  cbn [gets]. rewrite bind_eq. cbn [set_mem mem fd_devices].
  rewrite (find_whole_disk_elsewhere (mem w) m' dp _ 0 ns1 END_ENTIRE_NODE
             Hfd Hm' Hp').
  cbn [lift]. rewrite bind_eq. cbn [gets set_mem cd_devices].
  rewrite Hcds, bind_eq.
  rewrite (compare_at_elsewhere (mem w) m' dp e _ _ _ _ He Hm' Hp').
  by rewrite nodes_cmp_refl.
Qed.

End BootImage.

Section BootImageExamples.

Import Examples.

Lemma cut_at_cdrom_truncates_witness :
  ∃ dp', cut_at_cdrom (walk_fuel cd_boot) cd_boot = Some dp' ∧
         length dp' = length cd_boot ∧
         path_nodes dp' = Some ([PciRoot; Pci x1f x02; Sata x01], END_ENTIRE_NODE).
Proof.
  destruct (cut_at_cdrom_truncates cd_boot
              [PciRoot; Pci x1f x02; Sata x01] CDROM [] EndEntire)
    as (dp' & H1 & H2 & H3 & _).
  - reflexivity.
  - repeat constructor; by intros [? ?].
  - by split.
  - by exists dp'.
Defined.

Lemma boot_image_resolution_witness :
  let fw := machine_of [1; 9]%N [1]%N optical_media (λ _, []) in
  let w := set_cd_devices [device 1 18 optical_media] (world0 mem1 []) in
  ∃ m', grub_get_drive_partition_from_bdev_handle fw sh0 9%N w
          = Some (Some (u64 (cdrom_drive sh0), 0xFFFFFF), set_mem m' w) ∧
        path_nodes (deref m' (Ptr 9 0))
          = Some ([PciRoot; Pci x1f x02; Sata x01], END_ENTIRE_NODE) ∧
        ∀ q, p_block q ≠ 9%N → deref m' q = deref mem1 q.
Proof.
  apply (boot_image_resolution
           (machine_of [1; 9]%N [1]%N optical_media (λ _, [])) sh0 9%N (Ptr 9 0)
           [PciRoot; Pci x1f x02; Sata x01] CDROM [] EndEntire
           (device 1 18 optical_media) []
           (set_cd_devices [device 1 18 optical_media] (world0 mem1 []))).
  - reflexivity.
  - reflexivity.
  - repeat constructor; by intros [? ?].
  - by split.
  - constructor.
  - reflexivity.
  - exists (Ptr 1 0). by repeat split.
Defined.

End BootImageExamples.

(** * The children of a disk *)

Section ChildIteration.

Lemma dev_nodes_wf m d ns t :
  dev_nodes m d = Some (ns, t) →
  ∃ p r, device_path d = Some p ∧ deref m p = path_bytes ns t ++ r ∧
         wf_nodes ns t.
Proof.
  unfold dev_nodes. destruct (device_path d) as [p|]; [|done].
  cbn [mbind option_bind]. intros H.
  apply path_nodes_sound in H as [Hwf [r Hr]]. by exists p, r.
Qed.

(** One turn of the loop of [iterate_child_devices], with memory for the
    copy of the path: the hook is called when the device is a child. *)
Lemma iterate_child_devices_cons {St : Type} p devices d
    (hook : grub_efidisk_data → St → M (bool * St)) (s : St) nsp tp w :
  heap w = [] → wf_device (mem w) p → dev_nodes (mem w) d = Some (nsp, tp) →
  iterate_child_devices (p :: devices) d hook s w =
  if child_of (mem w) d p
  then match hook p s w with
       | Some ((r, s'), w') =>
         if (r : bool) then Some ((true, s'), w')
         else iterate_child_devices devices d hook s' w'
       | None => None
       end
  else iterate_child_devices devices d hook s w.
Proof.
  intros Hh (nsc & tc & Hc & Hne) Hd.
  unfold child_of. rewrite Hc, Hd.
  apply dev_nodes_wf in Hc as (pp & rc & Hpp & Hrc & Hwc).
  apply dev_nodes_wf in Hd as (pd & rp & Hpd & Hrp & Hwp).
  destruct nsc as [|leaf init _] using rev_ind; [done|]. clear Hne.
  assert (Hwi : wf_nodes init END_ENTIRE_NODE).
  { destruct Hwc as [Hns _]. apply Forall_app in Hns as [Hns _].
    split; [done|apply end_entire_node_end]. }
  assert (Hleaf : is_node leaf).
  { destruct Hwc as [Hns _]. apply Forall_app in Hns as [_ Hl].
    by apply Forall_singleton in Hl as [Hl _]. }
  cbn [iterate_child_devices]. rewrite Hpp. cbn [load].
  rewrite bind_eq. cbn [gets]. rewrite Hrc, bind_eq.
  rewrite (duplicate_device_path_spec _ _ _ _ _ _ Hwc (grub_malloc_nil w Hh)).
  rewrite bind_eq.
  rewrite <- (app_nil_r (path_bytes _ _)), find_last_device_path_spec by done.
  cbn [lift]. rewrite bind_eq. cbn [lift]. rewrite bind_eq, app_nil_r.
  unfold path_bytes at 1. rewrite concat_app. cbn [concat].
  rewrite app_nil_r, <- !app_assoc, write_end_node_spec by apply Hleaf.
  cbn [lift]. rewrite bind_eq. cbn [gets]. rewrite bind_eq, Hpd.
  cbn [fmap option_fmap option_map]. rewrite Hrp.
  rewrite (app_assoc (concat init)).
  change (concat init ++ END_ENTIRE_NODE) with (path_bytes init END_ENTIRE_NODE).
  rewrite compare_device_paths_spec by done. cbn [lift].
  rewrite removelast_last.
  destruct (Z.eqb_spec (nodes_cmp (init ++ [END_ENTIRE_NODE]) (nsp ++ [tp])) 0)
    as [E|E].
  - apply nodes_cmp_eq in E as [-> <-]; [|done..].
    rewrite bool_decide_eq_true_2 by (by split; [destruct nsp|]).
    rewrite bind_eq. by destruct (hook p s w) as [[[[] s'] w']|].
  - rewrite bool_decide_eq_false_2; [done|].
    intros (_ & -> & ->). by rewrite nodes_cmp_refl in E.
Qed.

Lemma iterate_child_devices_record devices d nsp tp s w :
  heap w = [] → Forall (wf_device (mem w)) devices →
  dev_nodes (mem w) d = Some (nsp, tp) →
  iterate_child_devices devices d (λ p s, mret (false, s ++ [p])) s w
  = Some ((false, s ++ filter (λ p, child_of (mem w) d p) devices), w).
Proof.
  intros Hh Hwf Hd. revert s.
  induction Hwf as [|p devices Hp _ IH]; intros s.
  { cbn. by rewrite app_nil_r. }
  rewrite (iterate_child_devices_cons p devices d _ s nsp tp w Hh Hp Hd).
  rewrite filter_cons. destruct (child_of (mem w) d p) eqn:E.
  - rewrite decide_True by done. cbn [mret M_ret].
    by rewrite IH, <- app_assoc.
  - rewrite decide_False by (cbn; tauto). apply IH.
Qed.

Lemma iterate_child_devices_first devices d nsp tp (s : list grub_efidisk_data) w :
  heap w = [] → Forall (wf_device (mem w)) devices →
  dev_nodes (mem w) d = Some (nsp, tp) →
  iterate_child_devices devices d (λ p s, mret (true, s ++ [p])) s w
  = Some (match filter (λ p, child_of (mem w) d p) devices with
          | [] => (false, s)
          | c :: _ => (true, s ++ [c])
          end, w).
Proof.
  intros Hh Hwf Hd.
  induction Hwf as [|p devices Hp _ IH]; [done|].
  rewrite (iterate_child_devices_cons p devices d _ s nsp tp w Hh Hp Hd).
  rewrite filter_cons. destruct (child_of (mem w) d p) eqn:E.
  - by rewrite decide_True by done.
  - rewrite decide_False by (cbn; tauto). apply IH.
Qed.

(** X17: with memory for the copies, [iterate_child_devices] calls the
    hook on the children of the device and on nothing else, in the order of
    the list, and stops at the first call that returns non-zero.  A hook that
    records its argument and returns 0 ends with the children of the device,
    in list order, and the result 0; a hook that returns 1 is called on the
    first child alone, and the result is 1 when there is a child.  A device
    is a child when its path is the path of the parent with one more node
    before the end node and the parent's path ends in the bytes
    7f ff 04 00. *)
Theorem iterate_child_devices_visits_children devices d nsp tp w :
  heap w = [] → Forall (wf_device (mem w)) devices →
  dev_nodes (mem w) d = Some (nsp, tp) →
  let children := filter (λ p, child_of (mem w) d p) devices in
  iterate_child_devices devices d (λ p s, mret (false, s ++ [p])) [] w
    = Some ((false, children), w) ∧
  iterate_child_devices devices d (λ p s, mret (true, s ++ [p])) [] w
    = Some ((bool_decide (children ≠ []), take 1 children), w) ∧
  ∀ p, p ∈ children ↔
       p ∈ devices ∧
       ∃ leaf tc, dev_nodes (mem w) p = Some (nsp ++ [leaf], tc) ∧
                  tp = END_ENTIRE_NODE.
Proof.
  intros Hh Hwf Hd children. split; [|split].
  - by rewrite (iterate_child_devices_record devices d nsp tp [] w).
  - rewrite (iterate_child_devices_first devices d nsp tp [] w) by done.
    fold children. by destruct children.
  - intros p. subst children. rewrite list_elem_of_filter.
    unfold child_of. rewrite Hd. split.
    + intros [Hc Hin]. split; [done|].
      destruct (dev_nodes (mem w) p) as [[nsc tc]|]; [|done].
      apply bool_decide_unpack in Hc as (Hne & <- & ->).
      destruct nsc as [|leaf init _] using rev_ind; [done|].
      exists leaf, tc. by rewrite removelast_last.
    + intros [Hin (leaf & tc & -> & ->)]. split; [|done].
      apply bool_decide_pack. rewrite removelast_last.
      by split; [destruct nsp|].
Qed.

End ChildIteration.

Section ChildIterationExamples.

Import Examples.

Lemma iterate_child_devices_visits_children_witness :
  let devices := [device 6 18 hard_disk_media; device 3 28 hard_disk_media;
                  dev_b; dev_a] in
  let w := world0 mem0 [] in
  iterate_child_devices devices dev_a (λ p s, mret (false, s ++ [p])) [] w
    = Some ((false, [device 3 28 hard_disk_media]), w).
Proof.
  destruct (iterate_child_devices_visits_children
              [device 6 18 hard_disk_media; device 3 28 hard_disk_media;
               dev_b; dev_a] dev_a [PciRoot; Pci x1f x02; Sata x01] EndEntire
              (world0 mem0 [])) as [H _].
  - reflexivity.
  - repeat constructor; eexists _, _; (split; [by vm_compute|done]).
  - reflexivity.
  - exact H.
Defined.

End ChildIterationExamples.

(** * From the handle of a partition to a drive and a partition *)

Section PartitionResolution.

Variable fw : firmware.
Variable sh : shared_h.

Lemma read_hard_drive_leaf leaf rest :
  (sizeof_hard_drive_device_path ≤ length leaf)%nat →
  read_hard_drive (leaf ++ rest) = Some (hard_drive_of leaf).
Proof.
  unfold sizeof_hard_drive_device_path. intros Hlen.
  unfold read_hard_drive, grub_memcpy_from, sizeof_hard_drive_device_path.
  rewrite length_app. case_decide; [|lia]. cbn [mbind option_bind].
  unfold hard_drive_of. rewrite take_app_le by lia.
  rewrite !take_drop_commute, !take_take. do 3 f_equal.
Qed.

Lemma enumerated_nodes m c :
  enumerated m c →
  ∃ p ns leaf t r,
    device_path c = Some p ∧ dev_nodes m c = Some (ns ++ [leaf], t) ∧
    deref m p = path_bytes (ns ++ [leaf]) t ++ r ∧
    wf_nodes (ns ++ [leaf]) t ∧
    ∃ q, last_device_path c = Some q ∧ deref m q = leaf ++ t ++ r.
Proof.
  intros (p & ns & leaf & t & r & Hp & Hl & Hr & Hwf).
  exists p, ns, leaf, t, r. split; [done|]. split; [|split; [done|split; [done|]]].
  - unfold dev_nodes. rewrite Hp. cbn [mbind option_bind]. rewrite Hr.
    by apply path_nodes_complete.
  - eexists. split; [done|].
    unfold deref, ptr_add in *. cbn [p_block p_off].
    rewrite <- drop_drop, Hr, path_bytes_last. by rewrite drop_app_length.
Qed.

Lemma compare_at_nodes m c nsc tc dp ns t :
  dev_nodes m c = Some (nsc, tc) → path_nodes (deref m dp) = Some (ns, t) →
  compare_at m (device_path c) (Some dp)
    = Some (nodes_cmp (nsc ++ [tc]) (ns ++ [t])) ∧
  (nodes_cmp (nsc ++ [tc]) (ns ++ [t]) = 0 ↔ (nsc, tc) = (ns, t)).
Proof.
  intros Hc Hp. apply dev_nodes_wf in Hc as (pc & rc & Hpc & Hrc & Hwc).
  apply path_nodes_sound in Hp as [Hwf [r Hr]]. split.
  - unfold compare_at. rewrite Hpc. cbn [fmap option_fmap option_map].
    rewrite Hrc, Hr. by apply compare_device_paths_spec.
  - split.
    + intros E. by apply nodes_cmp_eq in E as [-> ->].
    + intros [= -> ->]. apply nodes_cmp_refl.
Qed.

(** The hook [find_bdev] on a device of [make_devices]. *)
Lemma find_bdev_spec dp nsd td c ns leaf t s w :
  path_nodes (deref (mem w) dp) = Some (nsd, td) →
  enumerated (mem w) c → dev_nodes (mem w) c = Some (ns ++ [leaf], t) →
  ((ns ++ [leaf], t) = (nsd, td) →
   (sizeof_hard_drive_device_path ≤ length leaf)%nat) →
  find_bdev (Some dp) c s w =
  Some (if decide ((ns ++ [leaf], t) = (nsd, td))
        then (true, Some (hard_drive_of leaf)) else (false, s), w).
Proof.
  intros Hp Hc Hn Hlen.
  destruct (compare_at_nodes _ c _ _ dp _ _ Hn Hp) as [Hcmp Hz].
  unfold find_bdev. rewrite bind_eq. cbn [gets]. rewrite bind_eq, Hcmp.
  cbn [lift].
  destruct (Z.eqb_spec (nodes_cmp ((ns ++ [leaf]) ++ [t]) (nsd ++ [td])) 0)
    as [E|E].
  - apply Hz in E. rewrite decide_True by done.
    destruct (enumerated_nodes _ _ Hc)
      as (p & ns' & leaf' & t' & r & _ & Hn' & _ & _ & q & Hq & Hdq).
    rewrite Hn in Hn'. injection Hn' as Hns <-.
    apply app_inj_tail in Hns as [<- <-].
    rewrite bind_eq, Hq. cbn [load gets]. rewrite Hdq, bind_eq.
    by rewrite read_hard_drive_leaf by auto.
  - rewrite decide_False; [done|]. intros Heq. by apply E, Hz.
Qed.

Lemma child_of_nodes m d p nsd td nsc tc :
  dev_nodes m d = Some (nsd, td) → dev_nodes m p = Some (nsc, tc) →
  child_of m d p ↔ nsc ≠ [] ∧ removelast nsc = nsd ∧ td = END_ENTIRE_NODE.
Proof.
  intros Hd Hp. unfold child_of. rewrite Hp, Hd.
  split; [apply bool_decide_unpack|apply bool_decide_pack].
Qed.

Lemma iterate_find_bdev_none devices d nsd td dp nst tt w :
  heap w = [] → Forall (enumerated (mem w)) devices →
  dev_nodes (mem w) d = Some (nsd, td) →
  path_nodes (deref (mem w) dp) = Some (nst, tt) →
  (∀ c, c ∈ devices → child_of (mem w) d c →
        dev_nodes (mem w) c ≠ Some (nst, tt)) →
  iterate_child_devices devices d (find_bdev (Some dp)) None w
  = Some ((false, None), w).
Proof.
  intros Hh Hen Hd Hp. induction Hen as [|c devices Hc _ IH]; intros Hno; [done|].
  rewrite (iterate_child_devices_cons c devices d _ None nsd td w Hh
             (enumerated_wf _ _ Hc) Hd).
  assert (Hrest : iterate_child_devices devices d (find_bdev (Some dp)) None w
                  = Some ((false, None), w)).
  { apply IH. intros x Hx. apply Hno. by right. }
  destruct (child_of (mem w) d c) eqn:Hchild; [|done].
  destruct (enumerated_nodes _ _ Hc) as (p & ns & leaf & t & r & _ & Hn & _).
  rewrite (find_bdev_spec dp nst tt c ns leaf t None w Hp Hc Hn).
  - rewrite decide_False; [done|]. intros Heq.
    eapply (Hno c); [by left|by rewrite Hchild|]. by rewrite Hn, Heq.
  - intros Heq. exfalso.
    eapply (Hno c); [by left|by rewrite Hchild|]. by rewrite Hn, Heq.
Qed.

Lemma iterate_find_bdev_some devices d dp nsp leaf t w :
  heap w = [] → Forall (enumerated (mem w)) devices →
  dev_nodes (mem w) d = Some (nsp, END_ENTIRE_NODE) →
  path_nodes (deref (mem w) dp) = Some (nsp ++ [leaf], t) →
  (sizeof_hard_drive_device_path ≤ length leaf)%nat →
  (∃ c, c ∈ devices ∧ dev_nodes (mem w) c = Some (nsp ++ [leaf], t)) →
  iterate_child_devices devices d (find_bdev (Some dp)) None w
  = Some ((true, Some (hard_drive_of leaf)), w).
Proof.
  intros Hh Hen Hd Hp Hlen.
  induction Hen as [|c devices Hc _ IH]; intros (x & Hx & Hxn).
  { by apply elem_of_nil in Hx. }
  rewrite (iterate_child_devices_cons c devices d _ None nsp END_ENTIRE_NODE w Hh
             (enumerated_wf _ _ Hc) Hd).
  destruct (enumerated_nodes _ _ Hc) as (p & ns & lf & tc & r & _ & Hn & _).
  assert (Hrest : dev_nodes (mem w) c ≠ Some (nsp ++ [leaf], t) →
            iterate_child_devices devices d (find_bdev (Some dp)) None w
            = Some ((true, Some (hard_drive_of leaf)), w)).
  { intros Hne. apply IH. exists x. split; [|done].
    apply elem_of_cons in Hx as [-> | Hx]; [done|done]. }
  destruct (child_of (mem w) d c) eqn:Hchild.
  - rewrite (find_bdev_spec dp (nsp ++ [leaf]) t c ns lf tc None w Hp Hc Hn).
    + case_decide as Heq.
      * injection Heq as Heq <-. apply app_inj_tail in Heq as [<- <-]. done.
      * apply Hrest. rewrite Hn. congruence.
    + intros [= Heq <-]. apply app_inj_tail in Heq as [<- <-]. done.
  - apply Hrest. intros Hcn.
    assert (child_of (mem w) d c) as Hyes; [|by rewrite Hchild in Hyes].
    apply (child_of_nodes _ d c _ _ _ _ Hd Hcn).
    rewrite removelast_last. by split; [destruct nsp|].
Qed.

Lemma find_parent_disk_found devices hds drv dp nsp leaf t i disk w :
  heap w = [] → Forall (enumerated (mem w)) devices →
  path_nodes (deref (mem w) dp) = Some (nsp ++ [leaf], t) →
  (sizeof_hard_drive_device_path ≤ length leaf)%nat →
  (∃ c, c ∈ devices ∧ dev_nodes (mem w) c = Some (nsp ++ [leaf], t)) →
  Forall (wf_device (mem w)) hds →
  hds !! i = Some disk →
  dev_nodes (mem w) disk = Some (nsp, END_ENTIRE_NODE) →
  (∀ j dj, (j < i)%nat → hds !! j = Some dj →
           dev_nodes (mem w) dj ≠ Some (nsp, END_ENTIRE_NODE)) →
  find_parent_disk devices hds drv (Some dp) w
  = Some (Some (drv + Z.of_nat i, hard_drive_of leaf), w).
Proof.
  intros Hh Hen Hp Hlen Hex Hwf. revert i drv.
  induction Hwf as [|d hds Hd _ IH]; intros i drv Hi Hdisk Hbefore; [done|].
  cbn [find_parent_disk]. rewrite bind_eq.
  destruct i as [|i]; cbn in Hi.
  - injection Hi as ->.
    rewrite (iterate_find_bdev_some devices disk dp nsp leaf t w) by done.
    by rewrite Z.add_0_r.
  - destruct Hd as (nsd & td & Hnd & _).
    rewrite (iterate_find_bdev_none devices d nsd td dp (nsp ++ [leaf]) t w);
      try done.
    + rewrite (IH i (drv + 1)); [|done|done|].
      { do 4 f_equal. lia. }
      intros j dj Hj. apply (Hbefore (S j)). lia.
    + intros c _ Hchild Hcn.
      apply (child_of_nodes _ d c _ _ _ _ Hnd Hcn) in Hchild as (_ & Hrl & ->).
      rewrite removelast_last in Hrl. subst nsd.
      by apply (Hbefore 0%nat d); [lia| |].
Qed.

Lemma find_parent_disk_none devices hds drv dp nsp leaf t w :
  heap w = [] → Forall (enumerated (mem w)) devices →
  path_nodes (deref (mem w) dp) = Some (nsp ++ [leaf], t) →
  Forall (wf_device (mem w)) hds →
  (∀ dj, dj ∈ hds → dev_nodes (mem w) dj ≠ Some (nsp, END_ENTIRE_NODE)) →
  find_parent_disk devices hds drv (Some dp) w = Some (None, w).
Proof.
  intros Hh Hen Hp Hwf. revert drv.
  induction Hwf as [|d hds Hd _ IH]; intros drv Hno; [done|].
  cbn [find_parent_disk]. rewrite bind_eq.
  destruct Hd as (nsd & td & Hnd & _).
  rewrite (iterate_find_bdev_none devices d nsd td dp (nsp ++ [leaf]) t w);
    try done.
  - apply IH. intros dj Hdj. apply Hno. by right.
  - intros c _ Hchild Hcn.
    apply (child_of_nodes _ d c _ _ _ _ Hnd Hcn) in Hchild as (_ & Hrl & ->).
    rewrite removelast_last in Hrl. subst nsd.
    by apply (Hno d); [left|].
Qed.

Lemma same_nodes_same_path m a b ns t :
  dev_nodes m a = Some (ns, t) → dev_nodes m b = Some (ns, t) →
  same_path m a b.
Proof.
  intros Ha Hb. apply dev_nodes_wf in Ha as (pa & ra & Hpa & Hra & Hwf).
  apply dev_nodes_wf in Hb as (pb & rb & Hpb & Hrb & _).
  unfold same_path, compare_at. rewrite Hpa, Hpb.
  cbn [fmap option_fmap option_map]. rewrite Hra, Hrb.
  by rewrite compare_device_paths_spec, nodes_cmp_refl.
Qed.

(** The first half of [grub_get_drive_partition_from_bdev_handle] when no
    entry of the three lists has the path of the handle. *)
Lemma resolution_falls_through handle dp ns t w :
  grub_efi_get_device_path fw handle = Some dp →
  path_nodes (deref (mem w) dp) = Some (ns, t) →
  Forall (λ n, ¬ cdrom_node n) ns →
  Forall (wf_device (mem w)) (fd_devices w ++ cd_devices w ++ hd_devices w) →
  list_find (has_path (mem w) dp) (fd_devices w) = None →
  (∀ e cds, cd_devices w = e :: cds → ¬ has_path (mem w) dp e) →
  list_find (has_path (mem w) dp) (hd_devices w) = None →
  grub_get_drive_partition_from_bdev_handle fw sh handle w
  = find_partition_of_disk fw (Some dp) w.
Proof.
  intros Hdp Hp Hcd Hwf Hfd Hncd Hhd.
  apply Forall_app in Hwf as [Hwfd Hwf]. apply Forall_app in Hwf as [Hwcd Hwhd].
  unfold grub_get_drive_partition_from_bdev_handle.
  rewrite Hdp, bind_eq, (cut_at_cdrom_at_id dp ns t w Hp Hcd).
  rewrite bind_eq. cbn [gets]. rewrite bind_eq. cbn [gets]. rewrite bind_eq.
  rewrite (find_whole_disk_spec (mem w) _ 0 dp ns t Hwfd Hp), Hfd. cbn [lift].
  cbn [fmap option_fmap option_map].
  rewrite bind_eq. cbn [gets]. rewrite bind_eq.
  assert (Hhds : (hds ← gets hd_devices;
                  r ← lift (find_whole_disk (mem w) hds 0x80 (Some dp));
                  match r with
                  | Some drv => mret (Some (u64 drv, 0xFFFFFF))
                  | None => find_partition_of_disk fw (Some dp)
                  end) w = find_partition_of_disk fw (Some dp) w).
  { rewrite bind_eq. cbn [gets]. rewrite bind_eq.
    by rewrite (find_whole_disk_spec (mem w) _ 0x80 dp ns t Hwhd Hp), Hhd. }
  destruct (cd_devices w) as [|e cds] eqn:Hcds; [exact Hhds|].
  apply Forall_cons in Hwcd as [He _].
  destruct (compare_at_total (mem w) e dp ns t He Hp) as [ret Hret].
  rewrite Hret. cbn [lift]. rewrite bool_decide_eq_false_2 by done.
  cbn [negb andb].
  destruct (Z.eqb_spec ret 0) as [-> | Hne]; [|exact Hhds].
  by destruct (Hncd e cds eq_refl).
Qed.

Lemma partition_resolution_found handle dp nsp leaf t handles bio dio i disk w :
  wf_firmware fw (mem w) → heap w = [] →
  grub_efi_locate_handle fw = Some handles → handle ∈ handles →
  grub_efi_get_device_path fw handle = Some dp →
  open_block_io fw handle = Some bio → open_disk_io fw handle = Some dio →
  path_nodes (deref (mem w) dp) = Some (nsp ++ [leaf], t) →
  Forall (λ n, ¬ cdrom_node n) (nsp ++ [leaf]) →
  (sizeof_hard_drive_device_path ≤ length leaf)%nat →
  Forall (wf_device (mem w)) (fd_devices w ++ cd_devices w) →
  inserted (mem w) (hd_devices w) →
  list_find (has_path (mem w) dp) (fd_devices w) = None →
  (∀ e cds, cd_devices w = e :: cds → ¬ has_path (mem w) dp e) →
  list_find (has_path (mem w) dp) (hd_devices w) = None →
  hd_devices w !! i = Some disk →
  dev_nodes (mem w) disk = Some (nsp, END_ENTIRE_NODE) →
  grub_get_drive_partition_from_bdev_handle fw sh handle w
  = Some (part ← find_partition_entry
                    (next_partition fw (0x80 + Z.of_nat i))
                    (hard_drive_of leaf);
          Some (u64 (0x80 + Z.of_nat i), part), w).
Proof.
  intros Hfw Hh Hloc Hin Hdp Hbio Hdio Hp Hcd Hlen Hwf Hins Hfd Hncd Hhd Hi Hdisk.
  destruct (inserted_invariant _ _ Hins) as [Hwhd Hsorted].
  rewrite (resolution_falls_through handle dp (nsp ++ [leaf]) t w); try done.
  2:{ rewrite app_assoc. by apply Forall_app. }
  unfold find_partition_of_disk, make_devices. rewrite Hloc, bind_eq.
  destruct (make_devices_loop_general fw handles [] w Hfw)
    as (l & w1 & -> & _ & _ & _ & _ & _ & _ & Hnil).
  destruct (Hnil Hh) as [-> ->]. rewrite app_nil_r.
  rewrite bind_eq. cbn [gets]. rewrite bind_eq.
  rewrite (find_parent_disk_found _ _ 0x80 dp nsp leaf t i disk w); try done.
  - rewrite bind_eq. cbn [free_devices mret M_ret].
    by destruct (find_partition_entry _ _).
  - apply Forall_reverse. by apply devices_of_handles_enumerated.
  - eexists. split.
    + rewrite elem_of_reverse. apply list_elem_of_omap. exists handle.
      split; [done|]. by eapply device_of_handle_is_Some.
    + unfold dev_nodes. by cbn.
  - intros j dj Hj Hdj Hnodes.
    assert (j = i); [|lia].
    eapply (sorted_no_duplicates (mem w) (hd_devices w) j i dj disk); try done.
    by eapply same_nodes_same_path.
Qed.

(** X18: the handle of a partition resolves to the drive of its disk and
    to the partition of the disk's table that starts and ends where the
    last node of the handle's device path says.  The path of the handle is
    the path of entry [i] of the hard-disk list with one more node, of the
    size of a hard-drive media node at least, and is the path of no entry of
    the three lists; the handle is among those that [make_devices] finds, and
    there is memory for the records and the copies.  Then the function
    reports drive [0x80 + i] and the number of the first partition that
    [next_partition] yields with a non-zero type and that start and length,
    and it reports nothing when there is no such partition.  It reports
    nothing either when no hard disk has the path of the handle less its
    last node. *)
Theorem partition_handle_resolution handle dp nsp leaf t handles bio dio w :
  wf_firmware fw (mem w) → heap w = [] →
  grub_efi_locate_handle fw = Some handles → handle ∈ handles →
  grub_efi_get_device_path fw handle = Some dp →
  open_block_io fw handle = Some bio → open_disk_io fw handle = Some dio →
  path_nodes (deref (mem w) dp) = Some (nsp ++ [leaf], t) →
  Forall (λ n, ¬ cdrom_node n) (nsp ++ [leaf]) →
  (sizeof_hard_drive_device_path ≤ length leaf)%nat →
  Forall (wf_device (mem w)) (fd_devices w ++ cd_devices w) →
  inserted (mem w) (hd_devices w) →
  list_find (has_path (mem w) dp) (fd_devices w) = None →
  (∀ e cds, cd_devices w = e :: cds → ¬ has_path (mem w) dp e) →
  list_find (has_path (mem w) dp) (hd_devices w) = None →
  (∀ i disk,
     hd_devices w !! i = Some disk →
     dev_nodes (mem w) disk = Some (nsp, END_ENTIRE_NODE) →
     grub_get_drive_partition_from_bdev_handle fw sh handle w
     = Some (part ← find_partition_entry
                       (next_partition fw (0x80 + Z.of_nat i))
                       (hard_drive_of leaf);
             Some (u64 (0x80 + Z.of_nat i), part), w)) ∧
  ((∀ disk, disk ∈ hd_devices w →
            dev_nodes (mem w) disk ≠ Some (nsp, END_ENTIRE_NODE)) →
   grub_get_drive_partition_from_bdev_handle fw sh handle w = Some (None, w)).
Proof.
  intros Hfw Hh Hloc Hin Hdp Hbio Hdio Hp Hcd Hlen Hwf Hins Hfd Hncd Hhd.
  split.
  - intros i disk Hi Hdisk.
    by apply (partition_resolution_found handle dp nsp leaf t handles bio dio
                i disk w).
  - intros Hno. destruct (inserted_invariant _ _ Hins) as [Hwhd Hsorted].
    rewrite (resolution_falls_through handle dp (nsp ++ [leaf]) t w); try done.
    2:{ rewrite app_assoc. by apply Forall_app. }
    unfold find_partition_of_disk, make_devices. rewrite Hloc, bind_eq.
    destruct (make_devices_loop_general fw handles [] w Hfw)
      as (l & w1 & -> & _ & _ & _ & _ & _ & _ & Hnil).
    destruct (Hnil Hh) as [-> ->]. rewrite app_nil_r.
    rewrite bind_eq. cbn [gets]. rewrite bind_eq.
    rewrite (find_parent_disk_none _ _ 0x80 dp nsp leaf t w); try done.
    apply Forall_reverse. by apply devices_of_handles_enumerated.
Qed.

End PartitionResolution.

Section PartitionResolutionExamples.

Import Examples.

Lemma partition_handle_resolution_witness :
  let fw := machine_of [1; 2; 3; 6]%N [1; 3]%N hard_disk_media table_a in
  let w := set_hd_devices [dev_a] (world0 mem0 []) in
  grub_get_drive_partition_from_bdev_handle fw sh0 3%N w
  = Some (Some (0x80, 0x01FFFF), w).
Proof.
  destruct (partition_handle_resolution
              (machine_of [1; 2; 3; 6]%N [1; 3]%N hard_disk_media table_a) sh0
              3%N (Ptr 3 0) [PciRoot; Pci x1f x02; Sata x01] HD1 EndEntire
              [1; 3]%N hard_disk_media 3%N
              (set_hd_devices [dev_a] (world0 mem0 []))) as [H _].
  - apply wf_firmware_machine_of.
  - reflexivity.
  - reflexivity.
  - by apply (list_elem_of_lookup_2 _ 1%nat).
  - reflexivity.
  - reflexivity.
  - reflexivity.
  - reflexivity.
  - repeat constructor; by intros [? ?].
  - vm_compute. lia.
  - constructor.
  - apply inserted_a.
  - reflexivity.
  - intros e cds Hc. discriminate Hc.
  - vm_compute. reflexivity.
  - exact (H 0%nat dev_a eq_refl eq_refl).
Defined.

End PartitionResolutionExamples.

(** * From a drive and a partition to a handle *)

Section CurrentHandle.

Variable fw : firmware.
Variable sh : shared_h.

(** The hook [find_partition] on a device of [make_devices] whose last node
    has the size of a hard-drive media node at least. *)
Lemma find_partition_spec start len c ns leaf t s w :
  enumerated (mem w) c → dev_nodes (mem w) c = Some (ns ++ [leaf], t) →
  (sizeof_hard_drive_device_path ≤ length leaf)%nat →
  find_partition start len c s w =
  Some (if partition_node start len leaf
        then (true, Some (handle c)) else (false, s), w).
Proof.
  intros Hc Hn Hlen.
  destruct (enumerated_nodes _ _ Hc)
    as (p & ns' & leaf' & t' & r & _ & Hn' & _ & Hwf & q & Hq & Hdq).
  rewrite Hn in Hn'. injection Hn' as Hns <-.
  apply app_inj_tail in Hns as [<- <-].
  assert (Hleaf : is_node leaf).
  { destruct Hwf as [Hns _]. apply Forall_app in Hns as [_ Hl].
    by apply Forall_singleton in Hl as [Hl _]. }
  destruct (node_app_reads leaf (t ++ r) Hleaf) as (HT & HS & _).
  unfold find_partition. rewrite bind_eq, Hq. cbn [load gets].
  rewrite Hdq, bind_eq, read_hard_drive_leaf by done. cbn [lift].
  rewrite bind_eq, HT. cbn [lift]. unfold partition_node.
  destruct (node_type leaf =? GRUB_EFI_MEDIA_DEVICE_PATH_TYPE); cbn [negb andb];
    [|done].
  rewrite bind_eq, HS. cbn [lift].
  by destruct ((node_subtype leaf =? GRUB_EFI_HARD_DRIVE_DEVICE_PATH_SUBTYPE)
               && (start =? partition_start (hard_drive_of leaf))
               && (len =? partition_size (hard_drive_of leaf))).
Qed.

Lemma device_leaf_nodes m c ns leaf t :
  dev_nodes m c = Some (ns ++ [leaf], t) → device_leaf m c = Some leaf.
Proof.
  intros H. unfold device_leaf. rewrite H. cbn [mbind option_bind].
  by rewrite last_snoc.
Qed.

Lemma iterate_find_partition devices d nsp tp start len w :
  heap w = [] → Forall (enumerated (mem w)) devices →
  dev_nodes (mem w) d = Some (nsp, tp) →
  (∀ c, c ∈ devices → child_of (mem w) d c →
        ∃ leaf, device_leaf (mem w) c = Some leaf ∧
                (sizeof_hard_drive_device_path ≤ length leaf)%nat) →
  iterate_child_devices devices d (find_partition start len) None w
  = Some (match filter (λ c, child_of (mem w) d c
                             && is_partition (mem w) start len c) devices with
          | [] => (false, None)
          | c :: _ => (true, Some (handle c))
          end, w).
Proof.
  intros Hh Hen Hd. induction Hen as [|c devices Hc _ IH]; intros Hsize; [done|].
  rewrite (iterate_child_devices_cons c devices d _ None nsp tp w Hh
             (enumerated_wf _ _ Hc) Hd).
  assert (Hrest : iterate_child_devices devices d (find_partition start len) None w
            = Some (match filter (λ c, child_of (mem w) d c
                                       && is_partition (mem w) start len c)
                                 devices with
                    | [] => (false, None)
                    | c :: _ => (true, Some (handle c))
                    end, w)).
  { apply IH. intros x Hx. apply Hsize. by right. }
  rewrite filter_cons.
  destruct (child_of (mem w) d c) eqn:Hchild; cbn [andb].
  2:{ by rewrite decide_False by (cbn; tauto). }
  destruct (enumerated_nodes _ _ Hc) as (p & ns & leaf & t & r & _ & Hn & _).
  destruct (Hsize c) as (leaf' & Hleaf' & Hlen); [by left|by rewrite Hchild|].
  rewrite (device_leaf_nodes _ _ _ _ _ Hn) in Hleaf'. injection Hleaf' as <-.
  rewrite (find_partition_spec start len c ns leaf t None w Hc Hn Hlen).
  assert (Hip : is_partition (mem w) start len c = partition_node start len leaf).
  { unfold is_partition. by rewrite (device_leaf_nodes _ _ _ _ _ Hn). }
  destruct (partition_node start len leaf).
  - by rewrite decide_True by (by rewrite Hip).
  - by rewrite decide_False by (rewrite Hip; cbn; tauto).
Qed.

Lemma get_device_from_drive_valid drive d w :
  get_device_from_drive sh drive w = Some (Some d, w) →
  (drive =? GRUB_INVALID_DRIVE sh) = false.
Proof.
  rewrite get_device_from_drive_eq. case_bool_decide; [done|].
  by destruct (drive =? GRUB_INVALID_DRIVE sh).
Qed.

Lemma current_partition_run drive partition start len d nsp tp handles w :
  get_device_from_drive sh drive w = Some (Some d, w) →
  drive ≠ cdrom_drive sh → Z.land drive 0x80 ≠ 0 → partition ≠ 0xFFFFFF →
  wf_firmware fw (mem w) → heap w = [] →
  grub_efi_locate_handle fw = Some handles →
  dev_nodes (mem w) d = Some (nsp, tp) →
  (∀ c, c ∈ devices_of_handles fw (mem w) handles → child_of (mem w) d c →
        ∃ leaf, device_leaf (mem w) c = Some leaf ∧
                (sizeof_hard_drive_device_path ≤ length leaf)%nat) →
  grub_efidisk_get_current_bdev_handle fw sh drive partition start len w
  = Some (handle <$>
            head (filter (λ c, child_of (mem w) d c
                               && is_partition (mem w) start len c)
                         (reverse (devices_of_handles fw (mem w) handles))),
          w).
Proof.
  intros Hd Hncd Hbit Hpart Hfw Hh Hloc Hnodes Hsize.
  unfold grub_efidisk_get_current_bdev_handle.
  rewrite bind_eq, Hd, (get_device_from_drive_valid drive d w Hd).
  destruct (Z.eqb_spec drive (cdrom_drive sh)); [done|].
  destruct (Z.eqb_spec (Z.land drive 128) 0); [done|].
  destruct (Z.eqb_spec partition 16777215); [done|].
  unfold make_devices. rewrite Hloc, bind_eq.
  destruct (make_devices_loop_general fw handles [] w Hfw)
    as (l & w1 & -> & _ & _ & _ & _ & _ & _ & Hnil).
  destruct (Hnil Hh) as [-> ->]. rewrite app_nil_r, bind_eq.
  rewrite (iterate_find_partition _ d nsp tp start len w); try done.
  - by destruct (filter _ _).
  - apply Forall_reverse. by apply devices_of_handles_enumerated.
  - intros c Hc. apply Hsize. by rewrite elem_of_reverse in Hc.
Qed.

(** X19: the handle for the current drive and partition.
    [grub_efidisk_get_current_bdev_handle] returns the null handle for a
    drive that resolves to no device.  For the optical drive, for a floppy
    and for a hard disk taken as a whole (partition 0xFFFFFF) it returns the
    handle of the device, without a call of the firmware and without an
    allocation.  For a partition of a hard disk it returns, with memory for
    the records and the copies, the handle of the first child of the disk,
    in the reverse of the order of the handles of the firmware, whose last
    node is a hard-drive media node with the start and the length of the
    current partition, and the null handle when there is none; the number of
    the partition plays no part.  The last node of every child of the disk
    has the size of a hard-drive media node at least: the hook copies that
    many bytes from it before it looks at its type. *)
Theorem current_bdev_handle drive partition start len w :
  (get_device_from_drive sh drive w = Some (None, w) →
   grub_efidisk_get_current_bdev_handle fw sh drive partition start len w
   = Some (None, w)) ∧
  (∀ d, get_device_from_drive sh drive w = Some (Some d, w) →
        drive = cdrom_drive sh ∨ Z.land drive 0x80 = 0 ∨ partition = 0xFFFFFF →
        grub_efidisk_get_current_bdev_handle fw sh drive partition start len w
        = Some (Some (handle d), w)) ∧
  (∀ d nsp tp handles,
     get_device_from_drive sh drive w = Some (Some d, w) →
     drive ≠ cdrom_drive sh → Z.land drive 0x80 ≠ 0 → partition ≠ 0xFFFFFF →
     wf_firmware fw (mem w) → heap w = [] →
     grub_efi_locate_handle fw = Some handles →
     dev_nodes (mem w) d = Some (nsp, tp) →
     (∀ c, c ∈ devices_of_handles fw (mem w) handles → child_of (mem w) d c →
           ∃ leaf, device_leaf (mem w) c = Some leaf ∧
                   (sizeof_hard_drive_device_path ≤ length leaf)%nat) →
     grub_efidisk_get_current_bdev_handle fw sh drive partition start len w
     = Some (handle <$>
               head (filter (λ c, child_of (mem w) d c
                                  && is_partition (mem w) start len c)
                            (reverse (devices_of_handles fw (mem w) handles))),
             w)).
Proof.
  unfold grub_efidisk_get_current_bdev_handle. split; [|split].
  - intros Hd. by rewrite bind_eq, Hd.
  - intros d Hd Hwhole.
    rewrite bind_eq, Hd, (get_device_from_drive_valid drive d w Hd).
    destruct (Z.eqb_spec drive (cdrom_drive sh)); [done|].
    destruct (Z.eqb_spec (Z.land drive 128) 0); [done|].
    destruct (Z.eqb_spec partition 16777215); [done|].
    by destruct Hwhole as [? | [? | ?]].
  - intros d nsp tp handles Hd Hncd Hbit Hpart Hfw Hh Hloc Hnodes Hsize.
    fold (grub_efidisk_get_current_bdev_handle fw sh drive partition start len).
    by apply (current_partition_run drive partition start len d nsp tp).
Qed.

End CurrentHandle.

Section CurrentHandleExamples.

Import Examples.

Lemma current_bdev_handle_witness :
  let fw := machine_of [1; 2; 3; 6]%N [1; 3]%N hard_disk_media table_a in
  let w := set_hd_devices [dev_a] (world0 mem0 []) in
  grub_efidisk_get_current_bdev_handle fw sh0 0x80 0x01FFFF 2048 204800 w
    = Some (Some 3%N, w) ∧
  grub_efidisk_get_current_bdev_handle fw sh0 0x80 0xFFFFFF 0 0 w
    = Some (Some 1%N, w).
Proof.
  destruct (current_bdev_handle
              (machine_of [1; 2; 3; 6]%N [1; 3]%N hard_disk_media table_a) sh0
              0x80 0x01FFFF 2048 204800
              (set_hd_devices [dev_a] (world0 mem0 []))) as (_ & _ & H3).
  destruct (current_bdev_handle
              (machine_of [1; 2; 3; 6]%N [1; 3]%N hard_disk_media table_a) sh0
              0x80 0xFFFFFF 0 0
              (set_hd_devices [dev_a] (world0 mem0 []))) as (_ & H2 & _).
  split.
  - rewrite (H3 dev_a [PciRoot; Pci x1f x02; Sata x01] EndEntire [1; 3]%N);
      try reflexivity; try done.
    + apply wf_firmware_machine_of.
    + intros c Hc Hchild. exists HD1.
      apply list_elem_of_omap in Hc as (h & Hh & Hc).
      repeat (apply elem_of_cons in Hh as [-> | Hh]).
      * vm_compute in Hc. injection Hc as <-. by vm_compute in Hchild.
      * vm_compute in Hc. injection Hc as <-. split; [reflexivity|].
        vm_compute. lia.
      * by apply elem_of_nil in Hh.
  - apply (H2 dev_a); [reflexivity|]. by right; right.
Defined.

End CurrentHandleExamples.

(** * Initialisation and resolution together *)

Section InitThenResolve.

Variable fw : firmware.
Variable sh : shared_h.

Lemma resolution_finds_entry handle dp ns t w c e :
  grub_efi_get_device_path fw handle = Some dp →
  path_nodes (deref (mem w) dp) = Some (ns, t) →
  Forall (λ n, ¬ cdrom_node n) ns →
  Forall (wf_device (mem w)) (fd_devices w ++ cd_devices w ++ hd_devices w) →
  c ≠ optical → e ∈ category_list c w → has_path (mem w) dp e →
  ∃ c' i e',
    grub_get_drive_partition_from_bdev_handle fw sh handle w
      = Some (Some (u64 (drive_number sh c' i), 0xFFFFFF), w) ∧
    category_list c' w !! i = Some e' ∧ has_path (mem w) dp e'.
Proof.
  intros Hdp Hp Hcd Hwf Hc He Hpath.
  apply Forall_app in Hwf as [Hwfd Hwf]. apply Forall_app in Hwf as [Hwcd Hwhd].
  unfold grub_get_drive_partition_from_bdev_handle.
  rewrite Hdp, bind_eq, (cut_at_cdrom_at_id dp ns t w Hp Hcd).
  rewrite bind_eq. cbn [gets]. rewrite bind_eq. cbn [gets]. rewrite bind_eq.
  rewrite (find_whole_disk_spec (mem w) _ 0 dp ns t Hwfd Hp). cbn [lift].
  destruct (list_find (has_path (mem w) dp) (fd_devices w)) as [[i e']|] eqn:Hfd;
    cbn [fmap option_fmap option_map].
  { apply list_find_Some in Hfd as (Hi & He' & _).
    exists floppy, i, e'. by rewrite Z.add_0_l. }
  rewrite bind_eq. cbn [gets]. rewrite bind_eq.
  assert (Hhds : ∃ c' i e',
            (hds ← gets hd_devices;
             r ← lift (find_whole_disk (mem w) hds 0x80 (Some dp));
             match r with
             | Some drv => mret (Some (u64 drv, 0xFFFFFF))
             | None => find_partition_of_disk fw (Some dp)
             end) w = Some (Some (u64 (drive_number sh c' i), 0xFFFFFF), w) ∧
            category_list c' w !! i = Some e' ∧ has_path (mem w) dp e').
  { rewrite bind_eq. cbn [gets]. rewrite bind_eq.
    rewrite (find_whole_disk_spec (mem w) _ 0x80 dp ns t Hwhd Hp).
    destruct (list_find (has_path (mem w) dp) (hd_devices w)) as [[i e']|] eqn:Hhd.
    - apply list_find_Some in Hhd as (Hi & He' & _).
      by exists hard_disk, i, e'.
    - exfalso. destruct c; [| |done].
      + destruct (list_find_elem_of (has_path (mem w) dp) _ e He Hpath) as [? H].
        cbn [category_list] in H. by rewrite Hfd in H.
      + destruct (list_find_elem_of (has_path (mem w) dp) _ e He Hpath) as [? H].
        cbn [category_list] in H. by rewrite Hhd in H. }
  destruct (cd_devices w) as [|e0 cds] eqn:Hcds; [exact Hhds|].
  apply Forall_cons in Hwcd as [He0 _].
  destruct (compare_at_total (mem w) e0 dp ns t He0 Hp) as [ret Hret].
  rewrite Hret. cbn [lift]. rewrite bool_decide_eq_false_2 by done.
  cbn [negb andb].
  destruct (Z.eqb_spec ret 0) as [-> | Hne]; [|exact Hhds].
  exists optical, 0%nat, e0. cbn [category_list drive_number].
  by rewrite Hcds.
Qed.

(** X20: a floppy or a hard disk that initialisation has found resolves
    from its handle.  After [grub_efidisk_init], with memory for every
    record and list node, [grub_get_drive_partition_from_bdev_handle] on the
    handle of a device of the floppy or the hard-disk category, with no
    CD-ROM media node in its path, reports partition 0xFFFFFF and the drive
    number of a list entry that has the device path of the handle: its
    position for a floppy, 0x80 plus its position for a hard disk,
    [cdrom_drive] for the first optical entry. *)
Theorem init_then_resolve handles h dp ns t d c w :
  wf_firmware fw (mem w) → lists_inserted (mem w) w → heap w = [] →
  grub_efi_locate_handle fw = Some handles → h ∈ handles →
  grub_efi_get_device_path fw h = Some dp →
  path_nodes (deref (mem w) dp) = Some (ns, t) →
  Forall (λ n, ¬ cdrom_node n) ns →
  device_of_handle fw (mem w) h = Some d →
  category_of (mem w) d = Some c → c ≠ optical →
  ∃ w' c' i e,
    grub_efidisk_init fw w = Some (tt, w') ∧
    grub_get_drive_partition_from_bdev_handle fw sh h w'
      = Some (Some (u64 (drive_number sh c' i), 0xFFFFFF), w') ∧
    category_list c' w' !! i = Some e ∧ same_path (mem w) e d.
Proof.
  intros Hfw Hw Hh Hloc Hin Hdp Hp Hcd Hd Hc Hopt.
  destruct (grub_efidisk_init_full fw handles w Hfw Hw Hloc)
    as (w' & E & Hm & _ & Hw' & _ & _ & Hheap).
  destruct (Hheap Hh) as [_ Hall].
  destruct (Hall d c) as (e & He & Hsame); [|done|].
  { apply list_elem_of_omap. by exists h. }
  destruct (device_of_handle_enumerated fw _ h d Hfw Hd) as (_ & _ & Hpd & _).
  rewrite Hdp in Hpd.
  assert (Hwf : Forall (wf_device (mem w'))
                  (fd_devices w' ++ cd_devices w' ++ hd_devices w')).
  { rewrite Hm. destruct Hw' as (H1 & H2 & H3).
    apply inserted_invariant in H1 as [H1 _].
    apply inserted_invariant in H2 as [H2 _].
    apply inserted_invariant in H3 as [H3 _].
    by rewrite !Forall_app. }
  destruct (resolution_finds_entry h dp ns t w' c e) as (c' & i & e' & R & Hi & He');
    try done.
  - by rewrite Hm.
  - rewrite Hm. unfold has_path. unfold same_path in Hsame.
    by rewrite Hpd in Hsame.
  - exists w', c', i, e'. split; [done|]. split; [done|]. split; [done|].
    rewrite Hm in He'. unfold same_path. by rewrite Hpd.
Qed.

End InitThenResolve.

Section AllocationFailureInIteration.

(** X21: when the allocation of the copy of a device's path fails,
    [iterate_child_devices] returns 0 at once.  The hook is called neither
    on that device nor on any device after it in the list, so a child
    further on is not found, and the result is that of a list without a
    child. *)
Theorem iterate_child_devices_allocation_failure {St : Type}
    p devices d (hook : grub_efidisk_data → St → M (bool * St)) (s : St)
    ns t h w :
  heap w = false :: h → dev_nodes (mem w) p = Some (ns, t) →
  iterate_child_devices (p :: devices) d hook s w
  = Some ((false, s), set_heap h w).
Proof.
  intros Hh Hp. apply dev_nodes_wf in Hp as (pp & r & Hpp & Hr & Hwf).
  cbn [iterate_child_devices]. rewrite Hpp. cbn [load].
  rewrite bind_eq. cbn [gets]. rewrite Hr, bind_eq.
  by rewrite (duplicate_device_path_spec _ _ _ _ _ _ Hwf (grub_malloc_fails w h Hh)).
Qed.

End AllocationFailureInIteration.

Section InitThenResolveExamples.

Import Examples.

Lemma init_then_resolve_witness :
  let fw := machine_of [1; 2; 3; 6]%N [1; 2; 3; 6]%N hard_disk_media (λ _, []) in
  ∃ w' c' i e,
    grub_efidisk_init fw (world0 mem0 []) = Some (tt, w') ∧
    grub_get_drive_partition_from_bdev_handle fw sh0 2%N w'
      = Some (Some (u64 (drive_number sh0 c' i), 0xFFFFFF), w') ∧
    category_list c' w' !! i = Some e ∧ same_path mem0 e dev_b.
Proof.
  apply (init_then_resolve
           (machine_of [1; 2; 3; 6]%N [1; 2; 3; 6]%N hard_disk_media (λ _, []))
           sh0 [1; 2; 3; 6]%N 2%N (Ptr 2 0)
           [PciRoot; Pci x1f x05; Sata x00] EndEntire dev_b hard_disk
           (world0 mem0 [])).
  - apply wf_firmware_machine_of.
  - apply lists_inserted_world0.
  - reflexivity.
  - reflexivity.
  - by apply (list_elem_of_lookup_2 _ 1%nat).
  - reflexivity.
  - reflexivity.
  - repeat constructor; by intros [? ?].
  - reflexivity.
  - reflexivity.
  - discriminate.
Defined.

Lemma iterate_child_devices_allocation_failure_witness :
  iterate_child_devices
    [device 3 28 hard_disk_media] dev_a (λ _ s, mret (true, s)) tt
    (world0 mem0 [false])
  = Some ((false, tt), world0 mem0 []).
Proof.
  apply (iterate_child_devices_allocation_failure
           (device 3 28 hard_disk_media) [] dev_a (λ _ s, mret (true, s)) tt
           [PciRoot; Pci x1f x02; Sata x01; HD1] EndEntire []
           (world0 mem0 [false])); reflexivity.
Defined.

End InitThenResolveExamples.

(** * The order of the handles *)

Section HandleOrder.

Lemma list_lt_irrefl m a : wf_device m a → ¬ list_lt m a a.
Proof.
  intros Ha (ret & Hret & Hneg).
  pose proof (same_path_refl m a Ha) as Hs.
  apply same_path_order_zero in Hs; [|done..]. rewrite Hs in Hret.
  injection Hret as <-. lia.
Qed.

Lemma sorted_same_elements m l1 l2 :
  Forall (wf_device m) l1 → Forall (wf_device m) l2 →
  StronglySorted (list_lt m) l1 → StronglySorted (list_lt m) l2 →
  (∀ x, x ∈ l1 ↔ x ∈ l2) → l1 = l2.
Proof.
  intros Hw1. revert l2.
  induction Hw1 as [|a l1 Ha Hw1 IH]; intros l2 Hw2 Hs1 Hs2 Hel.
  { destruct l2 as [|b l2]; [done|].
    exfalso. eapply not_elem_of_nil. apply Hel. by left. }
  destruct l2 as [|b l2].
  { exfalso. eapply not_elem_of_nil. apply Hel. by left. }
  apply Forall_cons in Hw2 as [Hb Hw2].
  apply StronglySorted_inv in Hs1 as [Hs1 Hall1].
  apply StronglySorted_inv in Hs2 as [Hs2 Hall2].
  rewrite Forall_forall in Hall1, Hall2.
  assert (Hab : a = b).
  { assert (Ha2 : a ∈ b :: l2) by (apply Hel; by left).
    assert (Hb1 : b ∈ a :: l1) by (apply Hel; by left).
    apply elem_of_cons in Ha2 as [? | Ha2]; [done|].
    apply elem_of_cons in Hb1 as [? | Hb1]; [done|].
    exfalso. apply (list_lt_irrefl m a Ha).
    eapply (list_lt_trans m a b a); eauto. }
  subst b. f_equal. apply IH; try done.
  intros x. split; intros Hx.
  - assert (Hx2 : x ∈ a :: l2) by (apply Hel; by right).
    apply elem_of_cons in Hx2 as [-> | Hx2]; [|done].
    exfalso. by apply (list_lt_irrefl m a Ha), Hall1.
  - assert (Hx1 : x ∈ a :: l1) by (apply Hel; by right).
    apply elem_of_cons in Hx1 as [-> | Hx1]; [|done].
    exfalso. by apply (list_lt_irrefl m a Ha), Hall2.
Qed.

(** X22: the drive numbers do not depend on the order in which the
    firmware lists the handles.  On two machines that differ in the array of
    handles alone, the two arrays with the same handles in them, and with
    distinct device paths for distinct handles, initialisation from empty
    lists and with memory for every record and list node ends in the same
    state: each list is in the order of [add_device] whatever the order of
    the insertions was. *)
Theorem drive_numbers_independent_of_handle_order fw1 fw2 hs1 hs2 w :
  (∀ h, grub_efi_get_device_path fw2 h = grub_efi_get_device_path fw1 h) →
  (∀ h, open_block_io fw2 h = open_block_io fw1 h) →
  (∀ h, open_disk_io fw2 h = open_disk_io fw1 h) →
  grub_efi_locate_handle fw1 = Some hs1 →
  grub_efi_locate_handle fw2 = Some hs2 →
  (∀ h, h ∈ hs1 ↔ h ∈ hs2) →
  wf_firmware fw1 (mem w) → heap w = [] →
  fd_devices w = [] → hd_devices w = [] → cd_devices w = [] →
  (∀ h1 h2 d1 d2, h1 ∈ hs1 → h2 ∈ hs1 →
     device_of_handle fw1 (mem w) h1 = Some d1 →
     device_of_handle fw1 (mem w) h2 = Some d2 →
     same_path (mem w) d1 d2 → h1 = h2) →
  ∃ w', grub_efidisk_init fw1 w = Some (tt, w') ∧
        grub_efidisk_init fw2 w = Some (tt, w').
Proof.
  intros Hpath Hbio Hdio Hloc1 Hloc2 Hhs Hfw1 Hh Hfd Hhd Hcd Huniq.
  assert (Hfw2 : wf_firmware fw2 (mem w)).
  { intros h p Hp. rewrite Hpath in Hp. by apply (Hfw1 h p). }
  assert (Hdev : ∀ h, device_of_handle fw2 (mem w) h
                      = device_of_handle fw1 (mem w) h).
  { intros h. unfold device_of_handle. by rewrite Hpath, Hbio, Hdio. }
  assert (Hw : lists_inserted (mem w) w).
  { unfold lists_inserted. rewrite Hfd, Hhd, Hcd. repeat split; constructor. }
  assert (Hempty : ∀ c, category_list c w = []) by (by intros []).
  destruct (grub_efidisk_init_full fw1 hs1 w Hfw1 Hw Hloc1)
    as (w1 & E1 & Hm1 & Hi1 & Hw1 & _ & Hsound1 & Hheap1).
  destruct (grub_efidisk_init_full fw2 hs2 w Hfw2 Hw Hloc2)
    as (w2 & E2 & Hm2 & Hi2 & Hw2 & _ & Hsound2 & Hheap2).
  destruct (Hheap1 Hh) as [Hh1 Hall1]. destruct (Hheap2 Hh) as [Hh2 Hall2].
  assert (Hdevs : ∀ d, d ∈ devices_of_handles fw2 (mem w) hs2
                       ↔ d ∈ devices_of_handles fw1 (mem w) hs1).
  { intros d. unfold devices_of_handles. rewrite !list_elem_of_omap.
    split; intros (h & Hin & Hd); exists h.
    - rewrite Hdev in Hd. split; [by apply Hhs|done].
    - rewrite Hdev. split; [by apply Hhs|done]. }
  assert (Hsame : ∀ d1 d2, d1 ∈ devices_of_handles fw1 (mem w) hs1 →
                    d2 ∈ devices_of_handles fw1 (mem w) hs1 →
                    same_path (mem w) d1 d2 → d1 = d2).
  { intros d1 d2 H1 H2 Hs.
    apply list_elem_of_omap in H1 as (h1 & Hin1 & Hd1).
    apply list_elem_of_omap in H2 as (h2 & Hin2 & Hd2).
    assert (h1 = h2) by eauto. subst h2. congruence. }
  assert (Hlists : ∀ c, category_list c w1 = category_list c w2).
  { intros c.
    pose proof (proj1 (lists_inserted_category _ _) Hw1 c) as Hin1.
    pose proof (proj1 (lists_inserted_category _ _) Hw2 c) as Hin2.
    destruct (inserted_invariant _ _ Hin1) as [Hwf1 Hs1].
    destruct (inserted_invariant _ _ Hin2) as [Hwf2 Hs2].
    apply (sorted_same_elements (mem w)); try done.
    intros x. split; intros Hx.
    - destruct (Hsound1 c x Hx) as [Hx0 | [Hd Hc]].
      { rewrite Hempty in Hx0. by apply elem_of_nil in Hx0. }
      destruct (Hall2 x c) as (e & He & Hes); [by apply Hdevs|done|].
      destruct (Hsound2 c e He) as [He0 | [Hde _]].
      { rewrite Hempty in He0. by apply elem_of_nil in He0. }
      apply Hdevs in Hde. by rewrite <- (Hsame e x Hde Hd Hes).
    - destruct (Hsound2 c x Hx) as [Hx0 | [Hd Hc]].
      { rewrite Hempty in Hx0. by apply elem_of_nil in Hx0. }
      apply Hdevs in Hd.
      destruct (Hall1 x c) as (e & He & Hes); [done|done|].
      destruct (Hsound1 c e He) as [He0 | [Hde _]].
      { rewrite Hempty in He0. by apply elem_of_nil in He0. }
      by rewrite <- (Hsame e x Hde Hd Hes). }
  exists w1. split; [done|]. rewrite E2. do 2 f_equal.
  pose proof (Hlists floppy) as Hf. pose proof (Hlists hard_disk) as Hhds.
  pose proof (Hlists optical) as Hc. cbn [category_list] in Hf, Hhds, Hc.
  destruct w1, w2. cbn in *. congruence.
Qed.

End HandleOrder.

Section HandleOrderExamples.

Import Examples.

Lemma distinct_paths_machine_of h1 h2 d1 d2 hs bio table :
  h1 ∈ [1; 2; 3; 6]%N → h2 ∈ [1; 2; 3; 6]%N →
  device_of_handle (machine_of [1; 2; 3; 6]%N hs bio table) mem0 h1 = Some d1 →
  device_of_handle (machine_of [1; 2; 3; 6]%N hs bio table) mem0 h2 = Some d2 →
  same_path mem0 d1 d2 → h1 = h2.
Proof.
  intros H1 H2 Hd1 Hd2 Hs.
  repeat (apply elem_of_cons in H1 as [-> | H1]);
    try (by apply elem_of_nil in H1);
    repeat (apply elem_of_cons in H2 as [-> | H2]);
    try (by apply elem_of_nil in H2);
    try reflexivity;
    vm_compute in Hd1; vm_compute in Hd2;
    injection Hd1 as <-; injection Hd2 as <-;
    vm_compute in Hs; discriminate Hs.
Qed.

Lemma drive_numbers_independent_of_handle_order_witness :
  ∃ w', grub_efidisk_init
          (machine_of [1; 2; 3; 6]%N [1; 2; 3; 6]%N hard_disk_media (λ _, []))
          (world0 mem0 []) = Some (tt, w') ∧
        grub_efidisk_init
          (machine_of [1; 2; 3; 6]%N [6; 2; 1; 3; 2]%N hard_disk_media (λ _, []))
          (world0 mem0 []) = Some (tt, w').
Proof.
  apply (drive_numbers_independent_of_handle_order
           (machine_of [1; 2; 3; 6]%N [1; 2; 3; 6]%N hard_disk_media (λ _, []))
           (machine_of [1; 2; 3; 6]%N [6; 2; 1; 3; 2]%N hard_disk_media (λ _, []))
           [1; 2; 3; 6]%N [6; 2; 1; 3; 2]%N (world0 mem0 []));
    try reflexivity.
  - intros h. rewrite !elem_of_cons, !elem_of_nil. tauto.
  - apply wf_firmware_machine_of.
  - intros h1 h2 d1 d2. apply distinct_paths_machine_of.
Defined.

End HandleOrderExamples.

(** * A partition, there and back *)

Section PartitionRoundTrip.

Variable fw : firmware.
Variable sh : shared_h.

Lemma hard_disk_drive_resolves i disk w :
  hd_devices w !! i = Some disk → (i < 128)%nat →
  0x80 + Z.of_nat i ≠ GRUB_INVALID_DRIVE sh →
  NETWORK_DRIVE sh ≠ Some (0x80 + Z.of_nat i) →
  0x80 + Z.of_nat i ≠ cdrom_drive sh →
  get_device_from_drive sh (0x80 + Z.of_nat i) w = Some (Some disk, w) ∧
  Z.land (0x80 + Z.of_nat i) 0x80 ≠ 0.
Proof.
  intros Hi Hlt Hinv Hnet Hcd.
  rewrite get_device_from_drive_eq, bit7_set by lia. split; [|done].
  rewrite bool_decide_eq_false_2 by done.
  destruct (Z.eqb_spec (128 + Z.of_nat i) (GRUB_INVALID_DRIVE sh)); [done|].
  destruct (Z.eqb_spec (128 + Z.of_nat i) (cdrom_drive sh)); [done|].
  cbn [Z.eqb negb]. rewrite get_device_spec. case_decide; [|lia].
  replace (Z.to_nat (128 + Z.of_nat i - 128)) with i by lia. by rewrite Hi.
Qed.

(** X23: a partition, from its handle to a drive and a partition number
    and back to a handle.  For the handle of a partition of hard disk [i],
    whose path ends in a hard-drive media node, and a partition table of the
    disk with an entry for the start and the length in that node,
    [grub_get_drive_partition_from_bdev_handle] reports drive [0x80 + i] and
    the number of the entry, and [grub_efidisk_get_current_bdev_handle] for
    that drive and partition, with the start and the length of the entry,
    returns the handle of a child of the disk whose hard-drive media node
    has the same start and length: the handle the round trip began with,
    when the disk has one child with that start and length. *)
Theorem partition_round_trip_general
    h dp nsp leaf t handles bio dio i disk part w :
  wf_firmware fw (mem w) → heap w = [] →
  grub_efi_locate_handle fw = Some handles → h ∈ handles →
  grub_efi_get_device_path fw h = Some dp →
  open_block_io fw h = Some bio → open_disk_io fw h = Some dio →
  path_nodes (deref (mem w) dp) = Some (nsp ++ [leaf], t) →
  Forall (λ n, ¬ cdrom_node n) (nsp ++ [leaf]) →
  node_type leaf = GRUB_EFI_MEDIA_DEVICE_PATH_TYPE →
  node_subtype leaf = GRUB_EFI_HARD_DRIVE_DEVICE_PATH_SUBTYPE →
  Forall (wf_device (mem w)) (fd_devices w ++ cd_devices w) →
  inserted (mem w) (hd_devices w) →
  list_find (has_path (mem w) dp) (fd_devices w) = None →
  (∀ e cds, cd_devices w = e :: cds → ¬ has_path (mem w) dp e) →
  list_find (has_path (mem w) dp) (hd_devices w) = None →
  hd_devices w !! i = Some disk → (i < 128)%nat →
  dev_nodes (mem w) disk = Some (nsp, END_ENTIRE_NODE) →
  0x80 + Z.of_nat i ≠ GRUB_INVALID_DRIVE sh →
  NETWORK_DRIVE sh ≠ Some (0x80 + Z.of_nat i) →
  0x80 + Z.of_nat i ≠ cdrom_drive sh →
  (∀ c, c ∈ devices_of_handles fw (mem w) handles → child_of (mem w) disk c →
        ∃ lf, device_leaf (mem w) c = Some lf ∧
              (sizeof_hard_drive_device_path ≤ length lf)%nat) →
  find_partition_entry (next_partition fw (0x80 + Z.of_nat i))
                       (hard_drive_of leaf) = Some part →
  part ≠ 0xFFFFFF →
  let start := partition_start (hard_drive_of leaf) in
  let len := partition_size (hard_drive_of leaf) in
  grub_get_drive_partition_from_bdev_handle fw sh h w
    = Some (Some (0x80 + Z.of_nat i, part), w) ∧
  ∃ c, c ∈ devices_of_handles fw (mem w) handles ∧
       child_of (mem w) disk c ∧ is_partition (mem w) start len c ∧
       grub_efidisk_get_current_bdev_handle
         fw sh (0x80 + Z.of_nat i) part start len w
         = Some (Some (handle c), w) ∧
       ((∀ c', c' ∈ devices_of_handles fw (mem w) handles →
               child_of (mem w) disk c' → is_partition (mem w) start len c' →
               handle c' = h) →
        handle c = h).
Proof.
  intros Hfw Hh Hloc Hin Hdp Hbio Hdio Hp Hcd Hty Hsub Hwf Hins Hfd Hncd Hhd
         Hi Hlt Hdisk Hinv Hnet Hncdrom Hsize Hpart Hne start len.
  set (ch := {| handle := h; device_path := Some dp;
                last_device_path := Some (ptr_add dp (length (concat nsp)));
                block_io := bio; disk_io := dio |}).
  assert (Hch : device_of_handle fw (mem w) h = Some ch)
    by (by eapply device_of_handle_is_Some).
  assert (Hchin : ch ∈ devices_of_handles fw (mem w) handles).
  { apply list_elem_of_omap. by exists h. }
  assert (Hchn : dev_nodes (mem w) ch = Some (nsp ++ [leaf], t))
    by (unfold dev_nodes; by cbn).
  assert (Hchild : child_of (mem w) disk ch).
  { apply (child_of_nodes _ disk ch _ _ _ _ Hdisk Hchn).
    rewrite removelast_last. by split; [destruct nsp|]. }
  assert (Hlen : (sizeof_hard_drive_device_path ≤ length leaf)%nat).
  { destruct (Hsize ch Hchin Hchild) as (lf & Hlf & Hl).
    rewrite (device_leaf_nodes _ _ _ _ _ Hchn) in Hlf. by injection Hlf as <-. }
  assert (Hchp : is_partition (mem w) start len ch).
  { unfold is_partition. rewrite (device_leaf_nodes _ _ _ _ _ Hchn).
    unfold partition_node. subst start len.
    by rewrite Hty, Hsub, !Z.eqb_refl. }
  split.
  - rewrite (partition_resolution_found fw sh h dp nsp leaf t handles
               bio dio i disk w) by done.
    rewrite Hpart. cbn [mbind option_bind]. by rewrite u64_small by lia.
  - destruct (hard_disk_drive_resolves i disk w Hi Hlt Hinv Hnet Hncdrom)
      as [Hdrive Hbit].
    rewrite (current_partition_run fw sh _ part start len disk nsp
               END_ENTIRE_NODE handles w) by done.
    destruct (filter (λ c, child_of (mem w) disk c
                           && is_partition (mem w) start len c)
                (reverse (devices_of_handles fw (mem w) handles)))
      as [|c rest] eqn:Hfilter.
    { exfalso. apply (not_elem_of_nil ch). rewrite <- Hfilter.
      apply list_elem_of_filter. split; [|by rewrite elem_of_reverse].
      apply andb_True. by split. }
    assert (Hc : c ∈ filter (λ c, child_of (mem w) disk c
                                  && is_partition (mem w) start len c)
                   (reverse (devices_of_handles fw (mem w) handles)))
      by (rewrite Hfilter; by left).
    apply list_elem_of_filter in Hc as [HP Hc]. apply andb_True in HP as [? ?].
    rewrite elem_of_reverse in Hc.
    exists c. repeat split; try done. intros Huniq. by apply Huniq.
Qed.

End PartitionRoundTrip.

Section PartitionRoundTripExamples.

Import Examples.

Lemma children_of_dev_a_sized c :
  c ∈ devices_of_handles
        (machine_of [1; 2; 3; 6]%N [1; 3]%N hard_disk_media table_a) mem0
        [1; 3]%N →
  child_of mem0 dev_a c →
  device_leaf mem0 c = Some HD1 ∧ handle c = 3%N.
Proof.
  intros Hc Hchild. apply list_elem_of_omap in Hc as (h & Hh & Hc).
  repeat (apply elem_of_cons in Hh as [-> | Hh]).
  - vm_compute in Hc. injection Hc as <-. by vm_compute in Hchild.
  - vm_compute in Hc. by injection Hc as <-.
  - by apply elem_of_nil in Hh.
Qed.

Lemma partition_round_trip_general_witness :
  let fw := machine_of [1; 2; 3; 6]%N [1; 3]%N hard_disk_media table_a in
  let w := set_hd_devices [dev_a] (world0 mem0 []) in
  grub_get_drive_partition_from_bdev_handle fw sh0 3%N w
    = Some (Some (0x80, 0x01FFFF), w) ∧
  grub_efidisk_get_current_bdev_handle fw sh0 0x80 0x01FFFF 2048 204800 w
    = Some (Some 3%N, w).
Proof.
  destruct (partition_round_trip_general
              (machine_of [1; 2; 3; 6]%N [1; 3]%N hard_disk_media table_a) sh0
              3%N (Ptr 3 0) [PciRoot; Pci x1f x02; Sata x01] HD1 EndEntire
              [1; 3]%N hard_disk_media 3%N 0%nat dev_a 0x01FFFF
              (set_hd_devices [dev_a] (world0 mem0 [])))
    as (H1 & c & Hc & Hchild & _ & H2 & _).
  - apply wf_firmware_machine_of.
  - reflexivity.
  - reflexivity.
  - by apply (list_elem_of_lookup_2 _ 1%nat).
  - reflexivity.
  - reflexivity.
  - reflexivity.
  - reflexivity.
  - repeat constructor; by intros [? ?].
  - reflexivity.
  - reflexivity.
  - constructor.
  - apply inserted_a.
  - reflexivity.
  - intros e cds Hcd. discriminate Hcd.
  - vm_compute. reflexivity.
  - reflexivity.
  - lia.
  - reflexivity.
  - discriminate.
  - discriminate.
  - discriminate.
  - intros c Hc Hchild. exists HD1.
    destruct (children_of_dev_a_sized c Hc Hchild) as [Hl _].
    split; [exact Hl|]. vm_compute. lia.
  - reflexivity.
  - discriminate.
  - destruct (children_of_dev_a_sized c Hc Hchild) as [_ Hh].
    rewrite Hh in H2. split; [exact H1|exact H2].
Defined.

End PartitionRoundTripExamples.

(** * Partitions without memory *)

Section PartitionLookupWithoutMemory.

Variable fw : firmware.
Variable sh : shared_h.

Lemma find_parent_disk_nil hds drv dp w :
  find_parent_disk [] hds drv dp w = Some (None, w).
Proof.
  revert drv. induction hds as [|d hds IH]; intros drv; [done|].
  cbn [find_parent_disk iterate_child_devices]. rewrite bind_eq. apply IH.
Qed.

(** X24: without memory for the device records the partitions of a disk
    cannot be looked up, in either direction.  When an allocation of
    [make_devices] fails, [grub_efidisk_get_current_bdev_handle] returns the
    null handle for every partition of a hard disk, and
    [grub_get_drive_partition_from_bdev_handle] reports nothing for every
    handle whose path is in none of the three lists, just as they do when
    there is no such partition. *)
Theorem partition_lookup_allocation_failure handles k h w :
  wf_firmware fw (mem w) → grub_efi_locate_handle fw = Some handles →
  heap w = replicate k true ++ false :: h →
  (k < length (devices_of_handles fw (mem w) handles))%nat →
  (∀ drive partition start len d,
     get_device_from_drive sh drive w = Some (Some d, w) →
     drive ≠ cdrom_drive sh → Z.land drive 0x80 ≠ 0 → partition ≠ 0xFFFFFF →
     grub_efidisk_get_current_bdev_handle fw sh drive partition start len w
     = Some (None, set_heap h w)) ∧
  (∀ hdl dp ns t,
     grub_efi_get_device_path fw hdl = Some dp →
     path_nodes (deref (mem w) dp) = Some (ns, t) →
     Forall (λ n, ¬ cdrom_node n) ns →
     Forall (wf_device (mem w)) (fd_devices w ++ cd_devices w ++ hd_devices w) →
     list_find (has_path (mem w) dp) (fd_devices w) = None →
     (∀ e cds, cd_devices w = e :: cds → ¬ has_path (mem w) dp e) →
     list_find (has_path (mem w) dp) (hd_devices w) = None →
     grub_get_drive_partition_from_bdev_handle fw sh hdl w
     = Some (None, set_heap h w)).
Proof.
  intros Hfw Hloc Hh Hk.
  assert (Hmake : make_devices fw w = Some ([], set_heap h w)).
  { unfold make_devices. rewrite Hloc. by eapply make_devices_loop_nomem. }
  split.
  - intros drive partition start len d Hd Hncd Hbit Hpart.
    unfold grub_efidisk_get_current_bdev_handle.
    rewrite bind_eq, Hd, (get_device_from_drive_valid sh drive d w Hd).
    destruct (Z.eqb_spec drive (cdrom_drive sh)); [done|].
    destruct (Z.eqb_spec (Z.land drive 128) 0); [done|].
    destruct (Z.eqb_spec partition 16777215); [done|].
    by rewrite bind_eq, Hmake.
  - intros hdl dp ns t Hdp Hp Hcd Hwf Hfd Hncd Hhd.
    rewrite (resolution_falls_through fw sh hdl dp ns t w) by done.
    unfold find_partition_of_disk. rewrite bind_eq, Hmake.
    rewrite bind_eq. cbn [gets]. rewrite bind_eq.
    by rewrite find_parent_disk_nil.
Qed.

End PartitionLookupWithoutMemory.

Section PartitionLookupWithoutMemoryExamples.

Import Examples.

Lemma partition_lookup_allocation_failure_witness :
  let fw := machine_of [1; 2; 3; 6]%N [1; 3]%N hard_disk_media table_a in
  let w := set_hd_devices [dev_a] (world0 mem0 [true; false]) in
  grub_efidisk_get_current_bdev_handle fw sh0 0x80 0x01FFFF 2048 204800 w
    = Some (None, set_heap [] w) ∧
  grub_get_drive_partition_from_bdev_handle fw sh0 3%N w
    = Some (None, set_heap [] w).
Proof.
  destruct (partition_lookup_allocation_failure
              (machine_of [1; 2; 3; 6]%N [1; 3]%N hard_disk_media table_a) sh0
              [1; 3]%N 1%nat []
              (set_hd_devices [dev_a] (world0 mem0 [true; false])))
    as [H1 H2].
  - apply wf_firmware_machine_of.
  - reflexivity.
  - reflexivity.
  - vm_compute. lia.
  - split.
    + apply (H1 0x80 0x01FFFF 2048 204800 dev_a); [reflexivity|done..].
    + apply (H2 3%N (Ptr 3 0) [PciRoot; Pci x1f x02; Sata x01; HD1] EndEntire).
      * reflexivity.
      * reflexivity.
      * repeat constructor; by intros [? ?].
      * repeat constructor. apply wf_dev_a.
      * reflexivity.
      * intros e cds Hc. discriminate Hc.
      * vm_compute. reflexivity.
Defined.

End PartitionLookupWithoutMemoryExamples.
